(** * Client-side AES-GCM file encryption helpers of the gallery

    A shallow embedding of the two encryption modules of the repository:
    the file encryption utility (hexStringToBuffer, bufferToHexString,
    base64ToArrayBuffer, arrayBufferToBase64, generateEncryptionKey,
    encryptData, decryptData) and src/utils/encryption.ts
    (generateEncryptionKey, encryptImage, decryptImage).

    Conventions of the embedding.
    - A JavaScript string is a list of code units; code units are
      restricted to the range 0..255 and represented by [ascii].
    - A Uint8Array / ArrayBuffer is a [list byte].
    - The language built-ins the code calls (includes, split, trim, match
      with the two regular expressions, parseInt, toString(16), padStart,
      atob, btoa) are written out after ECMAScript and the HTML standard.
    - crypto.subtle (AES-GCM) and the text of DOMException messages are an
      interface, [WebCrypto]; crypto.getRandomValues reads an entropy tape.
    - async functions are run to completion; every function that can throw
      lives in [M], a state and exception monad whose state records the
      position on the entropy tape and the crypto.subtle calls made so far.
      console.error output is not part of the state. *)

From Stdlib Require Import String Ascii NArith ZArith Bool Arith Lia List.
From Stdlib.Strings Require Import Byte.
Import ListNotations.

Local Open Scope list_scope.

(** ** JavaScript strings *)

Definition jsstring := list ascii.

(** A string literal of the source. *)
Definition lit (s : string) : jsstring := list_ascii_of_string s.

(** String.prototype.startsWith *)
Fixpoint startsWith (sep s : jsstring) : bool :=
  match sep, s with
  | [], _ => true
  | _ :: _, [] => false
  | a :: sep', b :: s' => Ascii.eqb a b && startsWith sep' s'
  end.

(** String.prototype.includes *)
Fixpoint includes (sep s : jsstring) : bool :=
  startsWith sep s ||
  match s with
  | [] => false
  | _ :: s' => includes sep s'
  end.

(** String.prototype.split for a non-empty separator: the scan looks for the
    separator at every position from left to right; [skip] counts the code
    units of a separator just found that are still to be passed over. *)
Fixpoint split_scan (sep : jsstring) (skip : nat) (s : jsstring) : list jsstring :=
  match s with
  | [] => [[]]
  | c :: s' =>
    match skip with
    | S k => split_scan sep k s'
    | O =>
      if startsWith sep s then [] :: split_scan sep (length sep - 1) s'
      else match split_scan sep 0 s' with
           | seg :: segs => (c :: seg) :: segs
           | [] => [[c]]
           end
    end
  end.

Definition split (sep s : jsstring) : list jsstring := split_scan sep 0 s.

(** White space and line terminators of ECMAScript below code unit 256:
    TAB, LF, VT, FF, CR, SP and NBSP. *)
Definition isWhiteSpace (c : ascii) : bool :=
  let n := N_of_ascii c in
  ((9 <=? n) && (n <=? 13) || (n =? 32) || (n =? 160))%N.

(** Line terminators below code unit 256: LF and CR. *)
Definition isLineTerminator (c : ascii) : bool :=
  let n := N_of_ascii c in ((n =? 10) || (n =? 13))%N.

Fixpoint dropWhile {A} (p : A -> bool) (l : list A) : list A :=
  match l with
  | [] => []
  | x :: l' => if p x then dropWhile p l' else l
  end.

Fixpoint takeWhile {A} (p : A -> bool) (l : list A) : list A :=
  match l with
  | [] => []
  | x :: l' => if p x then x :: takeWhile p l' else []
  end.

(** String.prototype.trim *)
Definition trim (s : jsstring) : jsstring :=
  rev (dropWhile isWhiteSpace (rev (dropWhile isWhiteSpace s))).

(** [!s] for a string: only the empty string is falsy. *)
Definition falsy (s : jsstring) : bool :=
  match s with [] => true | _ :: _ => false end.

(** The data-URL marker searched for by all four entry points. *)
Definition marker : jsstring := lit "base64,".

(** The block shared by encryptImage, decryptImage and encryptData
    (the spec's splitDataUrl):
      prefix is the empty string and base64Data is data, unless
      data.includes("base64,"), and then, with parts = data.split("base64,"),
      prefix = parts[0] + "base64," and base64Data = parts[1].
    encryptData writes the same with a destructuring assignment; decryptData
    has a variant of its own, with the default prefix in the else branch. *)
Definition splitDataUrl (data : jsstring) : jsstring * jsstring :=
  if includes marker data then
    let parts := split marker data in
    (nth 0 parts [] ++ marker, nth 1 parts [])
  else ([], data).

(** ** Hexadecimal conversions *)

(** Value of a hexadecimal digit; upper and lower case are both digits. *)
Definition hexValue (c : ascii) : option N :=
  let n := N_of_ascii c in
  if ((48 <=? n) && (n <=? 57))%N then Some (n - 48)%N
  else if ((97 <=? n) && (n <=? 102))%N then Some (n - 87)%N
  else if ((65 <=? n) && (n <=? 70))%N then Some (n - 55)%N
  else None.

Definition isHexDigit (c : ascii) : bool :=
  match hexValue c with Some _ => true | None => false end.

(** The matches of [hexString.match(/[\da-f]{2}/gi) || []]: two adjacent
    hexadecimal digits, found from left to right without overlap; any other
    code unit is passed over. *)
Fixpoint match_hex_pairs (s : jsstring) : list jsstring :=
  match s with
  | [] => []
  | a :: tl =>
    match tl with
    | [] => []
    | b :: rest =>
      if isHexDigit a && isHexDigit b then [a; b] :: match_hex_pairs rest
      else match_hex_pairs tl
    end
  end.

(** The matches of [key.match(/.{1,2}/g) || []]: greedy runs of one or two
    code units that are not line terminators. *)
Fixpoint match_any_1_2 (s : jsstring) : list jsstring :=
  match s with
  | [] => []
  | a :: tl =>
    if isLineTerminator a then match_any_1_2 tl
    else match tl with
         | [] => [[a]]
         | b :: rest =>
           if isLineTerminator b then [a] :: match_any_1_2 tl
           else [a; b] :: match_any_1_2 rest
         end
  end.

Definition digitsValue (ds : jsstring) : Z :=
  fold_left (fun acc c => (16 * acc + match hexValue c with
                                      | Some v => Z.of_N v
                                      | None => 0
                                      end)%Z) ds 0%Z.

(** Number.parseInt(s, 16); [None] is NaN. Leading white space is dropped, a
    sign is read, a 0x or 0X prefix is dropped, and the longest run of
    hexadecimal digits is the value. *)
Definition parseInt16 (s : jsstring) : option Z :=
  let s1 := dropWhile isWhiteSpace s in
  let '(sign, s2) :=
    match s1 with
    | c :: t =>
      if Ascii.eqb c "-" then ((-1)%Z, t)
      else if Ascii.eqb c "+" then (1%Z, t)
      else (1%Z, s1)
    | [] => (1%Z, s1)
    end in
  let s3 :=
    match s2 with
    | z :: x :: t =>
      if Ascii.eqb z "0" && (Ascii.eqb x "x" || Ascii.eqb x "X") then t else s2
    | _ => s2
    end in
  match takeWhile isHexDigit s3 with
  | [] => None
  | ds => Some (sign * digitsValue ds)%Z
  end.

(** Storing a number into a Uint8Array: NaN becomes 0, an integer is taken
    modulo 256. *)
Definition toUint8 (x : option Z) : byte :=
  match x with
  | None => x00
  | Some z =>
    match Byte.of_N (Z.to_N (z mod 256)) with
    | Some b => b
    | None => x00
    end
  end.

(** hexStringToBuffer of the file encryption utility. *)
Definition hexStringToBuffer (hexString : jsstring) : list byte :=
  let pairs := match_hex_pairs hexString in
  let integers := map parseInt16 pairs in
  map toUint8 integers.

(** The key conversion written inline in encryptImage and decryptImage:
    new Uint8Array((key.match(/.{1,2}/g) || []).map(b => parseInt(b, 16))) *)
Definition keyDataOfImageKey (key : jsstring) : list byte :=
  map toUint8 (map parseInt16 (match_any_1_2 key)).

Definition hexDigit (n : N) : ascii :=
  nth (N.to_nat n) (lit "0123456789abcdef") "0"%char.

(** [b.toString(16)] for a byte b. *)
Definition toString16 (b : byte) : jsstring :=
  let n := Byte.to_N b in
  if (n <? 16)%N then [hexDigit n] else [hexDigit (n / 16); hexDigit (n mod 16)].

(** [s.padStart(n, fill)] for a one-unit fill string. *)
Definition padStart (n : nat) (fill : ascii) (s : jsstring) : jsstring :=
  repeat fill (n - length s) ++ s.

(** bufferToHexString; generateEncryptionKey of encryption.ts has the same
    map and join inline. *)
Definition bufferToHexString (buffer : list byte) : jsstring :=
  concat (map (fun b => padStart 2 "0" (toString16 b)) buffer).

(** ** Base64: btoa and atob *)

Definition base64Alphabet : jsstring :=
  lit "ABCDEFGHIJKLMNOPQRSTUVWXYZabcdefghijklmnopqrstuvwxyz0123456789+/".

Definition base64Char (n : N) : ascii := nth (N.to_nat n) base64Alphabet "A"%char.

Definition base64Value (c : ascii) : option N :=
  let n := N_of_ascii c in
  if ((65 <=? n) && (n <=? 90))%N then Some (n - 65)%N
  else if ((97 <=? n) && (n <=? 122))%N then Some (n - 71)%N
  else if ((48 <=? n) && (n <=? 57))%N then Some (n + 4)%N
  else if (n =? 43)%N then Some 62%N
  else if (n =? 47)%N then Some 63%N
  else None.

(** btoa on a binary string (every code unit is below 256 here, so it never
    throws): three code units give four digits, the tail is padded. *)
Fixpoint btoa (s : jsstring) : jsstring :=
  match s with
  | [] => []
  | a :: [] =>
    let x := N_of_ascii a in
    [base64Char (x / 4); base64Char (x mod 4 * 16); "="; "="]%char%N
  | a :: b :: [] =>
    let x := N_of_ascii a in
    let y := N_of_ascii b in
    [base64Char (x / 4); base64Char (x mod 4 * 16 + y / 16);
     base64Char (y mod 16 * 4); "="]%char%N
  | a :: b :: c :: rest =>
    let x := N_of_ascii a in
    let y := N_of_ascii b in
    let z := N_of_ascii c in
    [base64Char (x / 4); base64Char (x mod 4 * 16 + y / 16);
     base64Char (y mod 16 * 4 + z / 64); base64Char (z mod 64)]%N ++ btoa rest
  end.

(** ASCII white space of the HTML standard: TAB, LF, FF, CR, SP. *)
Definition isAsciiWhitespace (c : ascii) : bool :=
  let n := N_of_ascii c in
  ((n =? 9) || (n =? 10) || (n =? 12) || (n =? 13) || (n =? 32))%N.

(** Step 2 of forgiving-base64 decode: when the length is a multiple of four,
    one or two trailing "=" are removed. *)
Definition stripPadding (s : jsstring) : jsstring :=
  if (length s mod 4 =? 0)%nat then
    match rev s with
    | c1 :: c2 :: r =>
      if Ascii.eqb c1 "=" then
        if Ascii.eqb c2 "=" then rev r else rev (c2 :: r)
      else s
    | c1 :: r => if Ascii.eqb c1 "=" then rev r else s
    | [] => s
    end
  else s.

Fixpoint sextets (s : jsstring) : option (list N) :=
  match s with
  | [] => Some []
  | c :: s' =>
    match base64Value c, sextets s' with
    | Some v, Some l => Some (v :: l)
    | _, _ => None
    end
  end.

(** Four digits give three code units; two trailing digits give one and
    three give two, the surplus bits being discarded. *)
Fixpoint decodeSextets (l : list N) : jsstring :=
  match l with
  | s1 :: s2 :: s3 :: s4 :: rest =>
    [ascii_of_N (s1 * 4 + s2 / 16); ascii_of_N (s2 mod 16 * 16 + s3 / 4);
     ascii_of_N (s3 mod 4 * 64 + s4)]%N ++ decodeSextets rest
  | s1 :: s2 :: s3 :: [] =>
    [ascii_of_N (s1 * 4 + s2 / 16); ascii_of_N (s2 mod 16 * 16 + s3 / 4)]%N
  | s1 :: s2 :: [] => [ascii_of_N (s1 * 4 + s2 / 16)]%N
  | _ => []
  end.

(** atob, the forgiving-base64 decode of the HTML standard; [None] is the
    InvalidCharacterError it throws. *)
Definition atob (data : jsstring) : option jsstring :=
  let data := filter (fun c => negb (isAsciiWhitespace c)) data in
  let data := stripPadding data in
  if (length data mod 4 =? 1)%nat then None
  else match sextets data with
       | Some l => Some (decodeSextets l)
       | None => None
       end.

(** Copying a binary string into a Uint8Array with charCodeAt, and back with
    String.fromCharCode. *)
Definition bytesOfBinaryString (s : jsstring) : list byte := map byte_of_ascii s.
Definition binaryStringOfBytes (l : list byte) : jsstring := map ascii_of_byte l.

(** arrayBufferToBase64; the same loop is inline in encryption.ts. *)
Definition arrayBufferToBase64 (buffer : list byte) : jsstring :=
  btoa (binaryStringOfBytes buffer).

(** ** Exceptions, the platform and the monad *)

(** What the code throws or receives from the platform: [new Error(message)],
    or a DOMException identified by its name. *)
Inductive exn : Type :=
| Error (message : string)
| DOMException (name : string).

(** The platform behind crypto.subtle for the algorithm the code always names,
    { name: "AES-GCM", iv } with no additional data. [import_rejection] is
    the verdict of importKey on raw key data: [None] when the key is
    accepted, else the name of the DOMException thrown. Encryption returns
    ciphertext followed by the tag, decryption returns the plaintext or
    rejects. [dom_message] is the message text the platform gives the
    DOMException of each name. *)
Class WebCrypto : Type := {
  import_rejection : list byte -> option string;
  aes_gcm_encrypt : list byte -> list byte -> list byte -> list byte;
  aes_gcm_decrypt : list byte -> list byte -> list byte -> option (list byte);
  dom_message : string -> string
}.

(** The contract of AES-GCM with a 128-bit tag that the round trip needs:
    a raw key of 256 bits is accepted, decryption undoes encryption under
    the same key and nonce, and the tag adds sixteen bytes. *)
Class AesGcmLaws (W : WebCrypto) : Prop := {
  import_256 : forall keyData,
    length keyData = 32 -> import_rejection keyData = None;
  decrypt_encrypt : forall key iv data,
    aes_gcm_decrypt key iv (aes_gcm_encrypt key iv data) = Some data;
  encrypt_length : forall key iv data,
    length (aes_gcm_encrypt key iv data) = length data + 16
}.

(** The calls made on crypto.subtle. *)
Inductive subtle_call : Type :=
| ImportKey (keyData : list byte)
| Encrypt (key iv data : list byte)
| Decrypt (key iv data : list byte).

(** The state threaded through a run: the entropy tape read by
    crypto.getRandomValues with the position reached on it, and the
    crypto.subtle calls made so far, oldest first. *)
Record world : Type := mkWorld {
  tape : nat -> byte;
  cursor : nat;
  calls : list subtle_call
}.

Definition M (A : Type) : Type := world -> (exn + A) * world.

Definition ret {A} (a : A) : M A := fun w => (inr a, w).

Definition bind {A B} (m : M A) (k : A -> M B) : M B :=
  fun w =>
    match m w with
    | (inr a, w') => k a w'
    | (inl e, w') => (inl e, w')
    end.

Definition throw {A} (e : exn) : M A := fun w => (inl e, w).

(** try { m } catch (error) { handler error } *)
Definition try_catch {A} (m : M A) (handler : exn -> M A) : M A :=
  fun w =>
    match m w with
    | (inr a, w') => (inr a, w')
    | (inl e, w') => handler e w'
    end.

Notation "x <- m ;; k" := (bind m (fun x => k))
  (at level 61, m at next level, right associativity).

Definition run {A} (m : M A) (w : world) : (exn + A) * world := m w.

(** The string a run returned, if it returned. *)
Definition returned {A} (r : (exn + A) * world) : option A :=
  match fst r with inr a => Some a | inl _ => None end.

(** The exception a run ended in, if it threw. *)
Definition thrown {A} (r : (exn + A) * world) : option exn :=
  match fst r with inl e => Some e | inr _ => None end.

(** The next [n] bytes of the entropy tape. *)
Definition draw (w : world) (n : nat) : list byte :=
  map (tape w) (seq (cursor w) n).

(** crypto.getRandomValues(new Uint8Array(n)) *)
Definition getRandomValues (n : nat) : M (list byte) :=
  fun w => (inr (draw w n), mkWorld (tape w) (cursor w + n) (calls w)).

Definition record_call (c : subtle_call) : M unit :=
  fun w => (inr tt, mkWorld (tape w) (cursor w) (calls w ++ [c])).

Section Platform.

Context {W : WebCrypto}.

(** [error instanceof Error ? error.message : String(error)]; a DOMException
    is an instance of Error. *)
Definition message_of (e : exn) : string :=
  match e with
  | Error m => m
  | DOMException name => dom_message name
  end.

(** crypto.subtle.importKey("raw", keyData, { name: "AES-GCM", length: 256 },
    false, usages): the platform accepts the raw key data or throws. The
    imported key is its raw bytes. *)
Definition importKey (keyData : list byte) : M (list byte) :=
  _ <- record_call (ImportKey keyData) ;;
  match import_rejection keyData with
  | None => ret keyData
  | Some name => throw (DOMException name)
  end.

(** crypto.subtle.encrypt({ name: "AES-GCM", iv }, cryptoKey, data) *)
Definition subtle_encrypt (cryptoKey iv data : list byte) : M (list byte) :=
  _ <- record_call (Encrypt cryptoKey iv data) ;;
  ret (aes_gcm_encrypt cryptoKey iv data).

(** crypto.subtle.decrypt({ name: "AES-GCM", iv }, cryptoKey, data): a
    rejected input is an OperationError. *)
Definition subtle_decrypt (cryptoKey iv data : list byte) : M (list byte) :=
  _ <- record_call (Decrypt cryptoKey iv data) ;;
  match aes_gcm_decrypt cryptoKey iv data with
  | Some plain => ret plain
  | None => throw (DOMException "OperationError")
  end.

(** atob as called by the code: it throws on input it cannot decode. *)
Definition atob_call (data : jsstring) : M jsstring :=
  match atob data with
  | Some binaryString => ret binaryString
  | None => throw (DOMException "InvalidCharacterError")
  end.

(** ** The file encryption utility *)

(** The values a caller can pass where a string is declared. *)
Inductive js_value : Type :=
| JsUndefined
| JsNull
| JsNumber (z : Z)
| JsString (s : jsstring).

(** base64ToArrayBuffer: an input that is falsy or not a string gives an
    empty buffer; a data-URL prefix is dropped; a failure of atob is rethrown
    as Error("Invalid base64 encoding"). *)
Definition base64ToArrayBuffer (base64 : js_value) : M (list byte) :=
  match base64 with
  | JsString s =>
    if falsy s then ret []
    else
      let base64String :=
        if includes marker s then nth 1 (split marker s) [] else s in
      try_catch
        (binaryString <- atob_call base64String ;;
         ret (bytesOfBinaryString binaryString))
        (fun _ => throw (Error "Invalid base64 encoding"))
  | _ => ret []
  end.

(** generateEncryptionKey, the same in both modules. *)
Definition generateEncryptionKey : M jsstring :=
  key <- getRandomValues 32 ;;
  ret (bufferToHexString key).

Definition defaultPrefix : jsstring := lit "data:application/octet-stream;base64,".

(** encryptData(data, options); [key] is options.key, absent when [None]. *)
Definition encryptData (data : jsstring) (key : option jsstring) : M jsstring :=
  try_catch
    (let '(prefix, base64Data) := splitDataUrl data in
     key <- match key with
            | Some k => if falsy k then generateEncryptionKey else ret k
            | None => generateEncryptionKey
            end ;;
     let keyData := hexStringToBuffer key in
     cryptoKey <- importKey keyData ;;
     iv <- getRandomValues 12 ;;
     dataBuffer <- base64ToArrayBuffer (JsString base64Data) ;;
     encryptedData <- subtle_encrypt cryptoKey iv dataBuffer ;;
     let encryptedArray := iv ++ encryptedData in
     ret (prefix ++ arrayBufferToBase64 encryptedArray))
    (fun error =>
       throw (Error ("Failed to encrypt data: " ++ message_of error)%string)).

(** decryptData(encryptedData, options); [key] is options.key. *)
Definition decryptData (encryptedData : jsstring) (key : jsstring) : M jsstring :=
  try_catch
    (if falsy encryptedData then throw (Error "No encrypted data provided")
     else
       let '(prefix, base64Data) :=
         if includes marker encryptedData then
           let parts := split marker encryptedData in
           (nth 0 parts [] ++ marker, nth 1 parts [])
         else (defaultPrefix, encryptedData) in
       if falsy base64Data || falsy (trim base64Data)
       then throw (Error "Invalid base64 data")
       else
         let keyData := hexStringToBuffer key in
         cryptoKey <- importKey keyData ;;
         encryptedArray <- base64ToArrayBuffer (JsString base64Data) ;;
         if length encryptedArray <=? 12
         then throw (Error "Encrypted data is too short")
         else
           let iv := firstn 12 encryptedArray in
           let encryptedContent := skipn 12 encryptedArray in
           decryptedData <- subtle_decrypt cryptoKey iv encryptedContent ;;
           ret (prefix ++ arrayBufferToBase64 decryptedData))
    (fun error =>
       throw (Error ("Failed to decrypt data. The key may be incorrect: "
                     ++ message_of error)%string)).

(** ** src/utils/encryption.ts *)

Definition encryptImage (imageData : jsstring) (key : jsstring) : M jsstring :=
  try_catch
    (let '(prefix, base64Data) := splitDataUrl imageData in
     let keyData := keyDataOfImageKey key in
     cryptoKey <- importKey keyData ;;
     iv <- getRandomValues 12 ;;
     binaryString <- atob_call base64Data ;;
     let bytes := bytesOfBinaryString binaryString in
     encryptedData <- subtle_encrypt cryptoKey iv bytes ;;
     let encryptedArray := iv ++ encryptedData in
     let base64 := btoa (binaryStringOfBytes encryptedArray) in
     ret (prefix ++ base64))
    (fun error =>
       throw (Error ("Failed to encrypt image: " ++ message_of error)%string)).

Definition decryptImage (encryptedData : jsstring) (key : jsstring) : M jsstring :=
  try_catch
    (if falsy encryptedData then throw (Error "No encrypted data provided")
     else
       let '(prefix, base64Data) := splitDataUrl encryptedData in
       if falsy base64Data || falsy (trim base64Data)
       then throw (Error "Invalid base64 data")
       else
         let keyData := keyDataOfImageKey key in
         cryptoKey <- importKey keyData ;;
         binaryString <- atob_call base64Data ;;
         let bytes := bytesOfBinaryString binaryString in
         if length bytes <=? 12
         then throw (Error "Encrypted data is too short")
         else
           let iv := firstn 12 bytes in
           let encryptedContent := skipn 12 bytes in
           decryptedData <- subtle_decrypt cryptoKey iv encryptedContent ;;
           let base64 := btoa (binaryStringOfBytes decryptedData) in
           ret (prefix ++ base64))
    (fun error =>
       throw (Error ("Failed to decrypt image: " ++ message_of error)%string)).

(** ** What the primitive says of a frame

    The first twelve bytes of a frame are the nonce, the rest is ciphertext
    and tag. *)
Definition openFrame (keyData frame : list byte) : option (list byte) :=
  aes_gcm_decrypt keyData (firstn 12 frame) (skipn 12 frame).

End Platform.

(** ** Vocabulary of the statements *)

(** The code units btoa produces: digits of the alphabet and "=". *)
Definition base64Unit (c : ascii) : bool :=
  match base64Value c with Some _ => true | None => Ascii.eqb c "=" end.

(** A lower-case hexadecimal digit, as the key transport format has them. *)
Definition isLowerHexDigit (c : ascii) : bool :=
  let n := N_of_ascii c in
  ((48 <=? n) && (n <=? 57) || (97 <=? n) && (n <=? 102))%N.

(** The errors the four entry points rethrow from their catch blocks. *)
Definition encrypt_data_failure (m : string) : exn :=
  Error ("Failed to encrypt data: " ++ m)%string.

Definition decrypt_data_failure (m : string) : exn :=
  Error ("Failed to decrypt data. The key may be incorrect: " ++ m)%string.

Definition encrypt_image_failure (m : string) : exn :=
  Error ("Failed to encrypt image: " ++ m)%string.

Definition decrypt_image_failure (m : string) : exn :=
  Error ("Failed to decrypt image: " ++ m)%string.

(** The world after further crypto.subtle calls. *)
Definition after_calls (w : world) (cs : list subtle_call) : world :=
  mkWorld (tape w) (cursor w) (calls w ++ cs).

(** The world after [n] more bytes of entropy were read. *)
Definition after_draw (w : world) (n : nat) : world :=
  mkWorld (tape w) (cursor w + n) (calls w).

(** The part of an input taken as payload, and the prefix decryptData puts
    before its result. *)
Definition payloadOf (data : jsstring) : jsstring := snd (splitDataUrl data).

Definition dataPrefixOf (data : jsstring) : jsstring :=
  if includes marker data then fst (splitDataUrl data) else defaultPrefix.

(** The test of the decryptors: base64Data is falsy, or empty once trimmed. *)
Definition blank (s : jsstring) : bool := falsy s || falsy (trim s).

(** A plaintext or ciphertext input: a bare base64 payload, or the payload
    behind a data-URL head such as "data:image/png;" and the marker. *)
Definition dataUrl (head : option jsstring) (payload : jsstring) : jsstring :=
  match head with
  | Some p => p ++ marker ++ payload
  | None => payload
  end.

(** The same with the default prefix supplied when there is no head. *)
Definition normalizedUrl (head : option jsstring) (payload : jsstring) : jsstring :=
  match head with
  | Some p => p ++ marker ++ payload
  | None => defaultPrefix ++ payload
  end.

(** A head is any text that does not itself contain the marker. *)
Definition headOk (head : option jsstring) : Prop :=
  match head with
  | Some p => includes marker p = false
  | None => True
  end.




(** ** A small platform to run the model on concrete inputs

    The cipher below is not AES-GCM and protects nothing: the ciphertext is
    the plaintext reversed, followed by sixteen copies of a one-byte
    checksum of key, iv and plaintext. It satisfies [AesGcmLaws] and lets
    the entry points be evaluated. *)

Definition xor_byte (a b : byte) : byte :=
  match Byte.of_N (N.lxor (Byte.to_N a) (Byte.to_N b)) with
  | Some c => c
  | None => x00
  end.

Definition checksum (l : list byte) : byte := fold_right xor_byte x00 l.

Fixpoint bytes_eqb (l1 l2 : list byte) : bool :=
  match l1, l2 with
  | [], [] => true
  | a :: l1', b :: l2' => Byte.eqb a b && bytes_eqb l1' l2'
  | _, _ => false
  end.

Definition demo_tag (key iv data : list byte) : list byte :=
  repeat (checksum (key ++ iv ++ data)) 16.

Definition demo_encrypt (key iv data : list byte) : list byte :=
  rev data ++ demo_tag key iv data.

Definition demo_decrypt (key iv input : list byte) : option (list byte) :=
  if length input <? 16 then None
  else
    let n := length input - 16 in
    let data := rev (firstn n input) in
    if bytes_eqb (skipn n input) (demo_tag key iv data) then Some data
    else None.

(** The rule of the Web Cryptography standard for raw AES key data: 128, 192
    or 256 bits, anything else is a DataError. *)
Definition demo_import (keyData : list byte) : option string :=
  let bits := 8 * length keyData in
  if (bits =? 128) || (bits =? 192) || (bits =? 256) then None
  else Some "DataError"%string.

Definition demo_platform : WebCrypto :=
  {| import_rejection := demo_import;
     aes_gcm_encrypt := demo_encrypt;
     aes_gcm_decrypt := demo_decrypt;
     dom_message := fun name => name |}.

(** An entropy tape that counts upwards, and the world a run starts in. *)
Definition demo_tape (n : nat) : byte :=
  match Byte.of_nat (n mod 256) with
  | Some b => b
  | None => x00
  end.

Definition demo_world : world := mkWorld demo_tape 0 [].

(** The key generateEncryptionKey returns in [demo_world]. *)
Definition demo_key : jsstring :=
  lit "000102030405060708090a0b0c0d0e0f101112131415161718191a1b1c1d1e1f".

(** ** The file layer of the file encryption utility

    getMimeTypeFromDataUrl, fileToDataUrl, dataUrlToBlob, encryptFile,
    decryptFile, createFileFromDecryptedData, encryptFileWithKey and
    decryptFileWithKey. FileReader and fetch are an interface, [FileApi];
    Blob and File are records of what the code reads from them. *)

(** A Blob is its media type and its bytes; a File is a Blob with a name. *)
Record Blob : Type := mkBlob {
  blob_type : jsstring;
  blob_bytes : list byte
}.

Record File : Type := mkFile {
  file_name : jsstring;
  file_type : jsstring;
  file_bytes : list byte
}.

(** A File used where a Blob is expected. *)
Definition blobOfFile (file : File) : Blob :=
  mkBlob (file_type file) (file_bytes file).

(** ASCII lowercase of a code unit. *)
Definition asciiLower (c : ascii) : ascii :=
  let n := N_of_ascii c in
  if ((65 <=? n) && (n <=? 90))%N then ascii_of_N (n + 32) else c.

(** The type a Blob or File constructor stores for options.type: the empty
    string when a code unit lies outside U+0020..U+007E, else the ASCII
    lowercase of the text. *)
Definition normalizeType (t : jsstring) : jsstring :=
  if forallb (fun c => let n := N_of_ascii c in ((32 <=? n) && (n <=? 126))%N) t
  then map asciiLower t
  else [].

(** new File([blob], name, { type }) *)
Definition newFile (blob : Blob) (name type : jsstring) : File :=
  mkFile name (normalizeType type) (blob_bytes blob).

(** String.prototype.replace with a string pattern and a replacement text
    that has no "$": the first occurrence is replaced. *)
Fixpoint replace (searchValue replaceValue s : jsstring) : jsstring :=
  if startsWith searchValue s
  then replaceValue ++ skipn (length searchValue) s
  else match s with
       | [] => []
       | c :: s' => c :: replace searchValue replaceValue s'
       end.

(** /data:([^;]+);/ tried at the start of [s]: the text of the capture group
    when the expression matches there. The group takes every code unit up to
    the first ";" and needs at least one; without a ";" there is no match. *)
Definition match_mime_here (s : jsstring) : option jsstring :=
  if startsWith (lit "data:") s then
    let rest := skipn 5 s in
    let notSemicolon := fun c => negb (Ascii.eqb c ";") in
    match takeWhile notSemicolon rest, dropWhile notSemicolon rest with
    | c :: m, _ :: _ => Some (c :: m)
    | _, _ => None
    end
  else None.

(** Group 1 of [s.match(/data:([^;]+);/)]: the leftmost position where the
    expression matches; [None] when match returns null. *)
Fixpoint match_mime (s : jsstring) : option jsstring :=
  match match_mime_here s with
  | Some m => Some m
  | None =>
    match s with
    | [] => None
    | _ :: s' => match_mime s'
    end
  end.

Definition defaultMimeType : jsstring := lit "application/octet-stream".

(** getMimeTypeFromDataUrl *)
Definition getMimeTypeFromDataUrl (dataUrl : js_value) : jsstring :=
  match dataUrl with
  | JsString s =>
    if falsy s || negb (startsWith (lit "data:") s) then defaultMimeType
    else match match_mime s with
         | Some m => m
         | None => defaultMimeType
         end
  | _ => defaultMimeType
  end.

(** The platform behind FileReader.readAsDataURL and behind fetch followed by
    Response.blob. [readAsDataURL] is the text the reader ends with, [None]
    when it reports an error; [fetch_blob] is the Blob of the response, or
    the message of the TypeError fetch rejects with. *)
Class FileApi : Type := {
  readAsDataURL : Blob -> option jsstring;
  fetch_blob : jsstring -> string + Blob
}.

(** A media type the way a browser reports it for a file and writes it into
    a data URL: a type, "/" and a subtype, both non-empty texts of lower-case
    letters, digits, "+", "-" and ".". *)
Definition isTokenChar (c : ascii) : bool :=
  let n := N_of_ascii c in
  ((97 <=? n) && (n <=? 122) || (48 <=? n) && (n <=? 57)
   || (n =? 43) || (n =? 45) || (n =? 46))%N.

Definition plainType (t : jsstring) : bool :=
  match takeWhile isTokenChar t, dropWhile isTokenChar t with
  | _ :: _, slash :: (_ :: _) as subtype =>
    Ascii.eqb slash "/" && forallb isTokenChar subtype
  | _, _ => false
  end.

(** What the file layer needs of the platform to take a file through
    encryption and back: the reader writes a Blob of a plain type as
    "data:", the type, ";base64," and the base64 text of the bytes, and
    fetch reads such a URL back into a Blob of that type and those bytes. *)
Class DataUrlLaws (F : FileApi) : Prop := {
  read_data_url : forall blob,
    plainType (blob_type blob) = true ->
    readAsDataURL blob =
    Some (lit "data:" ++ blob_type blob ++ lit ";" ++ marker
          ++ arrayBufferToBase64 (blob_bytes blob));
  fetch_data_url : forall type bytes,
    plainType type = true ->
    fetch_blob (lit "data:" ++ type ++ lit ";" ++ marker
                ++ arrayBufferToBase64 bytes)
    = inr (mkBlob type bytes)
}.

(** What encryptFile and decryptFile resolve to. *)
Record EncryptionResult : Type := mkEncryptionResult {
  result_encryptedData : jsstring;
  result_key : jsstring;
  result_mimeType : jsstring
}.

Record DecryptionResult : Type := mkDecryptionResult {
  result_decryptedData : jsstring;
  result_decryptedMimeType : jsstring
}.

Section Files.

Context {W : WebCrypto} {F : FileApi}.

(** fileToDataUrl: the promise resolves with reader.result, or is rejected
    with the ProgressEvent of the reader's error. That event is not an Error;
    it is carried as the Error whose message is String(event), which is all
    the catch blocks of the callers read from it. *)
Definition fileToDataUrl (file : File) : M jsstring :=
  match readAsDataURL (blobOfFile file) with
  | Some result => ret result
  | None => throw (Error "[object ProgressEvent]")
  end.

(** dataUrlToBlob *)
Definition dataUrlToBlob (dataUrl : jsstring) : M Blob :=
  match fetch_blob dataUrl with
  | inr blob => ret blob
  | inl message => throw (Error message)
  end.

(** encryptFile(file, options); [key] is options.key, absent when [None]. *)
Definition encryptFile (file : File) (key : option jsstring) : M EncryptionResult :=
  try_catch
    (dataUrl <- fileToDataUrl file ;;
     key <- match key with
            | Some k => if falsy k then generateEncryptionKey else ret k
            | None => generateEncryptionKey
            end ;;
     encryptedData <- encryptData dataUrl (Some key) ;;
     ret (mkEncryptionResult encryptedData key (file_type file)))
    (fun error =>
       throw (Error ("Failed to encrypt file: " ++ message_of error)%string)).

(** decryptFile(encryptedBlob, options); [key] is options.key. *)
Definition decryptFile (encryptedBlob : Blob) (key : jsstring) : M DecryptionResult :=
  try_catch
    (dataUrl <- fileToDataUrl
                  (newFile encryptedBlob (lit "encrypted") (blob_type encryptedBlob)) ;;
     decryptedData <- decryptData dataUrl key ;;
     let mimeType := getMimeTypeFromDataUrl (JsString decryptedData) in
     ret (mkDecryptionResult decryptedData mimeType))
    (fun error =>
       throw (Error ("Failed to decrypt file: " ++ message_of error)%string)).

(** createFileFromDecryptedData *)
Definition createFileFromDecryptedData (decryptedData fileName : jsstring) : M File :=
  blob <- dataUrlToBlob decryptedData ;;
  ret (newFile blob fileName (blob_type blob)).

(** encryptFileWithKey: the encrypted file and the key. *)
Definition encryptFileWithKey (file : File) : M (File * jsstring) :=
  r <- encryptFile file None ;;
  let '(mkEncryptionResult encryptedData key mimeType) := r in
  blob <- dataUrlToBlob encryptedData ;;
  let encryptedFile := newFile blob (lit "encrypted-" ++ file_name file) mimeType in
  ret (encryptedFile, key).

(** decryptFileWithKey(encryptedFile, key, fileName); the optional fileName
    is absent when [None]. *)
Definition decryptFileWithKey (encryptedFile : File) (key : jsstring)
    (fileName : option jsstring) : M File :=
  r <- decryptFile (blobOfFile encryptedFile) key ;;
  let '(mkDecryptionResult decryptedData mimeType) := r in
  let generated :=
    lit "decrypted-" ++ replace (lit "encrypted-") [] (file_name encryptedFile) in
  let outputFileName :=
    match fileName with
    | Some n => if falsy n then generated else n
    | None => generated
    end in
  blob <- dataUrlToBlob decryptedData ;;
  ret (newFile blob outputFileName mimeType).

End Files.

(** ** The callers: uploader and viewers *)

(** The key stored with an upload by handleSubmit of
    src/components/image-uploader.tsx:
      const imageType = image.type || "image/png"
      key = `${imageType}|${key}` *)
Definition taggedKey (imageType key : jsstring) : jsstring :=
  let imageType := if falsy imageType then lit "image/png" else imageType in
  imageType ++ lit "|" ++ key.

Section Uploader.

Context {W : WebCrypto}.

(** The encryption step of handleSubmit: a key is generated, the preview is
    encrypted under it, and the encrypted data goes to the upload together
    with the tagged key. The handler catches a failure of this step, reports
    it and stops; the run then ends in that failure. *)
Definition encryptForUpload (imagePreview imageType : jsstring)
    : M (jsstring * jsstring) :=
  key <- generateEncryptionKey ;;
  finalImageData <- encryptImage imagePreview key ;;
  ret (finalImageData, taggedKey imageType key).

End Uploader.

(** extractEncryptionKey of src/components/image-viewer.tsx *)
Module ImageViewer.

Definition extractEncryptionKey (fullKey : jsstring) : jsstring :=
  if includes (lit "|") fullKey then nth 1 (split (lit "|") fullKey) []
  else fullKey.

End ImageViewer.

(** extractEncryptionKey of the NillionImageViewer component, with its test
    that the value is a non-empty string. Nothing in its try block throws,
    so the catch block that returns the empty string is never entered. *)
Module NillionImageViewer.

Definition extractEncryptionKey (fullKey : js_value) : js_value :=
  match fullKey with
  | JsString s =>
    if negb (falsy s) && includes (lit "|") s
    then JsString (nth 1 (split (lit "|") s) [])
    else fullKey
  | _ => fullKey
  end.

End NillionImageViewer.

(** ** A small File platform to run the file layer on concrete inputs

    The reader writes "data:", the type (application/octet-stream when the
    Blob has none), ";base64," and the base64 text of the bytes. fetch
    accepts such a URL and nothing else. *)

Definition demo_readAsDataURL (blob : Blob) : option jsstring :=
  let type := if falsy (blob_type blob) then defaultMimeType else blob_type blob in
  Some (lit "data:" ++ type ++ lit ";" ++ marker ++ arrayBufferToBase64 (blob_bytes blob)).

Definition demo_fetch_blob (url : jsstring) : string + Blob :=
  if startsWith (lit "data:") url && includes marker url then
    let parts := split marker url in
    match atob (nth 1 parts []) with
    | Some binaryString =>
      inr (mkBlob (removelast (skipn 5 (nth 0 parts [])))
                  (bytesOfBinaryString binaryString))
    | None => inl "Failed to fetch"%string
    end
  else inl "Failed to fetch"%string.

Definition demo_files : FileApi :=
  {| readAsDataURL := demo_readAsDataURL; fetch_blob := demo_fetch_blob |}.
(** ** The built-ins on examples *)

Example split_examples :
  split marker (lit "data:image/png;base64,AAAA") = [lit "data:image/png;"; lit "AAAA"] /\
  split marker (lit "AAAA") = [lit "AAAA"] /\
  split marker (lit "abase64,") = [lit "a"; []] /\
  split marker (lit "abase64,bbase64,c") = [lit "a"; lit "b"; lit "c"] /\
  split marker [] = [[]].
Proof. repeat split. Qed.

Example includes_examples :
  includes marker (lit "data:image/png;base64,AAAA") = true /\
  includes marker (lit "base64") = false /\
  includes marker [] = false.
Proof. repeat split. Qed.

Example trim_examples :
  trim (lit "  a b ") = lit "a b" /\ trim (lit "   ") = [] /\ trim [] = [].
Proof. repeat split. Qed.

Example match_examples :
  match_hex_pairs (lit "0aFF") = [lit "0a"; lit "FF"] /\
  match_hex_pairs (lit "zab1") = [lit "ab"] /\
  match_hex_pairs (lit "a-b") = [] /\
  match_any_1_2 (lit "abc") = [lit "ab"; lit "c"] /\
  match_any_1_2 [] = [].
Proof. repeat split. Qed.

Example parseInt16_examples :
  parseInt16 (lit "ff") = Some 255%Z /\
  parseInt16 (lit "1g") = Some 1%Z /\
  parseInt16 (lit " 7") = Some 7%Z /\
  parseInt16 (lit "-1") = Some (-1)%Z /\
  parseInt16 (lit "0x") = None /\
  parseInt16 (lit "zz") = None.
Proof. repeat split. Qed.

Example toUint8_examples :
  toUint8 (Some 255%Z) = xff /\ toUint8 (Some (-1)%Z) = xff /\
  toUint8 (Some 256%Z) = x00 /\ toUint8 None = x00.
Proof. repeat split. Qed.

Example bufferToHexString_example :
  bufferToHexString [x00; xff; x1a] = lit "00ff1a".
Proof. reflexivity. Qed.

Example btoa_examples :
  btoa (lit "Man") = lit "TWFu" /\ btoa (lit "Ma") = lit "TWE=" /\
  btoa (lit "M") = lit "TQ==" /\ btoa (lit "hello") = lit "aGVsbG8=" /\
  btoa [] = [].
Proof. repeat split. Qed.

Example atob_examples :
  atob (lit "aGVsbG8=") = Some (lit "hello") /\
  atob (lit "aGVsbG8") = Some (lit "hello") /\
  atob (lit "aGVs bG8=") = Some (lit "hello") /\
  atob (lit "TQ==") = Some (lit "M") /\
  atob (lit "TR==") = Some (lit "M") /\
  atob [] = Some [] /\
  atob (lit "A") = None /\
  atob (lit "====") = None /\
  atob (lit "aGVs,G8=") = None.
Proof. repeat split. Qed.

Ltac Zify.zify_post_hook ::= Z.to_euclidean_division_equations.

(** ** Facts about includes and split *)

Lemma startsWith_app (sep r : jsstring) : startsWith sep (sep ++ r) = true.
Proof.
  induction sep as [|a sep IH]; simpl; [reflexivity|].
  now rewrite Ascii.eqb_refl, IH.
Qed.

Lemma startsWith_inv (sep s : jsstring) :
  startsWith sep s = true -> exists r, s = sep ++ r.
Proof.
  revert s; induction sep as [|a sep IH]; intros s H.
  - now exists s.
  - destruct s as [|b s]; simpl in H; [discriminate|].
    apply andb_true_iff in H as [Hab Hs].
    apply Ascii.eqb_eq in Hab; subst b.
    destruct (IH _ Hs) as [r ->]. now exists r.
Qed.

Lemma startsWith_mono (sep x y : jsstring) :
  startsWith sep x = true -> startsWith sep (x ++ y) = true.
Proof.
  intros H. destruct (startsWith_inv _ _ H) as [r ->].
  rewrite <- app_assoc. apply startsWith_app.
Qed.

Lemma includes_cons (sep : jsstring) (c : ascii) (s : jsstring) :
  includes sep (c :: s) = startsWith sep (c :: s) || includes sep s.
Proof. reflexivity. Qed.

Lemma includes_app_r (sep p r : jsstring) :
  includes sep r = true -> includes sep (p ++ r) = true.
Proof.
  intros H; induction p as [|c p IH]; [exact H|].
  simpl app. rewrite includes_cons, IH. apply orb_true_r.
Qed.

Lemma includes_inv (sep s : jsstring) :
  includes sep s = true -> exists p r, s = p ++ sep ++ r.
Proof.
  induction s as [|c s IH]; intros H.
  - simpl in H. rewrite orb_false_r in H.
    destruct (startsWith_inv _ _ H) as [r Hr]. now exists [], r.
  - rewrite includes_cons in H. apply orb_true_iff in H as [H|H].
    + destruct (startsWith_inv _ _ H) as [r Hr]. now exists [], r.
    + destruct (IH H) as (p & r & ->). now exists (c :: p), r.
Qed.

(** A string without a comma does not contain the marker. *)
Lemma includes_marker_comma (s : jsstring) :
  ~ In ","%char s -> includes marker s = false.
Proof.
  intros Hn. destruct (includes marker s) eqn:E; [|reflexivity].
  exfalso; apply Hn. destruct (includes_inv _ _ E) as (p & r & ->).
  apply in_or_app; right. apply in_or_app; left.
  unfold marker, lit; simpl; tauto.
Qed.

Lemma split_scan_nonempty (sep : jsstring) (k : nat) (s : jsstring) :
  split_scan sep k s <> [].
Proof.
  revert k; induction s as [|c s IH]; intros k; simpl; [discriminate|].
  destruct k; [|apply IH].
  destruct (startsWith sep (c :: s)); [discriminate|].
  destruct (split_scan sep 0 s); discriminate.
Qed.

Lemma split_scan_skip (sep x r : jsstring) :
  split_scan sep (length x) (x ++ r) = split_scan sep 0 r.
Proof. induction x as [|c x IH]; simpl; [reflexivity|exact IH]. Qed.

(** At a position where the separator matches, split closes the current
    segment and resumes after the separator. *)
Lemma split_at_match (sep r : jsstring) :
  sep <> [] -> split sep (sep ++ r) = [] :: split sep r.
Proof.
  intros Hne. destruct sep as [|a sep]; [congruence|].
  unfold split. change ((a :: sep) ++ r) with (a :: (sep ++ r)).
  cbn [split_scan].
  change (a :: sep ++ r) with ((a :: sep) ++ r).
  rewrite startsWith_app.
  cbn [length]. rewrite Nat.sub_succ, Nat.sub_0_r.
  now rewrite split_scan_skip.
Qed.

Lemma split_no_match (sep : jsstring) (c : ascii) (s : jsstring) :
  startsWith sep (c :: s) = false ->
  split sep (c :: s) =
  (c :: hd [] (split sep s)) :: tl (split sep s).
Proof.
  intros H. unfold split. cbn [split_scan]. rewrite H.
  destruct (split_scan sep 0 s) eqn:E; [|reflexivity].
  now apply split_scan_nonempty in E.
Qed.

Lemma split_not_included (sep s : jsstring) :
  includes sep s = false -> split sep s = [s].
Proof.
  induction s as [|c s IH]; intros H; [reflexivity|].
  rewrite includes_cons in H. apply orb_false_iff in H as [H1 H2].
  rewrite (split_no_match _ _ _ H1), (IH H2). reflexivity.
Qed.

(** The scan stops at the first occurrence of the separator: the text before
    it is the first segment, and the scan starts afresh after it. *)
Lemma split_first_occurrence (sep s : jsstring) :
  sep <> [] -> includes sep s = true ->
  exists p r, s = p ++ sep ++ r /\ includes sep p = false /\
              split sep s = p :: split sep r.
Proof.
  intros Hne. induction s as [|c s IH]; intros H.
  - simpl in H. rewrite orb_false_r in H.
    destruct sep; [congruence|discriminate].
  - destruct (startsWith sep (c :: s)) eqn:E.
    + destruct (startsWith_inv _ _ E) as [r Hr].
      exists [], r. rewrite Hr. repeat split.
      * destruct sep; [congruence|reflexivity].
      * now apply split_at_match.
    + rewrite includes_cons, E in H. simpl in H.
      destruct (IH H) as (p & r & Hs & Hp & Hsplit).
      exists (c :: p), r. repeat split.
      * now rewrite Hs.
      * rewrite includes_cons, Hp, orb_false_r.
        destruct (startsWith sep (c :: p)) eqn:E'; [|reflexivity].
        apply (startsWith_mono _ _ (sep ++ r)) in E'.
        simpl app in E'. rewrite <- Hs in E'. congruence.
      * rewrite (split_no_match _ _ _ E), Hsplit. reflexivity.
Qed.

(** The first segment of a split never contains the separator, and it is the
    whole string when the separator does not occur. *)
Lemma split_head (sep s : jsstring) :
  sep <> [] ->
  includes sep (hd [] (split sep s)) = false /\
  (includes sep s = false -> hd [] (split sep s) = s) /\
  (includes sep s = true ->
   exists r, s = hd [] (split sep s) ++ sep ++ r).
Proof.
  intros Hne. destruct (includes sep s) eqn:E.
  - destruct (split_first_occurrence _ _ Hne E) as (p & r & Hs & Hp & Hsplit).
    rewrite Hsplit; simpl. repeat split; [exact Hp|discriminate|].
    intros _. now exists r.
  - rewrite (split_not_included _ _ E); simpl. repeat split; auto.
    discriminate.
Qed.

Lemma marker_nonempty : marker <> [].
Proof. discriminate. Qed.

(** An occurrence of the marker cannot begin inside a marker-free text and end
    inside a marker that follows it. *)
Lemma marker_no_straddle (p r : jsstring) :
  p <> [] -> includes marker p = false ->
  startsWith marker (p ++ marker ++ r) = false.
Proof.
  intros Hne H.
  destruct p as [|c1 p]; [congruence|].
  rewrite includes_cons in H. apply orb_false_iff in H as [H _].
  revert H. unfold marker, lit. simpl.
  repeat match goal with
  | |- context [Ascii.eqb ?a ?b] =>
      destruct (Ascii.eqb a b); simpl; try reflexivity
  | |- context [match ?l with [] => _ | _ :: _ => _ end] =>
      destruct l; simpl; try reflexivity
  | |- context [startsWith _ (?l ++ _)] =>
      destruct l; simpl; try reflexivity
  end; try discriminate; auto.
Qed.

Lemma split_build (p r : jsstring) :
  includes marker p = false ->
  split marker (p ++ marker ++ r) = p :: split marker r.
Proof.
  induction p as [|c p IH]; intros H.
  - rewrite app_nil_l. apply split_at_match, marker_nonempty.
  - assert (Hs : startsWith marker ((c :: p) ++ marker ++ r) = false)
      by (apply marker_no_straddle; [discriminate|exact H]).
    rewrite includes_cons in H. apply orb_false_iff in H as [_ H].
    simpl app in *. rewrite (split_no_match _ _ _ Hs), (IH H). reflexivity.
Qed.

Lemma includes_build (p r : jsstring) : includes marker (p ++ marker ++ r) = true.
Proof.
  apply includes_app_r. destruct (marker ++ r) eqn:E.
  - discriminate.
  - rewrite includes_cons, <- E, startsWith_app. reflexivity.
Qed.

(** What splitDataUrl returns on a string assembled from a marker-free text,
    the marker and a marker-free payload. *)
Lemma splitDataUrl_build (p b : jsstring) :
  includes marker p = false -> includes marker b = false ->
  splitDataUrl (p ++ marker ++ b) = (p ++ marker, b).
Proof.
  intros Hp Hb. unfold splitDataUrl.
  rewrite includes_build, (split_build _ _ Hp), (split_not_included _ _ Hb).
  reflexivity.
Qed.

Lemma splitDataUrl_plain (data : jsstring) :
  includes marker data = false -> splitDataUrl data = ([], data).
Proof. intros H. unfold splitDataUrl. now rewrite H. Qed.

(** What splitDataUrl returns when the marker occurs: the text through the
    first occurrence, and the first segment of what follows it. *)
Lemma splitDataUrl_marker (data : jsstring) :
  includes marker data = true ->
  exists p r, data = p ++ marker ++ r /\ includes marker p = false /\
              splitDataUrl data = (p ++ marker, hd [] (split marker r)).
Proof.
  intros H.
  destruct (split_first_occurrence _ _ marker_nonempty H)
    as (p & r & Hd & Hp & Hs).
  exists p, r. repeat split; trivial.
  unfold splitDataUrl. rewrite H, Hs. simpl.
  now destruct (split marker r).
Qed.

(** The payload part never contains the marker. *)
Lemma payload_no_marker (data : jsstring) :
  includes marker (snd (splitDataUrl data)) = false.
Proof.
  destruct (includes marker data) eqn:E.
  - destruct (splitDataUrl_marker _ E) as (p & r & _ & _ & ->). simpl.
    apply split_head, marker_nonempty.
  - now rewrite (splitDataUrl_plain _ E).
Qed.

(** ** Facts about btoa and atob *)

Lemma below_64 (P : N -> Prop) :
  (forall i, (i < 64)%nat -> P (N.of_nat i)) -> forall n, (n < 64)%N -> P n.
Proof.
  intros H n Hn. rewrite <- (N2Nat.id n). apply H. lia.
Qed.

Lemma base64Value_Char (n : N) :
  (n < 64)%N -> base64Value (base64Char n) = Some n.
Proof.
  revert n. apply below_64. intros i Hi.
  do 64 (destruct i as [|i]; [reflexivity|]). lia.
Qed.


Lemma base64Unit_Char (n : N) : (n < 64)%N -> base64Unit (base64Char n) = true.
Proof. intros H. unfold base64Unit. now rewrite base64Value_Char. Qed.

Lemma base64Unit_facts (c : ascii) :
  base64Unit c = true -> isAsciiWhitespace c = false /\ c <> ","%char.
Proof.
  destruct c as [[] [] [] [] [] [] [] []]; vm_compute; intros H;
    (discriminate H || (split; [reflexivity|discriminate])).
Qed.

Lemma base64Value_not_pad (c : ascii) (v : N) :
  base64Value c = Some v -> Ascii.eqb c "=" = false.
Proof.
  destruct c as [[] [] [] [] [] [] [] []]; vm_compute; intros H;
    (discriminate H || reflexivity).
Qed.

(** Induction over a list three elements at a time, as btoa consumes it. *)
Lemma list_ind3 {A} (P : list A -> Prop) :
  P [] -> (forall a, P [a]) -> (forall a b, P [a; b]) ->
  (forall a b c rest, P rest -> P (a :: b :: c :: rest)) ->
  forall l, P l.
Proof.
  intros H0 H1 H2 H3.
  refine (fix F l :=
            match l with
            | [] => H0
            | [a] => H1 a
            | [a; b] => H2 a b
            | a :: b :: c :: rest => H3 a b c rest (F rest)
            end).
Qed.

Lemma btoa_units (s : jsstring) : Forall (fun c => base64Unit c = true) (btoa s).
Proof.
  assert (B : forall a, (N_of_ascii a < 256)%N) by apply N_ascii_bounded.
  induction s as [|a|a b|a b c rest IH] using list_ind3; cbn [btoa].
  - constructor.
  - pose proof (B a).
    repeat constructor; try apply base64Unit_Char; lia.
  - pose proof (B a); pose proof (B b).
    repeat constructor; try apply base64Unit_Char; lia.
  - pose proof (B a); pose proof (B b); pose proof (B c).
    cbn [app].
    repeat (apply Forall_cons); try apply base64Unit_Char; try lia.
    exact IH.
Qed.

Lemma filter_units (s : jsstring) :
  Forall (fun c => base64Unit c = true) s ->
  filter (fun c => negb (isAsciiWhitespace c)) s = s.
Proof.
  induction 1 as [|c s Hc _ IH]; simpl; [reflexivity|].
  destruct (base64Unit_facts _ Hc) as [-> _]. simpl. now rewrite IH.
Qed.

(** Padding is looked for at the end only: a leading group of four digits is
    left alone. *)
Lemma stripPadding_group_rev (c1 c2 c3 c4 : ascii) (u : jsstring) :
  Ascii.eqb c4 "=" = false ->
  stripPadding (c1 :: c2 :: c3 :: c4 :: rev u) =
  c1 :: c2 :: c3 :: c4 :: stripPadding (rev u).
Proof.
  intros H4. unfold stripPadding.
  replace (length (c1 :: c2 :: c3 :: c4 :: rev u)) with (length (rev u) + 1 * 4)
    by (simpl; lia).
  rewrite Nat.Div0.mod_add.
  destruct (length (rev u) mod 4 =? 0) eqn:E; [|reflexivity].
  replace (rev (c1 :: c2 :: c3 :: c4 :: rev u)) with (u ++ [c4; c3; c2; c1])
    by (simpl; now rewrite rev_involutive, <- !app_assoc).
  rewrite rev_involutive.
  destruct u as [|x [|y r]].
  - simpl. now rewrite H4.
  - simpl in E. discriminate.
  - cbn [app].
    destruct (Ascii.eqb x "="); [destruct (Ascii.eqb y "=")|];
      try reflexivity.
    + rewrite rev_app_distr. reflexivity.
    + change (y :: r ++ [c4; c3; c2; c1]) with ((y :: r) ++ [c4; c3; c2; c1]).
      rewrite rev_app_distr. reflexivity.
Qed.

Lemma stripPadding_group (c1 c2 c3 c4 : ascii) (t : jsstring) :
  Ascii.eqb c4 "=" = false ->
  stripPadding (c1 :: c2 :: c3 :: c4 :: t) = c1 :: c2 :: c3 :: c4 :: stripPadding t.
Proof.
  intros H4. rewrite <- (rev_involutive t). now apply stripPadding_group_rev.
Qed.

Lemma atob_group (c1 c2 c3 c4 : ascii) (v1 v2 v3 v4 : N) (t : jsstring) :
  base64Value c1 = Some v1 -> base64Value c2 = Some v2 ->
  base64Value c3 = Some v3 -> base64Value c4 = Some v4 ->
  Forall (fun c => base64Unit c = true) t ->
  atob (c1 :: c2 :: c3 :: c4 :: t) =
  match atob t with
  | Some r => Some (decodeSextets [v1; v2; v3; v4] ++ r)
  | None => None
  end.
Proof.
  intros H1 H2 H3 H4 Ht.
  assert (Hall : Forall (fun c => base64Unit c = true) (c1 :: c2 :: c3 :: c4 :: t)).
  { repeat constructor; trivial; unfold base64Unit;
      now rewrite ?H1, ?H2, ?H3, ?H4. }
  unfold atob. rewrite (filter_units _ Hall), (filter_units _ Ht).
  rewrite (stripPadding_group _ _ _ _ _ (base64Value_not_pad _ _ H4)).
  replace (length (c1 :: c2 :: c3 :: c4 :: stripPadding t))
    with (length (stripPadding t) + 1 * 4) by (simpl; lia).
  rewrite Nat.Div0.mod_add.
  destruct (length (stripPadding t) mod 4 =? 1); [reflexivity|].
  cbn [sextets]. rewrite H1, H2, H3, H4.
  destruct (sextets (stripPadding t)); reflexivity.
Qed.

Lemma base64Char_not_pad (n : N) :
  (n < 64)%N -> Ascii.eqb (base64Char n) "=" = false.
Proof.
  intros H. apply (base64Value_not_pad _ n), base64Value_Char, H.
Qed.

Lemma stripPadding_two (c1 c2 : ascii) :
  stripPadding [c1; c2; "="; "="]%char = [c1; c2].
Proof. reflexivity. Qed.

Lemma stripPadding_one (c1 c2 c3 : ascii) :
  Ascii.eqb c3 "=" = false ->
  stripPadding [c1; c2; c3; "="]%char = [c1; c2; c3].
Proof. intros H. unfold stripPadding. simpl. now rewrite H. Qed.

Lemma ascii_of_N_eq (a : ascii) (n : N) : n = N_of_ascii a -> ascii_of_N n = a.
Proof. intros ->. apply ascii_N_embedding. Qed.

(** Decoding what btoa produced gives the binary string back. *)
Theorem atob_btoa (s : jsstring) : atob (btoa s) = Some s.
Proof.
  assert (B : forall a, (N_of_ascii a < 256)%N) by apply N_ascii_bounded.
  induction s as [|a|a b|a b c rest IH] using list_ind3.
  - reflexivity.
  - pose proof (B a). cbn [btoa]. unfold atob.
    rewrite filter_units
      by (repeat constructor; try apply base64Unit_Char; lia).
    rewrite stripPadding_two.
    change (length _ mod 4 =? 1) with false. cbv iota. cbn [sextets].
    rewrite !base64Value_Char by lia.
    cbn [decodeSextets]. repeat f_equal; apply ascii_of_N_eq; lia.
  - pose proof (B a); pose proof (B b). cbn [btoa]. unfold atob.
    rewrite filter_units
      by (repeat constructor; try apply base64Unit_Char; lia).
    rewrite stripPadding_one by (apply base64Char_not_pad; lia).
    change (length _ mod 4 =? 1) with false. cbv iota. cbn [sextets].
    rewrite !base64Value_Char by lia.
    cbn [decodeSextets]. repeat f_equal; apply ascii_of_N_eq; lia.
  - pose proof (B a); pose proof (B b); pose proof (B c).
    cbn [btoa app].
    erewrite atob_group; try (apply base64Value_Char; lia);
      [|apply btoa_units].
    rewrite IH. cbn [decodeSextets app].
    repeat f_equal; apply ascii_of_N_eq; lia.
Qed.

Lemma btoa_injective (s t : jsstring) : btoa s = btoa t -> s = t.
Proof.
  intros H. assert (E : atob (btoa s) = atob (btoa t)) by now rewrite H.
  rewrite !atob_btoa in E. congruence.
Qed.

Lemma btoa_no_marker (s : jsstring) : includes marker (btoa s) = false.
Proof.
  apply includes_marker_comma. intros Hin.
  pose proof (btoa_units s) as Hu. rewrite Forall_forall in Hu.
  destruct (base64Unit_facts _ (Hu _ Hin)) as [_ Hc]. congruence.
Qed.
(** ** Facts about the hexadecimal conversions *)


Lemma isLowerHexDigit_hex (c : ascii) :
  isLowerHexDigit c = true -> isHexDigit c = true.
Proof.
  destruct c as [[] [] [] [] [] [] [] []]; vm_compute; intros H;
    (discriminate H || reflexivity).
Qed.

Lemma isHexDigit_not_terminator (c : ascii) :
  isHexDigit c = true -> isLineTerminator c = false.
Proof.
  destruct c as [[] [] [] [] [] [] [] []]; vm_compute; intros H;
    (discriminate H || reflexivity).
Qed.

(** The two digits written for a byte, and what reading them back gives. *)
Lemma hex_of_byte (b : byte) :
  exists h l,
    padStart 2 "0" (toString16 b) = [h; l] /\
    isLowerHexDigit h = true /\ isLowerHexDigit l = true /\
    toUint8 (parseInt16 [h; l]) = b.
Proof.
  destruct b;
    (eexists; eexists; split; [vm_compute; reflexivity|];
     split; [vm_compute; reflexivity|];
     split; vm_compute; reflexivity).
Qed.

Lemma match_hex_pairs_pair (h l : ascii) (rest : jsstring) :
  isHexDigit h = true -> isHexDigit l = true ->
  match_hex_pairs (h :: l :: rest) = [h; l] :: match_hex_pairs rest.
Proof. intros Hh Hl. cbn [match_hex_pairs]. now rewrite Hh, Hl. Qed.

Lemma bufferToHexString_cons (b : byte) (bs : list byte) :
  bufferToHexString (b :: bs) =
  padStart 2 "0" (toString16 b) ++ bufferToHexString bs.
Proof. reflexivity. Qed.

(** Reading back the hexadecimal text of a buffer gives the buffer. *)
Theorem hexStringToBuffer_bufferToHexString (bs : list byte) :
  hexStringToBuffer (bufferToHexString bs) = bs.
Proof.
  induction bs as [|b bs IH]; [reflexivity|].
  destruct (hex_of_byte b) as (h & l & E & Hh & Hl & Hb).
  rewrite bufferToHexString_cons, E. cbn [app].
  unfold hexStringToBuffer in *.
  rewrite match_hex_pairs_pair by now apply isLowerHexDigit_hex.
  cbn [map]. now rewrite Hb, IH.
Qed.

Lemma bufferToHexString_length (bs : list byte) :
  length (bufferToHexString bs) = 2 * length bs.
Proof.
  induction bs as [|b bs IH]; [reflexivity|].
  destruct (hex_of_byte b) as (h & l & E & _).
  rewrite bufferToHexString_cons, E. cbn [app length]. rewrite IH. lia.
Qed.

Lemma bufferToHexString_lower (bs : list byte) :
  forallb isLowerHexDigit (bufferToHexString bs) = true.
Proof.
  induction bs as [|b bs IH]; [reflexivity|].
  destruct (hex_of_byte b) as (h & l & E & Hh & Hl & _).
  rewrite bufferToHexString_cons, E. cbn [app forallb].
  now rewrite Hh, Hl, IH.
Qed.

(** Induction over a list two elements at a time. *)
Lemma list_ind2 {A} (P : list A -> Prop) :
  P [] -> (forall a, P [a]) ->
  (forall a b rest, P rest -> P (a :: b :: rest)) ->
  forall l, P l.
Proof.
  intros H0 H1 H2.
  refine (fix F l :=
            match l with
            | [] => H0
            | [a] => H1 a
            | a :: b :: rest => H2 a b rest (F rest)
            end).
Qed.

(** On hexadecimal text of even length the two regular expressions cut the
    same pairs. *)
Lemma match_any_1_2_hex (s : jsstring) :
  forallb isHexDigit s = true -> Nat.even (length s) = true ->
  match_any_1_2 s = match_hex_pairs s.
Proof.
  induction s as [|a|a b rest IH] using list_ind2; intros Hh He.
  - reflexivity.
  - discriminate.
  - cbn [forallb] in Hh.
    apply andb_true_iff in Hh as [Ha Hh]. apply andb_true_iff in Hh as [Hb Hh].
    cbn [match_any_1_2 match_hex_pairs].
    rewrite (isHexDigit_not_terminator _ Ha), (isHexDigit_not_terminator _ Hb).
    rewrite Ha, Hb. cbn [andb]. now rewrite IH.
Qed.

Lemma keyDataOfImageKey_hex (key : jsstring) :
  forallb isHexDigit key = true -> Nat.even (length key) = true ->
  keyDataOfImageKey key = hexStringToBuffer key.
Proof.
  intros Hh He. unfold keyDataOfImageKey, hexStringToBuffer.
  now rewrite match_any_1_2_hex.
Qed.

Lemma forallb_lower_hex (s : jsstring) :
  forallb isLowerHexDigit s = true -> forallb isHexDigit s = true.
Proof.
  rewrite !forallb_forall. intros H c Hc. apply isLowerHexDigit_hex, H, Hc.
Qed.

Lemma match_hex_pairs_length (s : jsstring) :
  forallb isHexDigit s = true -> Nat.even (length s) = true ->
  2 * length (match_hex_pairs s) = length s.
Proof.
  induction s as [|a|a b rest IH] using list_ind2; intros Hh He.
  - reflexivity.
  - discriminate.
  - cbn [forallb] in Hh.
    apply andb_true_iff in Hh as [Ha Hh]. apply andb_true_iff in Hh as [Hb Hh].
    rewrite match_hex_pairs_pair by assumption.
    cbn [length]. specialize (IH Hh He). lia.
Qed.

Lemma hexStringToBuffer_length (s : jsstring) :
  forallb isHexDigit s = true -> Nat.even (length s) = true ->
  2 * length (hexStringToBuffer s) = length s.
Proof.
  intros Hh He. unfold hexStringToBuffer. rewrite !length_map.
  now apply match_hex_pairs_length.
Qed.

(** After whole pairs of digits, a single further code unit is passed over. *)
Lemma match_hex_pairs_odd_tail (x : jsstring) (d : ascii) :
  forallb isHexDigit x = true -> Nat.even (length x) = true ->
  match_hex_pairs (x ++ [d]) = match_hex_pairs x.
Proof.
  induction x as [|a|a b rest IH] using list_ind2; intros Hh He.
  - reflexivity.
  - discriminate.
  - cbn [forallb] in Hh.
    apply andb_true_iff in Hh as [Ha Hh]. apply andb_true_iff in Hh as [Hb Hh].
    cbn [app]. rewrite !match_hex_pairs_pair by assumption. now rewrite IH.
Qed.


Lemma isWhiteSpace_unit (c : ascii) :
  base64Unit c = true -> isWhiteSpace c = false.
Proof.
  destruct c as [[] [] [] [] [] [] [] []]; vm_compute; intros H;
    (discriminate H || reflexivity).
Qed.

Lemma dropWhile_head {A} (p : A -> bool) (l : list A) :
  match l with [] => True | x :: _ => p x = false end -> dropWhile p l = l.
Proof. destruct l as [|x l]; simpl; [reflexivity|]. now intros ->. Qed.

(** Text made of base64 digits and padding has nothing for trim to remove. *)
Lemma trim_units (s : jsstring) :
  Forall (fun c => base64Unit c = true) s -> trim s = s.
Proof.
  intros H. unfold trim.
  rewrite (dropWhile_head isWhiteSpace s).
  - rewrite dropWhile_head; [apply rev_involutive|].
    apply Forall_rev in H. destruct (rev s) as [|x l]; [exact I|].
    inversion H; subst. now apply isWhiteSpace_unit.
  - destruct s as [|x l]; [exact I|].
    inversion H; subst. now apply isWhiteSpace_unit.
Qed.

Lemma btoa_nonempty (s : jsstring) : s <> [] -> btoa s <> [].
Proof.
  destruct s as [|a [|b [|c rest]]]; intros H; [congruence|..];
    cbn [btoa]; discriminate.
Qed.

Lemma falsy_false (s : jsstring) : s <> [] -> falsy s = false.
Proof. destruct s; [congruence|reflexivity]. Qed.

Lemma blank_btoa (s : jsstring) : s <> [] -> blank (btoa s) = false.
Proof.
  intros H. unfold blank.
  rewrite (trim_units _ (btoa_units s)).
  rewrite (falsy_false _ (btoa_nonempty _ H)). reflexivity.
Qed.

Lemma bytes_of_binary_string (l : list byte) :
  bytesOfBinaryString (binaryStringOfBytes l) = l.
Proof.
  unfold bytesOfBinaryString, binaryStringOfBytes. rewrite map_map.
  rewrite <- (map_id l) at 2. apply map_ext, byte_of_ascii_of_byte.
Qed.

Lemma binaryStringOfBytes_injective (l1 l2 : list byte) :
  binaryStringOfBytes l1 = binaryStringOfBytes l2 -> l1 = l2.
Proof.
  intros H. rewrite <- (bytes_of_binary_string l1), H.
  apply bytes_of_binary_string.
Qed.

(** Decoding the base64 text of a buffer gives the buffer. *)
Lemma atob_arrayBufferToBase64 (l : list byte) :
  option_map bytesOfBinaryString (atob (arrayBufferToBase64 l)) = Some l.
Proof.
  unfold arrayBufferToBase64. rewrite atob_btoa. simpl.
  now rewrite bytes_of_binary_string.
Qed.

Lemma arrayBufferToBase64_injective (l1 l2 : list byte) :
  arrayBufferToBase64 l1 = arrayBufferToBase64 l2 -> l1 = l2.
Proof.
  intros H. now apply binaryStringOfBytes_injective, btoa_injective.
Qed.

Lemma draw_length (w : world) (n : nat) : length (draw w n) = n.
Proof. unfold draw. now rewrite length_map, length_seq. Qed.

Lemma generateEncryptionKey_run (w : world) :
  run generateEncryptionKey w =
  (inr (bufferToHexString (draw w 32)), after_draw w 32).
Proof. reflexivity. Qed.

Lemma bufferToHexString_nonempty (bs : list byte) :
  bs <> [] -> bufferToHexString bs <> [].
Proof.
  intros H E. apply (f_equal (@length ascii)) in E.
  rewrite bufferToHexString_length in E. destruct bs; [congruence|].
  simpl in E. lia.
Qed.

(** What the two parts of an assembled input are. *)
Lemma payloadOf_dataUrl (head : option jsstring) (b : jsstring) :
  headOk head -> includes marker b = false -> payloadOf (dataUrl head b) = b.
Proof.
  intros Hh Hb. unfold payloadOf. destruct head as [p|]; unfold dataUrl, normalizedUrl, headOk in *.
  - now rewrite splitDataUrl_build.
  - now rewrite splitDataUrl_plain.
Qed.

Lemma prefix_dataUrl (head : option jsstring) (b : jsstring) :
  headOk head -> includes marker b = false ->
  fst (splitDataUrl (dataUrl head b)) ++ b = dataUrl head b.
Proof.
  intros Hh Hb. destruct head as [p|]; unfold dataUrl, normalizedUrl, headOk in *.
  - rewrite splitDataUrl_build by assumption. cbn [fst]. now rewrite <- app_assoc.
  - now rewrite splitDataUrl_plain.
Qed.

Lemma dataPrefixOf_dataUrl (head : option jsstring) (b c : jsstring) :
  headOk head -> includes marker b = false ->
  dataPrefixOf (dataUrl head b) ++ c = normalizedUrl head c.
Proof.
  intros Hh Hb. unfold dataPrefixOf. destruct head as [p|]; unfold dataUrl, normalizedUrl, headOk in *.
  - rewrite includes_build, splitDataUrl_build by assumption. cbn [fst].
    now rewrite <- app_assoc.
  - now rewrite Hb.
Qed.

Lemma dataUrl_nonempty (head : option jsstring) (b : jsstring) :
  b <> [] -> dataUrl head b <> [].
Proof.
  intros H. destruct head as [p|]; unfold dataUrl; [|exact H].
  intros E. apply app_eq_nil in E as [_ E]. discriminate.
Qed.

Lemma stripPadding_keeps (c : ascii) (s : jsstring) :
  In c s -> Ascii.eqb c "=" = false -> In c (stripPadding s).
Proof.
  intros Hin Hc. unfold stripPadding.
  destruct (length s mod 4 =? 0); [|exact Hin].
  apply in_rev in Hin.
  destruct (rev s) as [|c1 [|c2 r]] eqn:E; [contradiction|..].
  - destruct (Ascii.eqb c1 "=") eqn:E1.
    + destruct Hin as [<-|[]]. congruence.
    + apply in_rev. now rewrite E.
  - destruct (Ascii.eqb c1 "=") eqn:E1.
    + destruct Hin as [<-|Hin]; [congruence|].
      destruct (Ascii.eqb c2 "=") eqn:E2.
      * destruct Hin as [<-|Hin]; [congruence|]. now apply in_rev in Hin.
      * now apply in_rev in Hin.
    + apply in_rev. now rewrite E.
Qed.

Lemma sextets_units (s : jsstring) (l : list N) (c : ascii) :
  sextets s = Some l -> In c s -> base64Value c <> None.
Proof.
  revert l; induction s as [|a s IH]; intros l H Hin; [contradiction|].
  cbn [sextets] in H.
  destruct (base64Value a) eqn:Ea; [|discriminate].
  destruct (sextets s) eqn:Es; [|discriminate].
  destruct Hin as [<-|Hin]; [congruence|]. now apply (IH l0).
Qed.

(** What atob accepts has no comma in it, hence no marker. *)
Lemma atob_no_marker (b bin : jsstring) :
  atob b = Some bin -> includes marker b = false.
Proof.
  intros H. apply includes_marker_comma. intros Hin.
  unfold atob in H.
  destruct (length _ mod 4 =? 1); [discriminate|].
  destruct (sextets _) eqn:Es; [|discriminate].
  apply (sextets_units _ _ ","%char Es); [|reflexivity].
  apply stripPadding_keeps; [|reflexivity].
  apply filter_In. split; [exact Hin|reflexivity].
Qed.


Lemma binary_string_of_bytes (s : jsstring) :
  binaryStringOfBytes (bytesOfBinaryString s) = s.
Proof.
  unfold bytesOfBinaryString, binaryStringOfBytes. rewrite map_map.
  rewrite <- (map_id s) at 2. apply map_ext, ascii_of_byte_of_ascii.
Qed.
(** ** Running the entry points *)

Section Runs.

Context {W : WebCrypto}.

(** On a marker-free string base64ToArrayBuffer is atob, with the failure
    rethrown. *)
Lemma base64ToArrayBuffer_run (s : jsstring) (w : world) :
  includes marker s = false ->
  run (base64ToArrayBuffer (JsString s)) w =
  match atob s with
  | Some binaryString => (inr (bytesOfBinaryString binaryString), w)
  | None => (inl (Error "Invalid base64 encoding"), w)
  end.
Proof.
  intros H. unfold run, base64ToArrayBuffer.
  destruct s as [|c s]; [reflexivity|].
  cbn [falsy]. rewrite H.
  unfold try_catch, bind, atob_call, ret, throw.
  destruct (atob (c :: s)); reflexivity.
Qed.

Lemma importKey_run (keyData : list byte) (w : world) :
  run (importKey keyData) w =
  (match import_rejection keyData with
   | None => inr keyData
   | Some name => inl (DOMException name)
   end,
   after_calls w [ImportKey keyData]).
Proof.
  unfold run, importKey, bind, record_call, after_calls.
  destruct (import_rejection keyData); reflexivity.
Qed.

Lemma encryptData_run (data key : jsstring) (w : world) :
  falsy key = false ->
  run (encryptData data (Some key)) w =
  let keyData := hexStringToBuffer key in
  let w1 := after_calls w [ImportKey keyData] in
  match import_rejection keyData with
  | Some name => (inl (encrypt_data_failure (dom_message name)), w1)
  | None =>
    let iv := draw w 12 in
    let w2 := after_draw w1 12 in
    match atob (snd (splitDataUrl data)) with
    | None => (inl (encrypt_data_failure "Invalid base64 encoding"), w2)
    | Some binaryString =>
      let plain := bytesOfBinaryString binaryString in
      (inr (fst (splitDataUrl data)
            ++ arrayBufferToBase64 (iv ++ aes_gcm_encrypt keyData iv plain)),
       after_calls w2 [Encrypt keyData iv plain])
    end
  end.
Proof.
  intros Hk. pose proof (payload_no_marker data) as Hp.
  unfold run, encryptData. destruct (splitDataUrl data) as [prefix base64Data].
  cbn [fst snd] in *. rewrite Hk.
  unfold try_catch. unfold bind at 1. unfold ret at 1.
  unfold bind at 1. fold (run (importKey (hexStringToBuffer key)) w).
  rewrite importKey_run.
  destruct (import_rejection (hexStringToBuffer key)); [reflexivity|].
  unfold bind at 1. unfold getRandomValues at 1.
  unfold bind at 1.
  match goal with
  | |- context [base64ToArrayBuffer ?v ?w'] =>
      fold (run (base64ToArrayBuffer v) w');
      rewrite (base64ToArrayBuffer_run _ w' Hp)
  end.
  destruct (atob base64Data); reflexivity.
Qed.

Lemma atob_call_run (s : jsstring) (w : world) :
  run (atob_call s) w =
  match atob s with
  | Some binaryString => (inr binaryString, w)
  | None => (inl (DOMException "InvalidCharacterError"), w)
  end.
Proof. unfold run, atob_call. destruct (atob s); reflexivity. Qed.

Lemma encryptImage_run (imageData key : jsstring) (w : world) :
  run (encryptImage imageData key) w =
  let keyData := keyDataOfImageKey key in
  let w1 := after_calls w [ImportKey keyData] in
  match import_rejection keyData with
  | Some name => (inl (encrypt_image_failure (dom_message name)), w1)
  | None =>
    let iv := draw w 12 in
    let w2 := after_draw w1 12 in
    match atob (snd (splitDataUrl imageData)) with
    | None =>
      (inl (encrypt_image_failure (dom_message "InvalidCharacterError")), w2)
    | Some binaryString =>
      let plain := bytesOfBinaryString binaryString in
      (inr (fst (splitDataUrl imageData)
            ++ arrayBufferToBase64 (iv ++ aes_gcm_encrypt keyData iv plain)),
       after_calls w2 [Encrypt keyData iv plain])
    end
  end.
Proof.
  unfold run, encryptImage. destruct (splitDataUrl imageData) as [prefix base64Data].
  cbn [fst snd].
  unfold try_catch. unfold bind at 1.
  fold (run (importKey (keyDataOfImageKey key)) w).
  rewrite importKey_run.
  destruct (import_rejection (keyDataOfImageKey key)); [reflexivity|].
  unfold bind at 1. unfold getRandomValues at 1.
  unfold bind at 1.
  match goal with
  | |- context [atob_call ?v ?w'] =>
      fold (run (atob_call v) w'); rewrite (atob_call_run v w')
  end.
  destruct (atob base64Data); reflexivity.
Qed.

Lemma decryptData_run (encryptedData key : jsstring) (w : world) :
  run (decryptData encryptedData key) w =
  if falsy encryptedData
  then (inl (decrypt_data_failure "No encrypted data provided"), w)
  else if blank (payloadOf encryptedData)
  then (inl (decrypt_data_failure "Invalid base64 data"), w)
  else
    let keyData := hexStringToBuffer key in
    let w1 := after_calls w [ImportKey keyData] in
    match import_rejection keyData with
  | Some name => (inl (decrypt_data_failure (dom_message name)), w1)
  | None =>
      match atob (payloadOf encryptedData) with
      | None => (inl (decrypt_data_failure "Invalid base64 encoding"), w1)
      | Some binaryString =>
        let encryptedArray := bytesOfBinaryString binaryString in
        if length encryptedArray <=? 12
        then (inl (decrypt_data_failure "Encrypted data is too short"), w1)
        else
          let iv := firstn 12 encryptedArray in
          let content := skipn 12 encryptedArray in
          let w2 := after_calls w1 [Decrypt keyData iv content] in
          match aes_gcm_decrypt keyData iv content with
          | Some plain =>
            (inr (dataPrefixOf encryptedData ++ arrayBufferToBase64 plain), w2)
          | None =>
            (inl (decrypt_data_failure (dom_message "OperationError")), w2)
          end
      end
    end.
Proof.
  pose proof (payload_no_marker encryptedData) as Hp.
  unfold run, decryptData, payloadOf, dataPrefixOf, blank, splitDataUrl in *.
  unfold try_catch.
  destruct (falsy encryptedData); [reflexivity|].
  destruct (includes marker encryptedData); cbn [fst snd] in *;
    (match goal with
     | |- context [falsy ?b || falsy (trim ?b)] =>
         destruct (falsy b || falsy (trim b)); [reflexivity|]
     end;
     unfold bind at 1;
     fold (run (importKey (hexStringToBuffer key)) w);
     rewrite importKey_run;
     destruct (import_rejection (hexStringToBuffer key)); [reflexivity|];
     unfold bind at 1;
     match goal with
     | |- context [base64ToArrayBuffer ?v ?w'] =>
         fold (run (base64ToArrayBuffer v) w');
         rewrite (base64ToArrayBuffer_run _ w' Hp)
     end;
     match goal with
     | |- context [atob ?b] => destruct (atob b); [|reflexivity]
     end;
     match goal with
     | |- context [length ?l <=? 12] =>
         destruct (length l <=? 12); [reflexivity|]
     end;
     unfold bind, subtle_decrypt, record_call;
     match goal with
     | |- context [aes_gcm_decrypt ?k ?i ?c] =>
         destruct (aes_gcm_decrypt k i c); reflexivity
     end).
Qed.

Lemma decryptImage_run (encryptedData key : jsstring) (w : world) :
  run (decryptImage encryptedData key) w =
  if falsy encryptedData
  then (inl (decrypt_image_failure "No encrypted data provided"), w)
  else if blank (payloadOf encryptedData)
  then (inl (decrypt_image_failure "Invalid base64 data"), w)
  else
    let keyData := keyDataOfImageKey key in
    let w1 := after_calls w [ImportKey keyData] in
    match import_rejection keyData with
  | Some name => (inl (decrypt_image_failure (dom_message name)), w1)
  | None =>
      match atob (payloadOf encryptedData) with
      | None =>
        (inl (decrypt_image_failure (dom_message "InvalidCharacterError")), w1)
      | Some binaryString =>
        let bytes := bytesOfBinaryString binaryString in
        if length bytes <=? 12
        then (inl (decrypt_image_failure "Encrypted data is too short"), w1)
        else
          let iv := firstn 12 bytes in
          let content := skipn 12 bytes in
          let w2 := after_calls w1 [Decrypt keyData iv content] in
          match aes_gcm_decrypt keyData iv content with
          | Some plain =>
            (inr (fst (splitDataUrl encryptedData) ++ arrayBufferToBase64 plain),
             w2)
          | None =>
            (inl (decrypt_image_failure (dom_message "OperationError")), w2)
          end
      end
    end.
Proof.
  unfold run, decryptImage, payloadOf, blank.
  unfold try_catch.
  destruct (falsy encryptedData); [reflexivity|].
  destruct (splitDataUrl encryptedData) as [prefix base64Data]. cbn [fst snd].
  destruct (falsy base64Data || falsy (trim base64Data)); [reflexivity|].
  unfold bind at 1.
  fold (run (importKey (keyDataOfImageKey key)) w).
  rewrite importKey_run.
  destruct (import_rejection (keyDataOfImageKey key)); [reflexivity|].
  unfold bind at 1.
  match goal with
  | |- context [atob_call ?v ?w'] =>
      fold (run (atob_call v) w'); rewrite (atob_call_run v w')
  end.
  destruct (atob base64Data); [|reflexivity].
  match goal with
  | |- context [length ?l <=? 12] => destruct (length l <=? 12); [reflexivity|]
  end.
  unfold bind, subtle_decrypt, record_call.
  destruct (aes_gcm_decrypt _ _ _); reflexivity.
Qed.

End Runs.

(** ** Framed blobs *)

Section Framing.

Context {W : WebCrypto}.

Lemma after_calls_twice (w : world) (c1 c2 : list subtle_call) :
  after_calls (after_calls w c1) c2 = after_calls w (c1 ++ c2).
Proof. unfold after_calls. simpl. now rewrite app_assoc. Qed.

Lemma binaryStringOfBytes_length (l : list byte) :
  length (binaryStringOfBytes l) = length l.
Proof. apply length_map. Qed.

Lemma arrayBufferToBase64_not_blank (l : list byte) :
  l <> [] -> blank (arrayBufferToBase64 l) = false.
Proof.
  intros H. apply blank_btoa. intros E.
  apply (f_equal (@length ascii)) in E.
  rewrite binaryStringOfBytes_length in E. destruct l; [congruence|discriminate].
Qed.

Lemma arrayBufferToBase64_no_marker (l : list byte) :
  includes marker (arrayBufferToBase64 l) = false.
Proof. apply btoa_no_marker. Qed.

Lemma atob_of_arrayBufferToBase64 (l : list byte) :
  atob (arrayBufferToBase64 l) = Some (binaryStringOfBytes l).
Proof. apply atob_btoa. Qed.

(** decryptData on a framed blob: the key is imported, then the AES-GCM
    primitive is handed the first twelve bytes as nonce and the rest as
    ciphertext and tag; its verdict is the result. *)
Lemma decryptData_framed (head : option jsstring) (frame : list byte)
    (K : jsstring) (w : world) :
  headOk head -> 12 < length frame ->
  import_rejection (hexStringToBuffer K) = None ->
  run (decryptData (dataUrl head (arrayBufferToBase64 frame)) K) w =
  (match aes_gcm_decrypt (hexStringToBuffer K) (firstn 12 frame) (skipn 12 frame) with
   | Some plain => inr (normalizedUrl head (arrayBufferToBase64 plain))
   | None => inl (decrypt_data_failure (dom_message "OperationError"))
   end,
   after_calls w [ImportKey (hexStringToBuffer K);
                  Decrypt (hexStringToBuffer K) (firstn 12 frame) (skipn 12 frame)]).
Proof.
  intros Hh Hlen Hk.
  assert (Hne : frame <> []) by (destruct frame; simpl in Hlen; [lia|discriminate]).
  pose proof (arrayBufferToBase64_no_marker frame) as Hm.
  rewrite decryptData_run.
  rewrite falsy_false
    by (apply dataUrl_nonempty; intros E;
        pose proof (arrayBufferToBase64_not_blank _ Hne) as Hb;
        rewrite E in Hb; discriminate).
  rewrite (payloadOf_dataUrl _ _ Hh Hm).
  rewrite (arrayBufferToBase64_not_blank _ Hne).
  cbv zeta. rewrite Hk, atob_of_arrayBufferToBase64, bytes_of_binary_string.
  replace (length frame <=? 12) with false by (symmetry; apply Nat.leb_gt; lia).
  rewrite after_calls_twice. cbn [app].
  destruct (aes_gcm_decrypt _ _ _); [|reflexivity].
  now rewrite (dataPrefixOf_dataUrl _ _ _ Hh Hm).
Qed.

Lemma decryptImage_framed (head : option jsstring) (frame : list byte)
    (K : jsstring) (w : world) :
  headOk head -> 12 < length frame ->
  import_rejection (keyDataOfImageKey K) = None ->
  run (decryptImage (dataUrl head (arrayBufferToBase64 frame)) K) w =
  (match aes_gcm_decrypt (keyDataOfImageKey K) (firstn 12 frame) (skipn 12 frame) with
   | Some plain => inr (dataUrl head (arrayBufferToBase64 plain))
   | None => inl (decrypt_image_failure (dom_message "OperationError"))
   end,
   after_calls w [ImportKey (keyDataOfImageKey K);
                  Decrypt (keyDataOfImageKey K) (firstn 12 frame) (skipn 12 frame)]).
Proof.
  intros Hh Hlen Hk.
  assert (Hne : frame <> []) by (destruct frame; simpl in Hlen; [lia|discriminate]).
  pose proof (arrayBufferToBase64_no_marker frame) as Hm.
  rewrite decryptImage_run.
  rewrite falsy_false
    by (apply dataUrl_nonempty; intros E;
        pose proof (arrayBufferToBase64_not_blank _ Hne) as Hb;
        rewrite E in Hb; discriminate).
  rewrite (payloadOf_dataUrl _ _ Hh Hm).
  rewrite (arrayBufferToBase64_not_blank _ Hne).
  cbv zeta. rewrite Hk, atob_of_arrayBufferToBase64, bytes_of_binary_string.
  replace (length frame <=? 12) with false by (symmetry; apply Nat.leb_gt; lia).
  rewrite after_calls_twice. cbn [app].
  destruct (aes_gcm_decrypt _ _ _); [|reflexivity].
  f_equal. f_equal.
  destruct head as [p|]; unfold dataUrl, headOk in *.
  - rewrite splitDataUrl_build by assumption. cbn [fst]. now rewrite <- app_assoc.
  - now rewrite splitDataUrl_plain.
Qed.

(** encryptData and encryptImage on an input whose payload atob accepts,
    under a key that imports. *)
Lemma encryptData_payload (head : option jsstring) (b binaryString : jsstring)
    (K : jsstring) (w : world) :
  headOk head -> atob b = Some binaryString -> falsy K = false ->
  import_rejection (hexStringToBuffer K) = None ->
  run (encryptData (dataUrl head b) (Some K)) w =
  (inr (dataUrl head
          (arrayBufferToBase64
             (draw w 12 ++ aes_gcm_encrypt (hexStringToBuffer K) (draw w 12)
                             (bytesOfBinaryString binaryString)))),
   after_calls (after_draw (after_calls w [ImportKey (hexStringToBuffer K)]) 12)
     [Encrypt (hexStringToBuffer K) (draw w 12)
        (bytesOfBinaryString binaryString)]).
Proof.
  intros Hh Ha Hf Hk.
  pose proof (atob_no_marker _ _ Ha) as Hm.
  rewrite (encryptData_run _ _ _ Hf). cbv zeta. rewrite Hk.
  fold (payloadOf (dataUrl head b)).
  rewrite (payloadOf_dataUrl _ _ Hh Hm), Ha.
  f_equal. f_equal.
  destruct head as [p|]; unfold dataUrl, headOk in *.
  - rewrite splitDataUrl_build by assumption. cbn [fst]. now rewrite <- app_assoc.
  - now rewrite splitDataUrl_plain.
Qed.

Lemma encryptImage_payload (head : option jsstring) (b binaryString : jsstring)
    (K : jsstring) (w : world) :
  headOk head -> atob b = Some binaryString ->
  import_rejection (keyDataOfImageKey K) = None ->
  run (encryptImage (dataUrl head b) K) w =
  (inr (dataUrl head
          (arrayBufferToBase64
             (draw w 12 ++ aes_gcm_encrypt (keyDataOfImageKey K) (draw w 12)
                             (bytesOfBinaryString binaryString)))),
   after_calls (after_draw (after_calls w [ImportKey (keyDataOfImageKey K)]) 12)
     [Encrypt (keyDataOfImageKey K) (draw w 12)
        (bytesOfBinaryString binaryString)]).
Proof.
  intros Hh Ha Hk.
  pose proof (atob_no_marker _ _ Ha) as Hm.
  rewrite encryptImage_run. cbv zeta. rewrite Hk.
  fold (payloadOf (dataUrl head b)).
  rewrite (payloadOf_dataUrl _ _ Hh Hm), Ha.
  f_equal. f_equal.
  destruct head as [p|]; unfold dataUrl, headOk in *.
  - rewrite splitDataUrl_build by assumption. cbn [fst]. now rewrite <- app_assoc.
  - now rewrite splitDataUrl_plain.
Qed.

(** The same on the base64 text of a buffer. *)
Lemma encryptData_framed (head : option jsstring) (bytes : list byte)
    (K : jsstring) (w : world) :
  headOk head -> falsy K = false ->
  import_rejection (hexStringToBuffer K) = None ->
  run (encryptData (dataUrl head (arrayBufferToBase64 bytes)) (Some K)) w =
  (inr (dataUrl head
          (arrayBufferToBase64
             (draw w 12 ++ aes_gcm_encrypt (hexStringToBuffer K) (draw w 12) bytes))),
   after_calls (after_draw (after_calls w [ImportKey (hexStringToBuffer K)]) 12)
     [Encrypt (hexStringToBuffer K) (draw w 12) bytes]).
Proof.
  intros Hh Hf Hk.
  rewrite (encryptData_payload _ _ _ _ _ Hh (atob_of_arrayBufferToBase64 bytes) Hf Hk).
  now rewrite bytes_of_binary_string.
Qed.

End Framing.

Section Frames.

Context {W : WebCrypto} {L : AesGcmLaws W}.

(** A generated key is the lower-case hexadecimal text of 32 bytes; both
    modules read those 32 bytes back from it. *)
Lemma generated_key (K : jsstring) (w0 : world) :
  returned (run generateEncryptionKey w0) = Some K ->
  falsy K = false /\
  hexStringToBuffer K = draw w0 32 /\
  keyDataOfImageKey K = draw w0 32 /\
  length K = 64 /\ forallb isLowerHexDigit K = true.
Proof.
  rewrite generateEncryptionKey_run. unfold returned. cbn [fst].
  intros [= <-].
  assert (Hlen : length (bufferToHexString (draw w0 32)) = 64)
    by (rewrite bufferToHexString_length, draw_length; reflexivity).
  repeat split.
  - destruct (bufferToHexString (draw w0 32)); [discriminate|reflexivity].
  - apply hexStringToBuffer_bufferToHexString.
  - rewrite keyDataOfImageKey_hex.
    + apply hexStringToBuffer_bufferToHexString.
    + apply forallb_lower_hex, bufferToHexString_lower.
    + now rewrite Hlen.
  - exact Hlen.
  - apply bufferToHexString_lower.
Qed.

(** The frame encryption builds is longer than a nonce. *)
Lemma frame_length (key iv bytes : list byte) :
  length iv = 12 -> 12 < length (iv ++ aes_gcm_encrypt key iv bytes).
Proof. intros H. rewrite length_app, encrypt_length, H. lia. Qed.

Lemma frame_split (key iv bytes : list byte) :
  length iv = 12 ->
  firstn 12 (iv ++ aes_gcm_encrypt key iv bytes) = iv /\
  skipn 12 (iv ++ aes_gcm_encrypt key iv bytes) = aes_gcm_encrypt key iv bytes.
Proof.
  intros H. split.
  - rewrite <- H, firstn_app, Nat.sub_diag, firstn_all, firstn_O.
    apply app_nil_r.
  - rewrite <- H, skipn_app, Nat.sub_diag, skipn_all, skipn_O.
    reflexivity.
Qed.

End Frames.

(** ** The small platform satisfies the laws *)

Lemma bytes_eqb_refl (l : list byte) : bytes_eqb l l = true.
Proof.
  induction l as [|a l IH]; simpl; [reflexivity|].
  now rewrite (Byte.byte_dec_lb eq_refl), IH.
Qed.

Lemma demo_platform_laws : AesGcmLaws demo_platform.
Proof.
  split; cbn [import_rejection aes_gcm_encrypt aes_gcm_decrypt demo_platform].
  - intros keyData H. unfold demo_import. now rewrite H.
  - intros key iv data. unfold demo_decrypt, demo_encrypt.
    assert (Hlen : length (rev data ++ demo_tag key iv data) = length data + 16).
    { unfold demo_tag. now rewrite length_app, length_rev, repeat_length. }
    rewrite Hlen.
    replace (length data + 16 <? 16) with false
      by (symmetry; apply Nat.ltb_ge; lia).
    replace (length data + 16 - 16) with (length (rev data))
      by (rewrite length_rev; lia).
    rewrite firstn_app, Nat.sub_diag, firstn_all, firstn_O, app_nil_r.
    rewrite skipn_app, Nat.sub_diag, skipn_all, skipn_O, app_nil_l.
    rewrite rev_involutive, bytes_eqb_refl. reflexivity.
  - intros key iv data. unfold demo_encrypt, demo_tag.
    now rewrite length_app, length_rev, repeat_length.
Qed.

(** ** Properties of the encryption helpers *)

Section RoundTrip.

Context {W : WebCrypto} {L : AesGcmLaws W}.


End RoundTrip.

Section Tampering.

Context {W : WebCrypto} {L : AesGcmLaws W}.





End Tampering.


Section Prefixes.

Context {W : WebCrypto}.

(** Without a usable options.key, encryptData runs as it does under the key
    it generates from the next 32 bytes of entropy. *)
Lemma encryptData_generates (data : jsstring) (key : option jsstring) (w : world) :
  key = None \/ key = Some [] ->
  run (encryptData data key) w =
  run (encryptData data (Some (bufferToHexString (draw w 32)))) (after_draw w 32).
Proof.
  assert (Hf : falsy (bufferToHexString (draw w 32)) = false).
  { apply falsy_false, bufferToHexString_nonempty. intros E.
    apply (f_equal (@length byte)) in E. rewrite draw_length in E.
    discriminate. }
  intros [-> | ->]; unfold run, encryptData, try_catch;
    destruct (splitDataUrl data) as [prefix base64Data];
    cbn [falsy]; rewrite Hf; reflexivity.
Qed.

(** Whatever encryptData returns starts with the prefix part of its input,
    followed by the base64 text of a frame that starts with the twelve
    bytes of entropy drawn for the nonce. *)
Lemma encryptData_returns (data : jsstring) (key : option jsstring)
    (w : world) (out : jsstring) :
  returned (run (encryptData data key) w) = Some out ->
  exists w' cipher,
    out = fst (splitDataUrl data) ++ arrayBufferToBase64 (draw w' 12 ++ cipher) /\
    (w' = w \/ w' = after_draw w 32).
Proof.
  assert (Hsome : forall k w0, falsy k = false ->
            returned (run (encryptData data (Some k)) w0) = Some out ->
            exists cipher,
              out = fst (splitDataUrl data)
                    ++ arrayBufferToBase64 (draw w0 12 ++ cipher)).
  { intros k w0 Hf. rewrite (encryptData_run _ _ _ Hf). cbv zeta.
    destruct (import_rejection (hexStringToBuffer k)); [discriminate|].
    destruct (atob (snd (splitDataUrl data))); [|discriminate].
    unfold returned; cbn [fst]. intros [= <-]. eexists. reflexivity. }
  assert (Hgen : falsy (bufferToHexString (draw w 32)) = false).
  { apply falsy_false, bufferToHexString_nonempty. intros E.
    apply (f_equal (@length byte)) in E. rewrite draw_length in E.
    discriminate. }
  destruct key as [[|c k]|].
  - rewrite encryptData_generates by auto. intros H.
    destruct (Hsome _ _ Hgen H) as [cipher ->]. eauto.
  - intros H. destruct (Hsome (c :: k) w eq_refl H) as [cipher ->]. eauto.
  - rewrite encryptData_generates by auto. intros H.
    destruct (Hsome _ _ Hgen H) as [cipher ->]. eauto.
Qed.

(** The text btoa produces never starts with the default prefix, which has
    a colon in it. *)
Lemma btoa_not_prefixed (s : jsstring) : startsWith defaultPrefix (btoa s) = false.
Proof.
  destruct (startsWith defaultPrefix (btoa s)) eqn:E; [|reflexivity].
  destruct (startsWith_inv _ _ E) as [r Hr].
  pose proof (btoa_units s) as Hu. rewrite Hr, Forall_forall in Hu.
  assert (Hc : base64Unit ":" = true).
  { apply Hu, in_or_app. left. unfold defaultPrefix, lit. simpl. tauto. }
  discriminate Hc.
Qed.

(** C3, as the code has it. Prefix handling. When the input of an encryption
    contains the marker "base64,", whatever encryptData or encryptImage
    returns starts with the input's own text up to and including the first
    marker. When the input of a decryption contains no marker, whatever
    decryptData returns starts with "data:application/octet-stream;base64,",
    whereas what decryptImage returns is bare base64 text, with no prefix
    before it. *)
Theorem prefix_kept_and_default_supplied :
  (forall data key w out,
      includes marker data = true ->
      returned (run (encryptData data key) w) = Some out ->
      exists p r body,
        data = p ++ marker ++ r /\ includes marker p = false /\
        out = p ++ marker ++ body) /\
  (forall data key w out,
      includes marker data = true ->
      returned (run (encryptImage data key) w) = Some out ->
      exists p r body,
        data = p ++ marker ++ r /\ includes marker p = false /\
        out = p ++ marker ++ body) /\
  (forall data key w out,
      includes marker data = false ->
      returned (run (decryptData data key) w) = Some out ->
      exists body, out = defaultPrefix ++ body) /\
  (forall data key w out,
      includes marker data = false ->
      returned (run (decryptImage data key) w) = Some out ->
      (exists plain, out = arrayBufferToBase64 plain) /\
      startsWith defaultPrefix out = false).
Proof.
  split; [|split; [|split]].
  - intros data key w out Hm Hout.
    destruct (splitDataUrl_marker _ Hm) as (p & r & Hd & Hp & Hs).
    destruct (encryptData_returns _ _ _ _ Hout) as (w' & cipher & -> & _).
    rewrite Hs. cbn [fst]. exists p, r. eexists.
    repeat split; trivial. now rewrite <- app_assoc.
  - intros data key w out Hm.
    destruct (splitDataUrl_marker _ Hm) as (p & r & Hd & Hp & Hs).
    rewrite encryptImage_run. cbv zeta.
    destruct (import_rejection (keyDataOfImageKey key)); [discriminate|].
    destruct (atob (snd (splitDataUrl data))); [|discriminate].
    unfold returned; cbn [fst]. intros [= <-].
    rewrite Hs. cbn [fst]. exists p, r. eexists.
    repeat split; trivial. now rewrite <- app_assoc.
  - intros data key w out Hm.
    rewrite decryptData_run. cbv zeta. unfold dataPrefixOf. rewrite Hm.
    destruct (falsy data); [discriminate|].
    destruct (blank (payloadOf data)); [discriminate|].
    destruct (import_rejection (hexStringToBuffer key)); [discriminate|].
    destruct (atob (payloadOf data)); [|discriminate].
    destruct (length _ <=? 12); [discriminate|].
    destruct (aes_gcm_decrypt _ _ _); [|discriminate].
    unfold returned; cbn [fst]. intros [= <-]. eexists. reflexivity.
  - intros data key w out Hm.
    rewrite decryptImage_run. cbv zeta. rewrite (splitDataUrl_plain _ Hm).
    destruct (falsy data); [discriminate|].
    destruct (blank (payloadOf data)); [discriminate|].
    destruct (import_rejection (keyDataOfImageKey key)); [discriminate|].
    destruct (atob (payloadOf data)); [|discriminate].
    destruct (length _ <=? 12); [discriminate|].
    destruct (aes_gcm_decrypt _ _ _); [|discriminate].
    unfold returned; cbn [fst app]. intros [= <-]. split.
    + eexists. reflexivity.
    + apply btoa_not_prefixed.
Qed.

End Prefixes.

Lemma prefix_kept_and_default_supplied_witness :
  (exists p r body,
      lit "data:image/png;base64,AAAA" = p ++ marker ++ r /\
      includes marker p = false /\
      lit "data:image/png;base64,AAECAwQFBgcICQoLAAAAAAAAAAAAAAAAAAAAAAAAAA=="
      = p ++ marker ++ body) /\
  (exists body,
      lit "data:application/octet-stream;base64,aGVsbG8=" = defaultPrefix ++ body).
Proof.
  split.
  - apply (proj1 (@prefix_kept_and_default_supplied demo_platform)
             (lit "data:image/png;base64,AAAA")
             (Some demo_key)
             demo_world); vm_compute; reflexivity.
  - apply (proj1 (proj2 (proj2 (@prefix_kept_and_default_supplied demo_platform)))
             (lit "AAECAwQFBgcICQoLb2xsZWhiYmJiYmJiYmJiYmJiYmJi")
             demo_key
             demo_world); vm_compute; reflexivity.
Defined.

(** C3, counterexample. The input has no marker, and what decryptImage
    returns does not begin with the default prefix: it is the bare base64
    text of the plaintext. *)
Lemma decryptImage_returns_bare_base64 :
  includes marker (lit "AAECAwQFBgcICQoLb2xsZWhiYmJiYmJiYmJiYmJiYmJi") = false /\
  returned (run (@decryptImage demo_platform
                   (lit "AAECAwQFBgcICQoLb2xsZWhiYmJiYmJiYmJiYmJiYmJi") demo_key)
                demo_world) = Some (lit "aGVsbG8=") /\
  startsWith defaultPrefix (lit "aGVsbG8=") = false.
Proof. repeat split; vm_compute; reflexivity. Qed.
Section Nonces.

Context {W : WebCrypto}.

Lemma app_same_length_inv {A} (a b x y : list A) :
  length a = length b -> a ++ x = b ++ y -> a = b.
Proof.
  intros Hl H. apply (f_equal (firstn (length a))) in H.
  rewrite firstn_app, Nat.sub_diag, firstn_all, firstn_O, app_nil_r in H.
  rewrite Hl, firstn_app, Nat.sub_diag, firstn_all, firstn_O, app_nil_r in H.
  exact H.
Qed.

(** Two blobs with the same prefix part whose frames start with different
    nonces are different strings. *)
Lemma blobs_differ (prefix : jsstring) (iv1 iv2 c1 c2 : list byte) :
  length iv1 = length iv2 -> iv1 <> iv2 ->
  prefix ++ arrayBufferToBase64 (iv1 ++ c1) <>
  prefix ++ arrayBufferToBase64 (iv2 ++ c2).
Proof.
  intros Hl Hne E. apply app_inv_head, arrayBufferToBase64_injective in E.
  now apply Hne, (app_same_length_inv _ _ c1 c2).
Qed.

Ltac invert_run H :=
  match type of H with
  | (inr ?a, ?b) = (inr ?r, ?w) =>
      let Hr := fresh in let Hw := fresh in
      assert (Hr : r = a) by congruence;
      assert (Hw : w = b) by congruence;
      clear H; subst r; subst w
  end.

(** C4. Two successive calls of encryptData, or of encryptImage, on the same
    plaintext under the same key: each call takes the next twelve bytes of
    the entropy source as its nonce, whatever the input and the key are, and
    puts them at the head of the frame it encodes; the second call reads
    the entropy behind the first one's; and the two returned blobs differ
    when the two draws differ, which is also the only way they can differ. *)
Theorem fresh_nonce_gives_distinct_blobs
    (data K : jsstring) (w w1 w2 : world) (r1 r2 : jsstring) :
  falsy K = false ->
  (run (encryptData data (Some K)) w = (inr r1, w1) ->
   run (encryptData data (Some K)) w1 = (inr r2, w2) ->
   (exists c1, r1 = fst (splitDataUrl data)
                    ++ arrayBufferToBase64 (draw w 12 ++ c1)) /\
   (exists c2, r2 = fst (splitDataUrl data)
                    ++ arrayBufferToBase64 (draw w1 12 ++ c2)) /\
   cursor w1 = cursor w + 12 /\ tape w1 = tape w /\
   (draw w 12 <> draw w1 12 -> r1 <> r2) /\
   (draw w 12 = draw w1 12 -> r1 = r2)) /\
  (run (encryptImage data K) w = (inr r1, w1) ->
   run (encryptImage data K) w1 = (inr r2, w2) ->
   (exists c1, r1 = fst (splitDataUrl data)
                    ++ arrayBufferToBase64 (draw w 12 ++ c1)) /\
   (exists c2, r2 = fst (splitDataUrl data)
                    ++ arrayBufferToBase64 (draw w1 12 ++ c2)) /\
   cursor w1 = cursor w + 12 /\ tape w1 = tape w /\
   (draw w 12 <> draw w1 12 -> r1 <> r2) /\
   (draw w 12 = draw w1 12 -> r1 = r2)).
Proof.
  intros Hf. split.
  - intros H1 H2.
    rewrite (encryptData_run _ _ w Hf) in H1. cbv zeta in H1.
    destruct (import_rejection (hexStringToBuffer K)) eqn:Ek; [discriminate|].
    destruct (atob (snd (splitDataUrl data))) eqn:Ea; [|discriminate].
    invert_run H1.
    rewrite (encryptData_run _ _ _ Hf) in H2. cbv zeta in H2.
    rewrite Ek, Ea in H2. invert_run H2.
    cbn [cursor tape after_calls after_draw].
    split; [eexists; reflexivity|]. split; [eexists; reflexivity|].
    split; [reflexivity|]. split; [reflexivity|]. split.
    + intros Hne. apply blobs_differ; [|exact Hne].
      now rewrite !draw_length.
    + intros Heq. now rewrite <- Heq.
  - intros H1 H2.
    rewrite encryptImage_run in H1. cbv zeta in H1.
    destruct (import_rejection (keyDataOfImageKey K)) eqn:Ek; [discriminate|].
    destruct (atob (snd (splitDataUrl data))) eqn:Ea; [|discriminate].
    invert_run H1.
    rewrite encryptImage_run in H2. cbv zeta in H2.
    rewrite Ek, Ea in H2. invert_run H2.
    cbn [cursor tape after_calls after_draw].
    split; [eexists; reflexivity|]. split; [eexists; reflexivity|].
    split; [reflexivity|]. split; [reflexivity|]. split.
    + intros Hne. apply blobs_differ; [|exact Hne].
      now rewrite !draw_length.
    + intros Heq. now rewrite <- Heq.
Qed.

End Nonces.

Lemma fresh_nonce_gives_distinct_blobs_witness :
  let first :=
    run (@encryptData demo_platform (lit "aGVsbG8=") (Some demo_key)) demo_world in
  let second :=
    run (@encryptData demo_platform (lit "aGVsbG8=") (Some demo_key)) (snd first) in
  falsy demo_key = false /\
  first = (inr (lit "AAECAwQFBgcICQoLb2xsZWhiYmJiYmJiYmJiYmJiYmJi"), snd first) /\
  second = (inr (lit "DA0ODxAREhMUFRYXb2xsZWhiYmJiYmJiYmJiYmJiYmJi"), snd second) /\
  draw demo_world 12 <> draw (snd first) 12 /\
  lit "AAECAwQFBgcICQoLb2xsZWhiYmJiYmJiYmJiYmJiYmJi" <>
  lit "DA0ODxAREhMUFRYXb2xsZWhiYmJiYmJiYmJiYmJiYmJi".
Proof.
  intros first second.
  assert (H1 : first = (inr (lit "AAECAwQFBgcICQoLb2xsZWhiYmJiYmJiYmJiYmJiYmJi"), snd first))
    by (vm_compute; reflexivity).
  assert (H2 : second = (inr (lit "DA0ODxAREhMUFRYXb2xsZWhiYmJiYmJiYmJiYmJiYmJi"), snd second))
    by (vm_compute; reflexivity).
  assert (Hd : draw demo_world 12 <> draw (snd first) 12)
    by (vm_compute; discriminate).
  repeat split; trivial.
  exact (proj1 (proj2 (proj2 (proj2 (proj2
           (proj1 (@fresh_nonce_gives_distinct_blobs demo_platform
                     (lit "aGVsbG8=") demo_key
                     demo_world (snd first) (snd second) _ _ eq_refl)
                  H1 H2))))) Hd).
Defined.
Section ShortPayload.

Context {W : WebCrypto}.




End ShortPayload.


(** hexStringToBuffer yields at most one byte for every two code units. *)
Lemma match_hex_pairs_step (a b : ascii) (rest : jsstring) :
  match_hex_pairs (a :: b :: rest) =
  if isHexDigit a && isHexDigit b then [a; b] :: match_hex_pairs rest
  else match_hex_pairs (b :: rest).
Proof. reflexivity. Qed.




(** On a non-empty string base64ToArrayBuffer decodes the payload part with
    atob and rethrows its failure. *)
Lemma base64ToArrayBuffer_string (s : jsstring) (w : world) :
  s <> [] ->
  run (base64ToArrayBuffer (JsString s)) w =
  match atob (payloadOf s) with
  | Some binaryString => (inr (bytesOfBinaryString binaryString), w)
  | None => (inl (Error "Invalid base64 encoding"), w)
  end.
Proof.
  intros H. unfold run, base64ToArrayBuffer, payloadOf, splitDataUrl.
  rewrite (falsy_false _ H).
  unfold try_catch, bind, atob_call, ret, throw.
  destruct (includes marker s); cbn [snd];
    match goal with |- context [atob ?x] => destruct (atob x) end; reflexivity.
Qed.



Section FailureOrder.

Context {W : WebCrypto}.

(** C8, as the code has it. On decryption, an empty input and an empty or
    blank payload are rejected before anything is called on crypto.subtle.
    A malformed base64 payload is rejected only after the key import has
    run, and on encryption after the nonce was drawn as well, but before the
    AES-GCM call. A malformed hexadecimal key is never rejected as such: the
    bytes hexStringToBuffer finds in it go to the key import, and the only
    failure is the one the import raises when it does not accept them. On
    encryption an empty payload is no failure: the empty plaintext is
    encrypted. Every failing run returns nothing. *)
Theorem failures_and_subtle_calls (data key : jsstring) (w : world) :
  (* decryption, empty input or blank payload *)
  (falsy data = true \/ blank (payloadOf data) = true ->
   (exists m, run (decryptData data key) w = (inl (decrypt_data_failure m), w)) /\
   (exists m, run (decryptImage data key) w = (inl (decrypt_image_failure m), w))) /\
  (* decryption, malformed base64 *)
  (falsy data = false -> blank (payloadOf data) = false ->
   atob (payloadOf data) = None ->
   (import_rejection (hexStringToBuffer key) = None ->
    run (decryptData data key) w =
    (inl (decrypt_data_failure "Invalid base64 encoding"),
     after_calls w [ImportKey (hexStringToBuffer key)])) /\
   (import_rejection (keyDataOfImageKey key) = None ->
    run (decryptImage data key) w =
    (inl (decrypt_image_failure (dom_message "InvalidCharacterError")),
     after_calls w [ImportKey (keyDataOfImageKey key)]))) /\
  (* encryption, malformed base64 *)
  (atob (payloadOf data) = None ->
   (falsy key = false -> import_rejection (hexStringToBuffer key) = None ->
    run (encryptData data (Some key)) w =
    (inl (encrypt_data_failure "Invalid base64 encoding"),
     after_draw (after_calls w [ImportKey (hexStringToBuffer key)]) 12)) /\
   (import_rejection (keyDataOfImageKey key) = None ->
    run (encryptImage data key) w =
    (inl (encrypt_image_failure (dom_message "InvalidCharacterError")),
     after_draw (after_calls w [ImportKey (keyDataOfImageKey key)]) 12))) /\
  (* a key whose decoded bytes do not import *)
  (forall name,
      import_rejection (hexStringToBuffer key) = Some name ->
      (falsy key = false ->
       run (encryptData data (Some key)) w =
       (inl (encrypt_data_failure (dom_message name)),
        after_calls w [ImportKey (hexStringToBuffer key)])) /\
      (falsy data = false -> blank (payloadOf data) = false ->
       run (decryptData data key) w =
       (inl (decrypt_data_failure (dom_message name)),
        after_calls w [ImportKey (hexStringToBuffer key)]))) /\
  (* encryption of the empty payload *)
  (payloadOf data = [] -> falsy key = false ->
   import_rejection (hexStringToBuffer key) = None ->
   returned (run (encryptData data (Some key)) w) =
   Some (fst (splitDataUrl data)
         ++ arrayBufferToBase64
              (draw w 12 ++ aes_gcm_encrypt (hexStringToBuffer key) (draw w 12) []))).
Proof.
  split; [|split; [|split; [|split]]].
  - intros H. rewrite decryptData_run, decryptImage_run.
    destruct (falsy data); [split; eexists; reflexivity|].
    destruct H as [H|H]; [discriminate|]. rewrite H.
    split; eexists; reflexivity.
  - intros Hf Hb Ha. rewrite decryptData_run, decryptImage_run. cbv zeta.
    rewrite Hf, Hb, Ha. split; intros ->; reflexivity.
  - intros Ha. unfold payloadOf in Ha. split.
    + intros Hf Hk. rewrite (encryptData_run _ _ _ Hf). cbv zeta.
      now rewrite Hk, Ha.
    + intros Hk. rewrite encryptImage_run. cbv zeta. now rewrite Hk, Ha.
  - intros name Hk. split.
    + intros Hf. rewrite (encryptData_run _ _ _ Hf). cbv zeta.
      now rewrite Hk.
    + intros Hf Hb. rewrite decryptData_run. cbv zeta.
      now rewrite Hf, Hb, Hk.
  - intros Hp Hf Hk. unfold payloadOf in Hp.
    rewrite (encryptData_run _ _ _ Hf). cbv zeta. rewrite Hk, Hp.
    reflexivity.
Qed.

End FailureOrder.

Lemma failures_and_subtle_calls_witness :
  falsy (lit "data:image/png;base64,!!!!") = false /\
  blank (payloadOf (lit "data:image/png;base64,!!!!")) = false /\
  atob (payloadOf (lit "data:image/png;base64,!!!!")) = None /\
  @import_rejection demo_platform (hexStringToBuffer demo_key) = None /\
  run (@decryptData demo_platform (lit "data:image/png;base64,!!!!") demo_key)
      demo_world =
  (inl (decrypt_data_failure "Invalid base64 encoding"),
   after_calls demo_world [ImportKey (hexStringToBuffer demo_key)]).
Proof.
  split; [reflexivity|]. split; [vm_compute; reflexivity|].
  split; [vm_compute; reflexivity|]. split; [vm_compute; reflexivity|].
  refine (proj1 (proj1 (proj2 (@failures_and_subtle_calls demo_platform
                                 (lit "data:image/png;base64,!!!!") demo_key
                                 demo_world)) _ _ _) _);
    vm_compute; reflexivity.
Defined.

(** C8, counterexample. A malformed base64 payload under a well-formed key:
    when decryptData raises the failure, the key import has already run; when
    encryptData raises it, the key import has run and twelve bytes of
    entropy were drawn. *)
Lemma malformed_base64_found_after_key_import :
  atob (payloadOf (lit "data:image/png;base64,!!!!")) = None /\
  thrown (run (@decryptData demo_platform (lit "data:image/png;base64,!!!!") demo_key)
              demo_world) =
  Some (decrypt_data_failure "Invalid base64 encoding") /\
  calls (snd (run (@decryptData demo_platform (lit "data:image/png;base64,!!!!")
                     demo_key) demo_world)) =
  [ImportKey (hexStringToBuffer demo_key)] /\
  thrown (run (@encryptData demo_platform (lit "data:image/png;base64,!!!!")
                 (Some demo_key)) demo_world) =
  Some (encrypt_data_failure "Invalid base64 encoding") /\
  calls (snd (run (@encryptData demo_platform (lit "data:image/png;base64,!!!!")
                     (Some demo_key)) demo_world)) =
  [ImportKey (hexStringToBuffer demo_key)] /\
  cursor (snd (run (@encryptData demo_platform (lit "data:image/png;base64,!!!!")
                      (Some demo_key)) demo_world)) = 12.
Proof. repeat split; vm_compute; reflexivity. Qed.
(** C9, as the code has it. When the input does not contain the marker
    "base64,", the prefix is empty and the payload is the whole input. When
    it does, the prefix is everything up to and including the first marker,
    and the payload is what follows that marker up to the next occurrence of
    the marker: the entire remainder when the marker occurs only once, and
    otherwise only the text between the first two markers. *)
Theorem splitDataUrl_spec (data : jsstring) :
  (includes marker data = false -> splitDataUrl data = ([], data)) /\
  (includes marker data = true ->
   exists p r,
     data = p ++ marker ++ r /\ includes marker p = false /\
     fst (splitDataUrl data) = p ++ marker /\
     (includes marker r = false -> snd (splitDataUrl data) = r) /\
     (includes marker r = true ->
      exists q r',
        r = q ++ marker ++ r' /\ includes marker q = false /\
        snd (splitDataUrl data) = q)).
Proof.
  split; [apply splitDataUrl_plain|].
  intros H. destruct (splitDataUrl_marker _ H) as (p & r & Hd & Hp & Hs).
  exists p, r. rewrite Hs. cbn [fst snd]. repeat split; trivial.
  - intros Hr. now rewrite (split_not_included _ _ Hr).
  - intros Hr.
    destruct (split_first_occurrence _ _ marker_nonempty Hr)
      as (q & r' & Hq1 & Hq2 & Hq3).
    exists q, r'. rewrite Hq3. now repeat split.
Qed.

Lemma splitDataUrl_spec_witness :
  includes marker (lit "data:image/png;base64,AAAA") = true /\
  exists p r,
    lit "data:image/png;base64,AAAA" = p ++ marker ++ r /\
    includes marker p = false /\
    fst (splitDataUrl (lit "data:image/png;base64,AAAA")) = p ++ marker /\
    (includes marker r = false ->
     snd (splitDataUrl (lit "data:image/png;base64,AAAA")) = r) /\
    (includes marker r = true ->
     exists q r',
       r = q ++ marker ++ r' /\ includes marker q = false /\
       snd (splitDataUrl (lit "data:image/png;base64,AAAA")) = q).
Proof.
  split; [reflexivity|].
  exact (proj2 (splitDataUrl_spec (lit "data:image/png;base64,AAAA")) eq_refl).
Defined.

(** C9, counterexample. With two markers in the input, the payload is the
    text between them, not the entire remainder after the first marker. *)
Lemma payload_stops_at_second_marker :
  includes marker (lit "abase64,bbase64,c") = true /\
  lit "abase64,bbase64,c" = lit "abase64," ++ lit "bbase64,c" /\
  splitDataUrl (lit "abase64,bbase64,c") = (lit "abase64,", lit "b") /\
  lit "b" <> lit "bbase64,c".
Proof. repeat split; try (vm_compute; reflexivity). discriminate. Qed.
Section TwoModules.

Context {W : WebCrypto}.

(** C10. The two modules implement the same cipher. For every input string
    and every key of 64 lower-case hexadecimal digits, run from the same
    world (hence with the same entropy draws), encryptImage and encryptData
    return the same string or both fail, and leave the same world behind;
    on an input containing the marker "base64," decryptImage and decryptData
    return the same string or both fail; on an input without the marker
    decryptData returns what decryptImage returns with the default data-URL
    prefix put in front. *)
Theorem image_and_data_modules_agree (input key : jsstring) (w : world) :
  length key = 64 -> forallb isLowerHexDigit key = true ->
  (returned (run (encryptImage input key) w) =
   returned (run (encryptData input (Some key)) w) /\
   snd (run (encryptImage input key) w) =
   snd (run (encryptData input (Some key)) w)) /\
  (includes marker input = true ->
   returned (run (decryptImage input key) w) =
   returned (run (decryptData input key) w)) /\
  (includes marker input = false ->
   returned (run (decryptData input key) w) =
   option_map (app defaultPrefix) (returned (run (decryptImage input key) w))).
Proof.
  intros Hlen Hlow.
  assert (Hkey : keyDataOfImageKey key = hexStringToBuffer key).
  { apply keyDataOfImageKey_hex; [now apply forallb_lower_hex|].
    now rewrite Hlen. }
  assert (Hf : falsy key = false) by (destruct key; [discriminate|reflexivity]).
  split; [|split].
  - rewrite encryptImage_run, (encryptData_run _ _ _ Hf), Hkey. cbv zeta.
    destruct (import_rejection (hexStringToBuffer key)); [split; reflexivity|].
    destruct (atob (snd (splitDataUrl input))); split; reflexivity.
  - intros Hm.
    rewrite decryptImage_run, decryptData_run, Hkey. cbv zeta.
    unfold dataPrefixOf. rewrite Hm.
    destruct (falsy input); [reflexivity|].
    destruct (blank (payloadOf input)); [reflexivity|].
    destruct (import_rejection (hexStringToBuffer key)); [reflexivity|].
    destruct (atob (payloadOf input)); [|reflexivity].
    destruct (length _ <=? 12); [reflexivity|].
    destruct (aes_gcm_decrypt _ _ _); reflexivity.
  - intros Hm.
    rewrite decryptImage_run, decryptData_run, Hkey. cbv zeta.
    unfold dataPrefixOf. rewrite Hm, (splitDataUrl_plain _ Hm).
    destruct (falsy input); [reflexivity|].
    destruct (blank (payloadOf input)); [reflexivity|].
    destruct (import_rejection (hexStringToBuffer key)); [reflexivity|].
    destruct (atob (payloadOf input)); [|reflexivity].
    destruct (length _ <=? 12); [reflexivity|].
    destruct (aes_gcm_decrypt _ _ _); reflexivity.
Qed.

End TwoModules.

Lemma image_and_data_modules_agree_witness :
  let blob := lit "data:text/plain;base64,AAECAwQFBgcICQoLb2xsZWhiYmJiYmJiYmJiYmJiYmJi" in
  length demo_key = 64 /\
  forallb isLowerHexDigit demo_key = true /\
  includes marker blob = true /\
  returned (run (@encryptImage demo_platform
                   (lit "data:text/plain;base64,aGVsbG8=") demo_key) demo_world) =
  returned (run (@encryptData demo_platform
                   (lit "data:text/plain;base64,aGVsbG8=") (Some demo_key))
                demo_world) /\
  returned (run (@decryptImage demo_platform blob demo_key) demo_world) =
  returned (run (@decryptData demo_platform blob demo_key) demo_world).
Proof.
  intros blob.
  assert (Hm : includes marker blob = true) by (vm_compute; reflexivity).
  split; [reflexivity|]. split; [vm_compute; reflexivity|].
  split; [exact Hm|]. split.
  - exact (proj1 (proj1 (@image_and_data_modules_agree demo_platform
                           (lit "data:text/plain;base64,aGVsbG8=") demo_key
                           demo_world eq_refl eq_refl))).
  - exact (proj1 (proj2 (@image_and_data_modules_agree demo_platform
                           blob demo_key demo_world eq_refl eq_refl)) Hm).
Defined.
(** * The file layer and the callers *)

(** ** Their built-ins on examples *)

Example replace_examples :
  replace (lit "encrypted-") [] (lit "encrypted-a.png") = lit "a.png" /\
  replace (lit "encrypted-") [] (lit "my-encrypted-encrypted-a") = lit "my-encrypted-a" /\
  replace (lit "encrypted-") [] (lit "photo.png") = lit "photo.png" /\
  replace (lit "encrypted-") [] [] = [].
Proof. repeat split. Qed.

Example normalizeType_examples :
  normalizeType (lit "Image/PNG") = lit "image/png" /\
  normalizeType (lit "image/png") = lit "image/png" /\
  normalizeType ["233"%char] = [] /\
  normalizeType [] = [].
Proof. repeat split. Qed.

Example plainType_examples :
  plainType (lit "image/png") = true /\
  plainType (lit "image/svg+xml") = true /\
  plainType (lit "image") = false /\
  plainType (lit "image/") = false /\
  plainType (lit "text/plain;charset=utf-8") = false /\
  plainType [] = false.
Proof. repeat split. Qed.

Example getMimeTypeFromDataUrl_examples :
  getMimeTypeFromDataUrl (JsString (lit "data:image/png;base64,AAAA")) = lit "image/png" /\
  getMimeTypeFromDataUrl (JsString (lit "data:;base64,AAAA")) = defaultMimeType /\
  getMimeTypeFromDataUrl (JsString (lit "data:;base64,data:x;")) = lit "x" /\
  getMimeTypeFromDataUrl (JsString (lit "data:text/plain,hi")) = defaultMimeType /\
  getMimeTypeFromDataUrl (JsString (lit "x data:a;")) = defaultMimeType /\
  getMimeTypeFromDataUrl (JsString []) = defaultMimeType.
Proof. repeat split. Qed.

Example extractEncryptionKey_examples :
  taggedKey [] (lit "00ff") = lit "image/png|00ff" /\
  taggedKey (lit "image/jpeg") (lit "00ff") = lit "image/jpeg|00ff" /\
  ImageViewer.extractEncryptionKey (lit "image/png|00ff") = lit "00ff" /\
  ImageViewer.extractEncryptionKey (lit "a|b|c") = lit "b" /\
  ImageViewer.extractEncryptionKey (lit "00ff") = lit "00ff" /\
  ImageViewer.extractEncryptionKey (lit "image/png|") = [] /\
  NillionImageViewer.extractEncryptionKey (JsString (lit "image/png|00ff")) = JsString (lit "00ff") /\
  NillionImageViewer.extractEncryptionKey (JsString []) = JsString [].
Proof. repeat split. Qed.

Example file_layer_examples :
  let file := mkFile (lit "notes.txt") (lit "text/plain") [x68; x65; x6c; x6c; x6f] in
  run (@fileToDataUrl demo_files file) demo_world
  = (inr (lit "data:text/plain;base64,aGVsbG8="), demo_world) /\
  run (@dataUrlToBlob demo_files (lit "data:text/plain;base64,aGVsbG8=")) demo_world
  = (inr (blobOfFile file), demo_world) /\
  thrown (run (@dataUrlToBlob demo_files (lit "aGVsbG8=")) demo_world)
  = Some (Error "Failed to fetch") /\
  thrown (run (@decryptFileWithKey demo_platform demo_files
                 (mkFile (lit "photo.bin") [] [x00]) demo_key None) demo_world)
  = Some (Error "Failed to decrypt file: Failed to decrypt data. The key may be incorrect: Encrypted data is too short").
Proof. repeat split. Qed.
(** * Further properties of the code *)

(** ** Keys and the hexadecimal codec *)

(** X1. generateEncryptionKey always returns. It reads exactly the next
    thirty-two bytes of entropy and calls nothing on crypto.subtle. The key
    is a text of 64 lower-case hexadecimal digits, which is not the empty
    string, and the key conversions of both modules decode it to the bytes
    read. A second call reads the thirty-two bytes behind the first one's,
    and the two keys are equal exactly when the two draws are. *)
Theorem generateEncryptionKey_key_format (w : world) :
  let K := bufferToHexString (draw w 32) in
  let w1 := after_draw w 32 in
  let K' := bufferToHexString (draw w1 32) in
  run generateEncryptionKey w = (inr K, w1) /\
  calls w1 = calls w /\
  length K = 64 /\ forallb isLowerHexDigit K = true /\ falsy K = false /\
  hexStringToBuffer K = draw w 32 /\ keyDataOfImageKey K = draw w 32 /\
  run generateEncryptionKey w1 = (inr K', after_draw w 64) /\
  (K = K' <-> draw w 32 = draw w1 32).
Proof.
  cbv zeta.
  assert (Hrun := generateEncryptionKey_run w).
  assert (Hret : returned (run generateEncryptionKey w)
                 = Some (bufferToHexString (draw w 32)))
    by (rewrite Hrun; reflexivity).
  destruct (generated_key _ _ Hret) as (Hf & Hhex & Himg & Hlen & Hlow).
  repeat split; try assumption; try reflexivity.
  - rewrite generateEncryptionKey_run. unfold after_draw. cbn [tape cursor calls].
    now rewrite <- Nat.add_assoc.
  - intros HK.
    rewrite <- (hexStringToBuffer_bufferToHexString (draw w 32)), HK.
    apply hexStringToBuffer_bufferToHexString.
  - intros ->. reflexivity.
Qed.
Lemma hex_digits_listed (c : ascii) :
  isHexDigit c = true -> In c (lit "0123456789abcdefABCDEF").
Proof.
  destruct c as [[] [] [] [] [] [] [] []]; intros H;
    first [ discriminate H | clear H; cbv; tauto ].
Qed.

Lemma hex_pair_lowered (a b : ascii) :
  isHexDigit a = true -> isHexDigit b = true ->
  padStart 2 "0" (toString16 (toUint8 (parseInt16 [a; b]))) =
  [asciiLower a; asciiLower b].
Proof.
  intros Ha Hb.
  apply hex_digits_listed in Ha. apply hex_digits_listed in Hb.
  cbv [lit list_ascii_of_string In] in Ha, Hb.
  repeat (destruct Ha as [<-|Ha]; [|]); try contradiction;
    repeat (destruct Hb as [<-|Hb]; [|]); try contradiction;
    vm_compute; reflexivity.
Qed.

Lemma asciiLower_lower_hex (c : ascii) :
  isLowerHexDigit c = true -> asciiLower c = c.
Proof.
  destruct c as [[] [] [] [] [] [] [] []]; intros H;
    first [ discriminate H | reflexivity ].
Qed.

(** X2. On a text of hexadecimal digits of even length, bufferToHexString
    after hexStringToBuffer gives the text back in lower case: every pair of
    digits is one byte, and the result is the text itself when its digits
    are lower-case ones. As hexStringToBuffer after bufferToHexString gives
    every buffer back, the two conversions are inverse bijections between
    buffers and even-length lower-case hexadecimal texts. *)
Theorem bufferToHexString_of_hexStringToBuffer (s : jsstring) :
  forallb isHexDigit s = true -> Nat.even (length s) = true ->
  bufferToHexString (hexStringToBuffer s) = map asciiLower s /\
  2 * length (hexStringToBuffer s) = length s /\
  (forallb isLowerHexDigit s = true ->
   bufferToHexString (hexStringToBuffer s) = s).
Proof.
  intros Hhex Heven.
  assert (Hmain : bufferToHexString (hexStringToBuffer s) = map asciiLower s /\
                  2 * length (hexStringToBuffer s) = length s).
  { revert Hhex Heven. induction s as [| a | a b rest IH] using list_ind2.
    - split; reflexivity.
    - discriminate.
    - cbn [forallb length Nat.even]. intros Hhex Heven.
      apply andb_prop in Hhex as [Ha Hhex]. apply andb_prop in Hhex as [Hb Hhex].
      destruct (IH Hhex Heven) as [IH1 IH2].
      unfold hexStringToBuffer in *.
      rewrite (match_hex_pairs_pair _ _ _ Ha Hb). cbn [map length].
      rewrite bufferToHexString_cons, (hex_pair_lowered _ _ Ha Hb), IH1.
      split; [reflexivity | lia]. }
  destruct Hmain as [H1 H2]. repeat split; try assumption.
  intros Hlow. rewrite H1. clear - Hlow.
  induction s as [|c s IH]; [reflexivity|].
  cbn [forallb] in Hlow. apply andb_prop in Hlow as [Hc Hs].
  cbn [map]. now rewrite (asciiLower_lower_hex _ Hc), (IH Hs).
Qed.

Lemma bufferToHexString_of_hexStringToBuffer_witness :
  forallb isHexDigit (lit "0aFF10") = true /\
  Nat.even (length (lit "0aFF10")) = true /\
  bufferToHexString (hexStringToBuffer (lit "0aFF10")) = lit "0aff10" /\
  hexStringToBuffer (lit "0aFF10") = [x0a; xff; x10].
Proof.
  split; [reflexivity|]. split; [reflexivity|]. split; [|reflexivity].
  exact (proj1 (bufferToHexString_of_hexStringToBuffer (lit "0aFF10")
                  eq_refl eq_refl)).
Defined.
(** ** The base64 codec *)

(** X3. base64ToArrayBuffer undoes arrayBufferToBase64: the base64 text of
    any buffer, bare or behind a data-URL head, is decoded to that buffer,
    the empty buffer included; nothing fails and the state is untouched. *)
Theorem base64ToArrayBuffer_of_arrayBufferToBase64
    (head : option jsstring) (bytes : list byte) (w : world) :
  headOk head ->
  run (base64ToArrayBuffer (JsString (dataUrl head (arrayBufferToBase64 bytes)))) w
  = (inr bytes, w).
Proof.
  intros Hhead.
  destruct (dataUrl head (arrayBufferToBase64 bytes)) eqn:E.
  - destruct head as [p|]; cbn [dataUrl] in E.
    + apply app_eq_nil in E as [_ E]. apply app_eq_nil in E as [E _].
      discriminate E.
    + destruct bytes as [|b bs]; [reflexivity|].
      exfalso. revert E. apply btoa_nonempty. discriminate.
  - rewrite <- E, base64ToArrayBuffer_string by (rewrite E; discriminate).
    rewrite payloadOf_dataUrl
      by (assumption || apply arrayBufferToBase64_no_marker).
    rewrite atob_of_arrayBufferToBase64, bytes_of_binary_string. reflexivity.
Qed.

Lemma base64ToArrayBuffer_of_arrayBufferToBase64_witness :
  headOk (Some (lit "data:image/png;")) /\
  arrayBufferToBase64 [x68; x65; x6c; x6c; x6f] = lit "aGVsbG8=" /\
  run (base64ToArrayBuffer (JsString (lit "data:image/png;base64,aGVsbG8=")))
      demo_world
  = (inr [x68; x65; x6c; x6c; x6f], demo_world).
Proof.
  split; [reflexivity|]. split; [reflexivity|].
  exact (base64ToArrayBuffer_of_arrayBufferToBase64
           (Some (lit "data:image/png;")) [x68; x65; x6c; x6c; x6f]
           demo_world eq_refl).
Defined.

Lemma btoa_length (s : jsstring) : length (btoa s) = 4 * ((length s + 2) / 3).
Proof.
  induction s as [| a | a b | a b c rest IH] using list_ind3;
    try reflexivity.
  change (btoa (a :: b :: c :: rest)) with
    ([base64Char (N_of_ascii a / 4);
      base64Char (N_of_ascii a mod 4 * 16 + N_of_ascii b / 16);
      base64Char (N_of_ascii b mod 16 * 4 + N_of_ascii c / 64);
      base64Char (N_of_ascii c mod 64)]%N ++ btoa rest).
  rewrite length_app, IH. cbn [length].
  replace (S (S (S (length rest))) + 2) with ((length rest + 2) + 1 * 3) by lia.
  rewrite Nat.div_add by lia. lia.
Qed.
Section WireFormat.

Context {W : WebCrypto} {L : AesGcmLaws W}.

(** X4. The layout and the size of what the encryptors return. For a
    plaintext of n bytes under a key that imports, encryptData and
    encryptImage return the head of the input followed by the base64 text of
    one frame: the twelve bytes of the nonce just drawn, then the n + 16
    bytes of ciphertext and tag. The frame has n + 28 bytes, so the payload
    has 4 * ((n + 30) / 3) code units, every one of them a base64 digit or
    "=". *)
Theorem encrypted_blob_layout
    (head : option jsstring) (bytes : list byte) (K : jsstring) (w : world) :
  headOk head -> falsy K = false ->
  import_rejection (hexStringToBuffer K) = None ->
  import_rejection (keyDataOfImageKey K) = None ->
  let P := dataUrl head (arrayBufferToBase64 bytes) in
  let frame := fun keyData =>
    draw w 12 ++ aes_gcm_encrypt keyData (draw w 12) bytes in
  returned (run (encryptData P (Some K)) w) =
  Some (dataUrl head (arrayBufferToBase64 (frame (hexStringToBuffer K)))) /\
  returned (run (encryptImage P K) w) =
  Some (dataUrl head (arrayBufferToBase64 (frame (keyDataOfImageKey K)))) /\
  (forall keyData,
      firstn 12 (frame keyData) = draw w 12 /\
      length (frame keyData) = length bytes + 28 /\
      length (arrayBufferToBase64 (frame keyData)) = 4 * ((length bytes + 30) / 3) /\
      forallb base64Unit (arrayBufferToBase64 (frame keyData)) = true).
Proof.
  intros Hhead HK Himp Himp'. cbv zeta.
  split; [|split].
  - now rewrite encryptData_framed.
  - rewrite (encryptImage_payload head _ (binaryStringOfBytes bytes))
      by (assumption || apply atob_of_arrayBufferToBase64).
    now rewrite bytes_of_binary_string.
  - intros keyData.
    assert (Hlen : length (draw w 12 ++ aes_gcm_encrypt keyData (draw w 12) bytes)
                   = length bytes + 28).
    { rewrite length_app, draw_length, encrypt_length. lia. }
    split; [|split; [exact Hlen|split]].
    + apply (frame_split keyData (draw w 12) bytes), draw_length.
    + unfold arrayBufferToBase64.
      rewrite btoa_length, binaryStringOfBytes_length, Hlen.
      f_equal. f_equal. lia.
    + apply forallb_forall. apply Forall_forall. apply btoa_units.
Qed.

End WireFormat.

Lemma encrypted_blob_layout_witness :
  let blob := lit "data:text/plain;base64,AAECAwQFBgcICQoLb2xsZWhiYmJiYmJiYmJiYmJiYmJi" in
  headOk (Some (lit "data:text/plain;")) /\
  falsy demo_key = false /\
  @import_rejection demo_platform (hexStringToBuffer demo_key) = None /\
  @import_rejection demo_platform (keyDataOfImageKey demo_key) = None /\
  returned (run (@encryptData demo_platform
                   (lit "data:text/plain;base64,aGVsbG8=") (Some demo_key))
                demo_world) = Some blob /\
  length (payloadOf blob) = 4 * ((5 + 30) / 3).
Proof.
  split; [reflexivity|]. split; [reflexivity|].
  split; [reflexivity|]. split; [reflexivity|].
  split; [|reflexivity].
  exact (proj1 (@encrypted_blob_layout demo_platform demo_platform_laws
                  (Some (lit "data:text/plain;")) [x68; x65; x6c; x6c; x6f]
                  demo_key demo_world eq_refl eq_refl eq_refl eq_refl)).
Defined.
Lemma match_any_1_2_odd_tail (x : jsstring) (d : ascii) :
  forallb isHexDigit x = true -> Nat.even (length x) = true ->
  isHexDigit d = true ->
  match_any_1_2 (x ++ [d]) = match_hex_pairs x ++ [[d]].
Proof.
  intros Hx He Hd. revert Hx He.
  induction x as [| a | a b rest IH] using list_ind2.
  - intros _ _. cbn. now rewrite (isHexDigit_not_terminator _ Hd).
  - discriminate 2.
  - cbn [forallb length Nat.even]. intros Hx He.
    apply andb_prop in Hx as [Ha Hx]. apply andb_prop in Hx as [Hb Hx].
    rewrite (match_hex_pairs_pair _ _ _ Ha Hb).
    change ((a :: b :: rest) ++ [d]) with (a :: b :: (rest ++ [d])).
    cbn [match_any_1_2].
    rewrite (isHexDigit_not_terminator _ Ha), (isHexDigit_not_terminator _ Hb).
    now rewrite (IH Hx He).
Qed.

Lemma parseInt16_digit (d : ascii) :
  isHexDigit d = true ->
  toUint8 (parseInt16 [d]) = toUint8 (parseInt16 ["0"%char; d]).
Proof.
  intros Hd. apply hex_digits_listed in Hd.
  cbv [lit list_ascii_of_string In] in Hd.
  repeat (destruct Hd as [<-|Hd]; [reflexivity|]). contradiction.
Qed.

(** X5. The two modules read a key of odd length differently. After whole
    pairs of hexadecimal digits, hexStringToBuffer drops a last single
    digit, whereas the conversion inline in encryptImage and decryptImage
    makes one more byte of it, the byte whose value is the digit: the key
    data is that of the text with a "0" put before the last digit, and it is
    one byte longer than what the file encryption utility imports for the
    same text. *)
Theorem odd_length_key_read_differently (x : jsstring) (d : ascii) :
  forallb isHexDigit x = true -> Nat.even (length x) = true ->
  isHexDigit d = true ->
  hexStringToBuffer (x ++ [d]) = hexStringToBuffer x /\
  keyDataOfImageKey (x ++ [d]) = hexStringToBuffer (x ++ ["0"%char; d]) /\
  keyDataOfImageKey (x ++ [d]) = keyDataOfImageKey (x ++ ["0"%char; d]) /\
  length (keyDataOfImageKey (x ++ [d])) = S (length (hexStringToBuffer (x ++ [d]))).
Proof.
  intros Hx He Hd.
  assert (Hdrop : hexStringToBuffer (x ++ [d]) = hexStringToBuffer x).
  { unfold hexStringToBuffer. now rewrite match_hex_pairs_odd_tail. }
  assert (Hpairs : match_hex_pairs (x ++ ["0"%char; d])
                   = match_hex_pairs x ++ [["0"%char; d]]).
  { clear Hdrop. revert Hx He.
    induction x as [| a | a b rest IH] using list_ind2.
    - intros _ _. cbn. now rewrite Hd.
    - discriminate 2.
    - cbn [forallb length Nat.even]. intros Hx He.
      apply andb_prop in Hx as [Ha Hx]. apply andb_prop in Hx as [Hb Hx].
      change ((a :: b :: rest) ++ ["0"%char; d])
        with (a :: b :: (rest ++ ["0"%char; d])).
      rewrite !(match_hex_pairs_pair _ _ _ Ha Hb), (IH Hx He). reflexivity. }
  assert (Himg : keyDataOfImageKey (x ++ [d]) = hexStringToBuffer (x ++ ["0"%char; d])).
  { unfold keyDataOfImageKey, hexStringToBuffer.
    rewrite (match_any_1_2_odd_tail _ _ Hx He Hd), Hpairs.
    rewrite !map_app. cbn [map]. now rewrite (parseInt16_digit _ Hd). }
  split; [exact Hdrop|]. split; [exact Himg|]. split.
  - rewrite Himg. symmetry. apply keyDataOfImageKey_hex.
    + rewrite forallb_app, Hx. cbn. now rewrite Hd.
    + rewrite length_app. cbn [length].
      replace (length x + 2) with (S (S (length x))) by lia. exact He.
  - rewrite Himg, Hdrop. unfold hexStringToBuffer.
    rewrite Hpairs, !length_map, length_app. cbn [length]. lia.
Qed.

Lemma odd_length_key_read_differently_witness :
  forallb isHexDigit (lit "ab") = true /\
  Nat.even (length (lit "ab")) = true /\
  isHexDigit "c" = true /\
  hexStringToBuffer (lit "abc") = [xab] /\
  keyDataOfImageKey (lit "abc") = [xab; x0c] /\
  length (keyDataOfImageKey (lit "ab" ++ ["c"%char]))
  = S (length (hexStringToBuffer (lit "ab" ++ ["c"%char]))).
Proof.
  split; [reflexivity|]. split; [reflexivity|]. split; [reflexivity|].
  split; [reflexivity|]. split; [reflexivity|].
  exact (proj2 (proj2 (proj2 (odd_length_key_read_differently
                                (lit "ab") "c"%char eq_refl eq_refl eq_refl)))).
Defined.
(** ** Outcomes of the four entry points *)

Section Outcomes.

Context {W : WebCrypto}.


(** X7. When encryption returns and how it fails. The key encryptData
    works with is options.key, or the text of the next thirty-two bytes of
    entropy when that option is absent or the empty string. encryptData
    returns a result exactly when the data of that key imports and the
    payload of the input decodes; otherwise it ends in an Error with the
    prefix of encryptData and either the import's rejection or "Invalid
    base64 encoding". encryptImage is the same for the key it is given, with
    its own prefix and the InvalidCharacterError of atob. Neither function
    checks anything else: not the length of the key text, not its digits,
    not that the payload is non-empty. *)
Theorem encryption_outcomes
    (data imageKey : jsstring) (key : option jsstring) (w : world) :
  let K := match key with
           | Some (c :: k) => c :: k
           | _ => bufferToHexString (draw w 32)
           end in
  let failure := fun keyData undecodable m =>
    (exists name, import_rejection keyData = Some name /\ m = dom_message name) \/
    (import_rejection keyData = None /\ atob (payloadOf data) = None /\
     m = undecodable) in
  (returned (run (encryptData data key) w) <> None <->
   import_rejection (hexStringToBuffer K) = None /\
   atob (payloadOf data) <> None) /\
  (forall e, thrown (run (encryptData data key) w) = Some e ->
     exists m, e = encrypt_data_failure m /\
               failure (hexStringToBuffer K) "Invalid base64 encoding"%string m) /\
  (returned (run (encryptImage data imageKey) w) <> None <->
   import_rejection (keyDataOfImageKey imageKey) = None /\
   atob (payloadOf data) <> None) /\
  (forall e, thrown (run (encryptImage data imageKey) w) = Some e ->
     exists m, e = encrypt_image_failure m /\
               failure (keyDataOfImageKey imageKey)
                       (dom_message "InvalidCharacterError") m).
Proof.
  cbv zeta.
  assert (Hrun : exists w0,
    run (encryptData data key) w =
    run (encryptData data
           (Some match key with
                 | Some (c :: k) => c :: k
                 | _ => bufferToHexString (draw w 32)
                 end)) w0 /\
    falsy match key with
          | Some (c :: k) => c :: k
          | _ => bufferToHexString (draw w 32)
          end = false).
  { destruct key as [[|c k]|].
    - exists (after_draw w 32). split; [apply encryptData_generates; now right|].
      apply falsy_false, bufferToHexString_nonempty.
      intros H. apply (f_equal (@length _)) in H.
      now rewrite draw_length in H.
    - exists w. split; reflexivity.
    - exists (after_draw w 32). split; [apply encryptData_generates; now left|].
      apply falsy_false, bufferToHexString_nonempty.
      intros H. apply (f_equal (@length _)) in H.
      now rewrite draw_length in H. }
  destruct Hrun as (w0 & -> & HK).
  rewrite (encryptData_run _ _ _ HK), encryptImage_run. cbv zeta.
  unfold payloadOf.
  split; [|split; [|split]].
  - destruct (import_rejection (hexStringToBuffer _)) as [name|].
    { split; [intros H; now contradiction H|intros (? & _); discriminate]. }
    destruct (atob (snd (splitDataUrl data))).
    + split; [intros _; split; [reflexivity|discriminate]|discriminate].
    + split; [intros H; now contradiction H|intros (_ & H); now contradiction H].
  - intros e. destruct (import_rejection (hexStringToBuffer _)) as [name|].
    { intros [= <-]. eexists; split; [reflexivity|]. left. now exists name. }
    destruct (atob (snd (splitDataUrl data))); [discriminate|].
    intros [= <-]. eexists; split; [reflexivity|]. right. now repeat split.
  - destruct (import_rejection (keyDataOfImageKey _)) as [name|].
    { split; [intros H; now contradiction H|intros (? & _); discriminate]. }
    destruct (atob (snd (splitDataUrl data))).
    + split; [intros _; split; [reflexivity|discriminate]|discriminate].
    + split; [intros H; now contradiction H|intros (_ & H); now contradiction H].
  - intros e. destruct (import_rejection (keyDataOfImageKey _)) as [name|].
    { intros [= <-]. eexists; split; [reflexivity|]. left. now exists name. }
    destruct (atob (snd (splitDataUrl data))); [discriminate|].
    intros [= <-]. eexists; split; [reflexivity|]. right. now repeat split.
Qed.

End Outcomes.
(** ** What the entry points do to the platform *)

Section Discipline.

Context {W : WebCrypto}.

(** X8. Decryption reads no entropy and never encrypts. Whatever the input
    and the key, a run of decryptData or decryptImage leaves the entropy
    source where it was, and adds to the crypto.subtle log nothing, or
    the import of the key data, or that import followed by one decryption
    under the imported key data with a nonce of twelve bytes and a non-empty
    rest. A run that returns a result made both calls. *)
Theorem decryption_call_discipline (data key : jsstring) (w : world) :
  let discipline := fun (r : (exn + jsstring) * world) keyData =>
    tape (snd r) = tape w /\ cursor (snd r) = cursor w /\
    (calls (snd r) = calls w \/
     calls (snd r) = calls w ++ [ImportKey keyData] \/
     exists iv content,
       calls (snd r) = calls w ++ [ImportKey keyData; Decrypt keyData iv content] /\
       import_rejection keyData = None /\
       length iv = 12 /\ content <> []) /\
    (returned r <> None ->
     exists iv content,
       calls (snd r) = calls w ++ [ImportKey keyData; Decrypt keyData iv content]) in
  discipline (run (decryptData data key) w) (hexStringToBuffer key) /\
  discipline (run (decryptImage data key) w) (keyDataOfImageKey key).
Proof.
  cbv zeta.
  assert (Hframe : forall bytes : list byte,
             (length bytes <=? 12) = false ->
             length (firstn 12 bytes) = 12 /\ skipn 12 bytes <> []).
  { intros bytes Hl. apply Nat.leb_gt in Hl. split.
    - rewrite length_firstn. lia.
    - intros E. apply (f_equal (@length _)) in E.
      rewrite length_skipn in E. cbn in E. lia. }
  rewrite decryptData_run, decryptImage_run. cbv zeta.
  destruct (falsy data).
  { split; (repeat split; [now left | intros H; now contradiction H]). }
  destruct (blank (payloadOf data)).
  { split; (repeat split; [now left | intros H; now contradiction H]). }
  split.
  - destruct (import_rejection (hexStringToBuffer key)) as [name|] eqn:Hi.
    { repeat split; [right; now left | intros H; now contradiction H]. }
    destruct (atob (payloadOf data)) as [bin|].
    2:{ repeat split; [right; now left | intros H; now contradiction H]. }
    destruct (length _ <=? 12) eqn:Hl.
    { repeat split; [right; now left | intros H; now contradiction H]. }
    destruct (Hframe _ Hl) as [Hiv Hct].
    destruct (aes_gcm_decrypt _ _ _);
      (repeat split;
       [ right; right; do 2 eexists;
         cbn [snd after_calls calls tape cursor]; rewrite <- app_assoc;
         repeat split; eassumption
       | intros _; do 2 eexists;
         cbn [snd after_calls calls tape cursor]; rewrite <- app_assoc;
         reflexivity ]).
  - destruct (import_rejection (keyDataOfImageKey key)) as [name|] eqn:Hi.
    { repeat split; [right; now left | intros H; now contradiction H]. }
    destruct (atob (payloadOf data)) as [bin|].
    2:{ repeat split; [right; now left | intros H; now contradiction H]. }
    destruct (length _ <=? 12) eqn:Hl.
    { repeat split; [right; now left | intros H; now contradiction H]. }
    destruct (Hframe _ Hl) as [Hiv Hct].
    destruct (aes_gcm_decrypt _ _ _);
      (repeat split;
       [ right; right; do 2 eexists;
         cbn [snd after_calls calls tape cursor]; rewrite <- app_assoc;
         repeat split; eassumption
       | intros _; do 2 eexists;
         cbn [snd after_calls calls tape cursor]; rewrite <- app_assoc;
         reflexivity ]).
Qed.

End Discipline.
Section EncryptionDiscipline.

Context {W : WebCrypto}.

(** X22. What encryption consumes. A run of encryptImage, or of encryptData
    with a key, never calls the AES-GCM decryption and leaves the entropy
    tape as it is. When the import rejects the key data, the import is the
    only call and no entropy is read. When the import accepts it, exactly
    twelve bytes of entropy are read, also when the payload then fails to
    decode and the nonce goes unused; the import is followed by at most one
    encryption, under the imported key data and with the twelve bytes just
    read as nonce, and a run that returns a result made that call. *)
Theorem encryption_call_discipline (data K : jsstring) (w : world) :
  let discipline := fun (r : (exn + jsstring) * world) keyData =>
    tape (snd r) = tape w /\
    (import_rejection keyData <> None ->
     cursor (snd r) = cursor w /\
     calls (snd r) = calls w ++ [ImportKey keyData] /\
     returned r = None) /\
    (import_rejection keyData = None ->
     cursor (snd r) = cursor w + 12 /\
     (calls (snd r) = calls w ++ [ImportKey keyData] /\ returned r = None \/
      exists plain,
        calls (snd r)
        = calls w ++ [ImportKey keyData; Encrypt keyData (draw w 12) plain] /\
        returned r <> None)) in
  discipline (run (encryptImage data K) w) (keyDataOfImageKey K) /\
  (falsy K = false ->
   discipline (run (encryptData data (Some K)) w) (hexStringToBuffer K)).
Proof.
  cbv zeta. split.
  - rewrite encryptImage_run. cbv zeta.
    destruct (import_rejection (keyDataOfImageKey K)) as [name|].
    { split; [reflexivity|]. split; [intros _; repeat split|discriminate]. }
    destruct (atob (snd (splitDataUrl data))) as [bin|].
    + split; [reflexivity|]. split; [intros H; now contradiction H|].
      intros _. split; [reflexivity|]. right.
      exists (bytesOfBinaryString bin).
      cbn [snd after_calls after_draw calls]. rewrite <- app_assoc.
      split; [reflexivity|discriminate].
    + split; [reflexivity|]. split; [intros H; now contradiction H|].
      intros _. split; [reflexivity|]. now left.
  - intros HK. rewrite (encryptData_run _ _ _ HK). cbv zeta.
    destruct (import_rejection (hexStringToBuffer K)) as [name|].
    { split; [reflexivity|]. split; [intros _; repeat split|discriminate]. }
    destruct (atob (snd (splitDataUrl data))) as [bin|].
    + split; [reflexivity|]. split; [intros H; now contradiction H|].
      intros _. split; [reflexivity|]. right.
      exists (bytesOfBinaryString bin).
      cbn [snd after_calls after_draw calls]. rewrite <- app_assoc.
      split; [reflexivity|discriminate].
    + split; [reflexivity|]. split; [intros H; now contradiction H|].
      intros _. split; [reflexivity|]. now left.
Qed.

End EncryptionDiscipline.
(** ** What the frame does not cover *)

Lemma splitDataUrl_two_markers (p q junk : jsstring) :
  includes marker p = false -> includes marker q = false ->
  splitDataUrl (p ++ marker ++ q ++ marker ++ junk) = (p ++ marker, q).
Proof.
  intros Hp Hq. unfold splitDataUrl.
  rewrite includes_build, (split_build _ _ Hp), (split_build _ _ Hq).
  reflexivity.
Qed.

Lemma falsy_build (p r : jsstring) : falsy (p ++ marker ++ r) = false.
Proof. destruct p; reflexivity. Qed.

Section NotCovered.

Context {W : WebCrypto}.

(** X9. The data-URL head of a blob is not authenticated. Put another head
    before the same payload: decryptData and decryptImage make the same
    calls, fail with the same error or return the same base64 text, and the
    only difference in what they return is that the new head stands where
    the old one stood. *)
Theorem head_is_not_authenticated (p p' body key : jsstring) (w : world) :
  includes marker p = false -> includes marker p' = false ->
  let blob := p ++ marker ++ body in
  let blob' := p' ++ marker ++ body in
  (exists out : option jsstring,
      returned (run (decryptData blob key) w)
      = option_map (fun b => p ++ marker ++ b) out /\
      returned (run (decryptData blob' key) w)
      = option_map (fun b => p' ++ marker ++ b) out) /\
  thrown (run (decryptData blob key) w) = thrown (run (decryptData blob' key) w) /\
  snd (run (decryptData blob key) w) = snd (run (decryptData blob' key) w) /\
  (exists out : option jsstring,
      returned (run (decryptImage blob key) w)
      = option_map (fun b => p ++ marker ++ b) out /\
      returned (run (decryptImage blob' key) w)
      = option_map (fun b => p' ++ marker ++ b) out) /\
  thrown (run (decryptImage blob key) w) = thrown (run (decryptImage blob' key) w) /\
  snd (run (decryptImage blob key) w) = snd (run (decryptImage blob' key) w).
Proof.
  intros Hp Hp'. cbv zeta.
  assert (Hsplit : forall h, includes marker h = false ->
            splitDataUrl (h ++ marker ++ body)
            = (h ++ marker, hd [] (split marker body))).
  { intros h Hh. unfold splitDataUrl.
    rewrite includes_build, (split_build _ _ Hh).
    destruct (split marker body) eqn:E; [|reflexivity].
    exfalso. revert E. apply split_scan_nonempty. }
  assert (Hpre : forall h, includes marker h = false ->
            dataPrefixOf (h ++ marker ++ body) = h ++ marker).
  { intros h Hh. unfold dataPrefixOf. now rewrite includes_build, Hsplit. }
  rewrite !decryptData_run, !decryptImage_run. cbv zeta.
  unfold payloadOf.
  rewrite !falsy_build, (Hsplit _ Hp), (Hsplit _ Hp'), (Hpre _ Hp), (Hpre _ Hp').
  cbn [fst snd].
  split; [|split; [|split; [|split; [|split]]]].
  - destruct (blank _); [exists None; split; reflexivity|].
    destruct (import_rejection _); [exists None; split; reflexivity|].
    destruct (atob _); [|exists None; split; reflexivity].
    destruct (length _ <=? 12); [exists None; split; reflexivity|].
    destruct (aes_gcm_decrypt _ _ _) as [plain|];
      [|exists None; split; reflexivity].
    exists (Some (arrayBufferToBase64 plain)).
    cbn [option_map returned fst]. now rewrite <- !app_assoc.
  - destruct (blank _); [reflexivity|].
    destruct (import_rejection _); [reflexivity|].
    destruct (atob _); [|reflexivity].
    destruct (length _ <=? 12); [reflexivity|].
    destruct (aes_gcm_decrypt _ _ _); reflexivity.
  - destruct (blank _); [reflexivity|].
    destruct (import_rejection _); [reflexivity|].
    destruct (atob _); [|reflexivity].
    destruct (length _ <=? 12); [reflexivity|].
    destruct (aes_gcm_decrypt _ _ _); reflexivity.
  - destruct (blank _); [exists None; split; reflexivity|].
    destruct (import_rejection _); [exists None; split; reflexivity|].
    destruct (atob _); [|exists None; split; reflexivity].
    destruct (length _ <=? 12); [exists None; split; reflexivity|].
    destruct (aes_gcm_decrypt _ _ _) as [plain|];
      [|exists None; split; reflexivity].
    exists (Some (arrayBufferToBase64 plain)).
    cbn [option_map returned fst]. now rewrite <- !app_assoc.
  - destruct (blank _); [reflexivity|].
    destruct (import_rejection _); [reflexivity|].
    destruct (atob _); [|reflexivity].
    destruct (length _ <=? 12); [reflexivity|].
    destruct (aes_gcm_decrypt _ _ _); reflexivity.
  - destruct (blank _); [reflexivity|].
    destruct (import_rejection _); [reflexivity|].
    destruct (atob _); [|reflexivity].
    destruct (length _ <=? 12); [reflexivity|].
    destruct (aes_gcm_decrypt _ _ _); reflexivity.
Qed.

(** X10. What follows a second marker takes no part. When the input is a
    head, the marker, a payload, the marker again and any further text, all
    four entry points run exactly as on the input cut before the second
    marker: same result or error, same state. The further text is neither
    encrypted nor decrypted, and nothing reports it. *)
Theorem text_after_second_marker_is_dropped
    (p q junk key : jsstring) (optKey : option jsstring) (w : world) :
  includes marker p = false -> includes marker q = false ->
  let long := p ++ marker ++ q ++ marker ++ junk in
  let short := p ++ marker ++ q in
  run (encryptData long optKey) w = run (encryptData short optKey) w /\
  run (encryptImage long key) w = run (encryptImage short key) w /\
  run (decryptData long key) w = run (decryptData short key) w /\
  run (decryptImage long key) w = run (decryptImage short key) w.
Proof.
  intros Hp Hq. cbv zeta.
  assert (Hlong := splitDataUrl_two_markers p q junk Hp Hq).
  assert (Hshort := splitDataUrl_build p q Hp Hq).
  assert (Hpre : dataPrefixOf (p ++ marker ++ q ++ marker ++ junk)
                 = dataPrefixOf (p ++ marker ++ q)).
  { unfold dataPrefixOf. now rewrite !includes_build, Hlong, Hshort. }
  repeat split.
  - unfold encryptData, run, try_catch, bind. now rewrite Hlong, Hshort.
  - unfold encryptImage, run, try_catch, bind. now rewrite Hlong, Hshort.
  - rewrite !decryptData_run. cbv zeta. unfold payloadOf.
    now rewrite !falsy_build, Hpre, Hlong, Hshort.
  - rewrite !decryptImage_run. cbv zeta. unfold payloadOf.
    now rewrite !falsy_build, Hlong, Hshort.
Qed.

End NotCovered.

Lemma head_is_not_authenticated_witness :
  let body := lit "AAECAwQFBgcICQoLb2xsZWhiYmJiYmJiYmJiYmJiYmJi" in
  includes marker (lit "data:text/plain;") = false /\
  includes marker (lit "data:text/html;") = false /\
  returned (run (@decryptData demo_platform (lit "data:text/html;" ++ marker ++ body)
                   demo_key) demo_world)
  = Some (lit "data:text/html;base64,aGVsbG8=") /\
  snd (run (@decryptData demo_platform (lit "data:text/plain;" ++ marker ++ body)
              demo_key) demo_world)
  = snd (run (@decryptData demo_platform (lit "data:text/html;" ++ marker ++ body)
                demo_key) demo_world).
Proof.
  split; [reflexivity|]. split; [reflexivity|]. split; [reflexivity|].
  exact (proj1 (proj2 (proj2
    (@head_is_not_authenticated demo_platform
       (lit "data:text/plain;") (lit "data:text/html;")
       (lit "AAECAwQFBgcICQoLb2xsZWhiYmJiYmJiYmJiYmJiYmJi")
       demo_key demo_world eq_refl eq_refl)))).
Defined.

Lemma text_after_second_marker_is_dropped_witness :
  includes marker (lit "data:text/plain;") = false /\
  includes marker (lit "aGVsbG8=") = false /\
  run (@encryptData demo_platform
         (lit "data:text/plain;base64,aGVsbG8=base64,d29ybGQ=") (Some demo_key))
      demo_world
  = run (@encryptData demo_platform
           (lit "data:text/plain;base64,aGVsbG8=") (Some demo_key))
        demo_world.
Proof.
  split; [reflexivity|]. split; [reflexivity|].
  exact (proj1
    (@text_after_second_marker_is_dropped demo_platform
       (lit "data:text/plain;") (lit "aGVsbG8=") (lit "d29ybGQ=")
       demo_key (Some demo_key) demo_world eq_refl eq_refl)).
Defined.
(** ** Keys nobody was given *)

Section Keyless.

Context {W : WebCrypto} {L : AesGcmLaws W}.

(** X11. encryptData without a key. When options.key is absent or the empty
    string, encryptData encrypts under a key of its own making: it reads
    thirty-two bytes of entropy for the key and the next twelve for the
    nonce, imports the thirty-two bytes and encrypts under them. The blob it
    returns is all it returns: the key is not handed back. The key is the
    hexadecimal text of those thirty-two bytes, and decryptData under that
    text gives the plaintext back. *)
Theorem encryptData_without_key
    (head : option jsstring) (payload binaryString : jsstring)
    (key : option jsstring) (w w' : world) :
  headOk head -> atob payload = Some binaryString ->
  key = None \/ key = Some [] ->
  let keyData := draw w 32 in
  let iv := draw (after_draw w 32) 12 in
  let plain := bytesOfBinaryString binaryString in
  let blob :=
    dataUrl head (arrayBufferToBase64 (iv ++ aes_gcm_encrypt keyData iv plain)) in
  run (encryptData (dataUrl head payload) key) w =
  (inr blob,
   mkWorld (tape w) (cursor w + 44)
           (calls w ++ [ImportKey keyData; Encrypt keyData iv plain])) /\
  returned (run (decryptData blob (bufferToHexString keyData)) w') =
  Some (normalizedUrl head (btoa binaryString)).
Proof.
  intros Hhead Hatob Hkey. cbv zeta.
  assert (HK : hexStringToBuffer (bufferToHexString (draw w 32)) = draw w 32)
    by apply hexStringToBuffer_bufferToHexString.
  assert (Himp : import_rejection (draw w 32) = None)
    by (apply import_256, draw_length).
  split.
  - rewrite (encryptData_generates _ _ _ Hkey).
    rewrite (encryptData_payload head payload binaryString); try assumption.
    + rewrite HK. f_equal. unfold after_calls, after_draw.
      cbn [tape cursor calls]. f_equal; [lia|].
      now rewrite <- app_assoc.
    + apply falsy_false, bufferToHexString_nonempty.
      intros H. apply (f_equal (@length _)) in H.
      now rewrite draw_length in H.
    + now rewrite HK.
  - set (iv := draw (after_draw w 32) 12).
    assert (Hiv : length iv = 12) by apply draw_length.
    rewrite decryptData_framed; try assumption.
    + rewrite HK.
      destruct (frame_split (draw w 32) iv (bytesOfBinaryString binaryString) Hiv)
        as [-> ->].
      rewrite decrypt_encrypt. cbn [returned fst].
      unfold arrayBufferToBase64. now rewrite binary_string_of_bytes.
    + now apply frame_length.
    + now rewrite HK.
Qed.

End Keyless.

Lemma encryptData_without_key_witness :
  headOk (Some (lit "data:text/plain;")) /\
  atob (lit "aGVsbG8=") = Some (lit "hello") /\
  returned (run (@encryptData demo_platform
                   (lit "data:text/plain;base64,aGVsbG8=") None) demo_world)
  = Some (lit "data:text/plain;base64,ICEiIyQlJicoKSorb2xsZWhiYmJiYmJiYmJiYmJiYmJi") /\
  returned (run (@decryptData demo_platform
                   (lit "data:text/plain;base64,ICEiIyQlJicoKSorb2xsZWhiYmJiYmJiYmJiYmJiYmJi")
                   demo_key) demo_world)
  = Some (lit "data:text/plain;base64,aGVsbG8=").
Proof.
  split; [reflexivity|]. split; [reflexivity|]. split; [reflexivity|].
  exact (proj2
    (@encryptData_without_key demo_platform demo_platform_laws
       (Some (lit "data:text/plain;")) (lit "aGVsbG8=") (lit "hello")
       None demo_world demo_world eq_refl eq_refl (or_introl eq_refl))).
Defined.
(** ** The uploader and the viewers *)

Lemma split_bar_build (t k : jsstring) :
  includes (lit "|") t = false ->
  split (lit "|") (t ++ lit "|" ++ k) = t :: split (lit "|") k.
Proof.
  unfold split. induction t as [|a t IH]; intros Ht.
  - reflexivity.
  - cbn [includes] in Ht. apply orb_false_elim in Ht as [Ha Ht].
    change ((a :: t) ++ lit "|" ++ k) with (a :: (t ++ lit "|" ++ k)).
    cbn [split_scan].
    change (startsWith (lit "|") (a :: t ++ lit "|" ++ k))
      with (startsWith (lit "|") (a :: t)).
    now rewrite Ha, (IH Ht).
Qed.

Lemma includes_bar_app (t k : jsstring) :
  includes (lit "|") (t ++ lit "|" ++ k) = true.
Proof.
  induction t as [|a t IH]; [reflexivity|].
  change ((a :: t) ++ lit "|" ++ k) with (a :: (t ++ lit "|" ++ k)).
  cbn [includes]. rewrite IH. apply orb_true_r.
Qed.

Lemma hex_text_has_no_bar (k : jsstring) :
  forallb isHexDigit k = true -> includes (lit "|") k = false.
Proof.
  induction k as [|c k IH]; [reflexivity|].
  cbn [forallb]. intros H. apply andb_prop in H as [Hc Hk].
  cbn [includes]. rewrite (IH Hk), orb_false_r.
  apply hex_digits_listed in Hc. cbv [lit list_ascii_of_string In] in Hc.
  repeat (destruct Hc as [<-|Hc]; [reflexivity|]). contradiction.
Qed.

Lemma taggedKey_type (imageType key : jsstring) :
  includes (lit "|") imageType = false ->
  exists t, taggedKey imageType key = t ++ lit "|" ++ key /\
            includes (lit "|") t = false /\ t <> [].
Proof.
  intros Ht. unfold taggedKey. destruct imageType as [|c t].
  - exists (lit "image/png"). repeat split. discriminate.
  - exists (c :: t). repeat split; [assumption|discriminate].
Qed.

Lemma extractEncryptionKey_taggedKey (imageType key : jsstring) :
  includes (lit "|") imageType = false ->
  ImageViewer.extractEncryptionKey (taggedKey imageType key)
  = hd [] (split (lit "|") key).
Proof.
  intros Ht. destruct (taggedKey_type imageType key Ht) as (t & -> & Hno & _).
  unfold ImageViewer.extractEncryptionKey.
  rewrite includes_bar_app, (split_bar_build _ _ Hno).
  cbn [nth]. destruct (split (lit "|") key); reflexivity.
Qed.

(** X12. The key tag of the uploader and its removal by the viewers. The
    uploader stores the image type, "image/png" when the file has none, a
    "|" and the key. Both copies of extractEncryptionKey agree on every
    string; applied to a stored key whose type has no "|", they return the
    key up to its first "|", which is the whole key when it has none, as is
    the case for every text of hexadecimal digits. The type that was stored
    is dropped. A string without "|" is returned as it is, and the copy in
    NillionImageViewer returns a value that is not a string as it is. *)
Theorem extractEncryptionKey_undoes_taggedKey (imageType key : jsstring) :
  includes (lit "|") imageType = false ->
  (forall s, NillionImageViewer.extractEncryptionKey (JsString s)
             = JsString (ImageViewer.extractEncryptionKey s)) /\
  ImageViewer.extractEncryptionKey (taggedKey imageType key)
  = hd [] (split (lit "|") key) /\
  (includes (lit "|") key = false ->
   ImageViewer.extractEncryptionKey (taggedKey imageType key) = key /\
   ImageViewer.extractEncryptionKey key = key) /\
  (forallb isHexDigit key = true -> includes (lit "|") key = false) /\
  (forall t', includes (lit "|") t' = false ->
     ImageViewer.extractEncryptionKey (taggedKey t' key)
     = ImageViewer.extractEncryptionKey (taggedKey imageType key)) /\
  NillionImageViewer.extractEncryptionKey JsUndefined = JsUndefined /\
  NillionImageViewer.extractEncryptionKey JsNull = JsNull.
Proof.
  intros Ht. split; [|split; [|split; [|split; [|split]]]].
  - intros s. unfold NillionImageViewer.extractEncryptionKey, ImageViewer.extractEncryptionKey.
    destruct s as [|c s]; [reflexivity|].
    cbn [falsy negb andb]. destruct (includes (lit "|") (c :: s)); reflexivity.
  - now apply extractEncryptionKey_taggedKey.
  - intros Hk. split.
    + rewrite (extractEncryptionKey_taggedKey _ _ Ht).
      now rewrite (split_not_included _ _ Hk).
    + unfold ImageViewer.extractEncryptionKey. now rewrite Hk.
  - apply hex_text_has_no_bar.
  - intros t' Ht'. now rewrite !extractEncryptionKey_taggedKey.
  - split; reflexivity.
Qed.

Lemma extractEncryptionKey_undoes_taggedKey_witness :
  includes (lit "|") (lit "image/jpeg") = false /\
  taggedKey (lit "image/jpeg") demo_key
  = lit "image/jpeg|" ++ demo_key /\
  ImageViewer.extractEncryptionKey (taggedKey (lit "image/jpeg") demo_key)
  = hd [] (split (lit "|") demo_key) /\
  hd [] (split (lit "|") demo_key) = demo_key.
Proof.
  split; [reflexivity|]. split; [reflexivity|]. split; [|reflexivity].
  exact (proj1 (proj2
    (extractEncryptionKey_undoes_taggedKey (lit "image/jpeg") demo_key eq_refl))).
Defined.

Section UploadAndView.

Context {W : WebCrypto} {L : AesGcmLaws W}.

(** X13. From the uploader to the viewer. The uploader generates a key,
    encrypts the preview under it with encryptImage and stores the key behind
    the image type. For a preview whose payload decodes this always
    succeeds, and the viewer, which removes the tag with
    extractEncryptionKey and calls decryptImage, gets the bytes of the
    preview back, whatever data-URL head the payload carries when it reaches
    the viewer: that head, not the one of the preview, is the head of the
    decrypted image. *)
Theorem uploaded_image_opens_with_stored_key
    (head head' : option jsstring) (payload binaryString imageType : jsstring)
    (w w' : world) :
  headOk head -> headOk head' ->
  atob payload = Some binaryString ->
  includes (lit "|") imageType = false ->
  exists encrypted storedKey,
    returned (run (encryptForUpload (dataUrl head payload) imageType) w)
    = Some (dataUrl head encrypted, storedKey) /\
    storedKey = taggedKey imageType (bufferToHexString (draw w 32)) /\
    includes marker encrypted = false /\
    returned (run (decryptImage (dataUrl head' encrypted)
                     (ImageViewer.extractEncryptionKey storedKey)) w')
    = Some (dataUrl head' (btoa binaryString)).
Proof.
  intros Hhead Hhead' Hatob Htype.
  set (K := bufferToHexString (draw w 32)).
  assert (Hret : returned (run generateEncryptionKey w) = Some K)
    by (rewrite generateEncryptionKey_run; reflexivity).
  destruct (generated_key _ _ Hret) as (Hf & Hhex & Himg & Hlen & Hlow).
  assert (Himp : import_rejection (keyDataOfImageKey K) = None)
    by (rewrite Himg; apply import_256, draw_length).
  set (iv := draw (after_draw w 32) 12).
  assert (Hiv : length iv = 12) by apply draw_length.
  set (plain := bytesOfBinaryString binaryString).
  exists (arrayBufferToBase64 (iv ++ aes_gcm_encrypt (keyDataOfImageKey K) iv plain)),
         (taggedKey imageType K).
  split; [|split; [reflexivity|split; [apply arrayBufferToBase64_no_marker|]]].
  - unfold encryptForUpload, run, bind.
    change (generateEncryptionKey w) with (run generateEncryptionKey w).
    rewrite generateEncryptionKey_run. fold K.
    change (encryptImage (dataUrl head payload) K (after_draw w 32))
      with (run (encryptImage (dataUrl head payload) K) (after_draw w 32)).
    rewrite (encryptImage_payload head payload binaryString); try assumption.
    reflexivity.
  - assert (HkeyBack : ImageViewer.extractEncryptionKey (taggedKey imageType K) = K).
    { rewrite (extractEncryptionKey_taggedKey _ _ Htype).
      rewrite split_not_included; [reflexivity|].
      apply hex_text_has_no_bar. now apply forallb_lower_hex. }
    rewrite HkeyBack, decryptImage_framed; try assumption.
    + destruct (frame_split (keyDataOfImageKey K) iv plain Hiv) as [-> ->].
      rewrite decrypt_encrypt. cbn [returned fst].
      unfold arrayBufferToBase64, plain. now rewrite binary_string_of_bytes.
    + now apply frame_length.
Qed.

End UploadAndView.

Lemma uploaded_image_opens_with_stored_key_witness :
  headOk (Some (lit "data:image/png;")) /\
  headOk (Some (lit "data:application/octet-stream;")) /\
  atob (lit "aGVsbG8=") = Some (lit "hello") /\
  includes (lit "|") (lit "image/png") = false /\
  exists encrypted storedKey,
    returned (run (@encryptForUpload demo_platform
                     (lit "data:image/png;base64,aGVsbG8=") (lit "image/png"))
                  demo_world)
    = Some (lit "data:image/png;base64," ++ encrypted, storedKey) /\
    storedKey = lit "image/png|" ++ demo_key /\
    includes marker encrypted = false /\
    returned (run (@decryptImage demo_platform
                     (lit "data:application/octet-stream;base64," ++ encrypted)
                     (ImageViewer.extractEncryptionKey storedKey)) demo_world)
    = Some (lit "data:application/octet-stream;base64,aGVsbG8=").
Proof.
  split; [reflexivity|]. split; [reflexivity|].
  split; [reflexivity|]. split; [reflexivity|].
  exact (@uploaded_image_opens_with_stored_key demo_platform demo_platform_laws
           (Some (lit "data:image/png;")) (Some (lit "data:application/octet-stream;"))
           (lit "aGVsbG8=") (lit "hello") (lit "image/png")
           demo_world demo_world eq_refl eq_refl eq_refl eq_refl).
Defined.
(** ** The file layer *)

Lemma includes_unit_cons (c a : ascii) (s : jsstring) :
  includes [c] (a :: s) = Ascii.eqb c a || includes [c] s.
Proof. cbn [includes startsWith]. now rewrite andb_true_r. Qed.

Lemma takeWhile_until (p : ascii -> bool) (m : jsstring) (c : ascii) (rest : jsstring) :
  forallb p m = true -> p c = false ->
  takeWhile p (m ++ c :: rest) = m /\ dropWhile p (m ++ c :: rest) = c :: rest.
Proof.
  intros Hm Hc. induction m as [|a m IH].
  - cbn. now rewrite Hc.
  - cbn [forallb] in Hm. apply andb_prop in Hm as [Ha Hm].
    destruct (IH Hm) as [IH1 IH2]. cbn. now rewrite Ha, IH1, IH2.
Qed.

Lemma takeWhile_dropWhile {A} (p : A -> bool) (l : list A) :
  takeWhile p l ++ dropWhile p l = l /\ forallb p (takeWhile p l) = true.
Proof.
  induction l as [|a l [IH1 IH2]]; [split; reflexivity|].
  cbn. destruct (p a) eqn:E; [|split; reflexivity].
  cbn. now rewrite IH1, E, IH2.
Qed.

Lemma no_semicolon (m : jsstring) :
  includes (lit ";") m = false <->
  forallb (fun c => negb (Ascii.eqb c ";")) m = true.
Proof.
  induction m as [|a m IH]; [split; reflexivity|].
  change (lit ";") with [";"%char] in *.
  rewrite includes_unit_cons. cbn [forallb].
  rewrite (Ascii.eqb_sym ";" a).
  destruct (Ascii.eqb a ";"); cbn [negb orb andb]; [split; discriminate|exact IH].
Qed.

Lemma match_mime_here_first (s m : jsstring) :
  match_mime_here s = Some m -> match_mime s = Some m.
Proof. intros H. destruct s; cbn [match_mime]; now rewrite H. Qed.

Lemma match_mime_here_inv (s m : jsstring) :
  match_mime_here s = Some m ->
  m <> [] /\ includes (lit ";") m = false /\
  exists rest, s = lit "data:" ++ m ++ lit ";" ++ rest.
Proof.
  unfold match_mime_here.
  destruct (startsWith (lit "data:") s) eqn:Hs; [|discriminate].
  apply startsWith_inv in Hs as [r ->].
  change (skipn 5 (lit "data:" ++ r)) with r.
  destruct (takeWhile_dropWhile (fun c => negb (Ascii.eqb c ";")) r) as [Happ Hall].
  destruct (takeWhile _ r) as [|c t] eqn:Ht; [discriminate|].
  destruct (dropWhile _ r) as [|d rest] eqn:Hd; [discriminate|].
  intros [= <-]. split; [discriminate|]. split; [now apply no_semicolon|].
  exists rest. rewrite <- Happ. do 2 f_equal.
  assert (Hsemi : negb (Ascii.eqb d ";") = false).
  { clear - Hd. induction r as [|a r IH]; [discriminate|].
    cbn [dropWhile] in Hd.
    destruct (negb (Ascii.eqb a ";")) eqn:E; [auto|].
    injection Hd as -> _. exact E. }
  apply negb_false_iff, Ascii.eqb_eq in Hsemi. now subst d.
Qed.

Lemma match_mime_inv (s m : jsstring) :
  match_mime s = Some m ->
  m <> [] /\ includes (lit ";") m = false /\
  exists pre rest, s = pre ++ lit "data:" ++ m ++ lit ";" ++ rest.
Proof.
  induction s as [|a s IH].
  - cbn. discriminate.
  - cbn [match_mime].
    destruct (match_mime_here (a :: s)) as [m'|] eqn:E.
    + intros [= <-].
      destruct (match_mime_here_inv _ _ E) as (H1 & H2 & rest & H3).
      repeat split; try assumption. exists [], rest. exact H3.
    + intros H. destruct (IH H) as (H1 & H2 & pre & rest & ->).
      repeat split; try assumption. now exists (a :: pre), rest.
Qed.

Lemma getMimeTypeFromDataUrl_head (mime rest : jsstring) :
  mime <> [] -> includes (lit ";") mime = false ->
  getMimeTypeFromDataUrl (JsString (lit "data:" ++ mime ++ lit ";" ++ rest)) = mime.
Proof.
  intros Hne Hsemi. apply no_semicolon in Hsemi.
  unfold getMimeTypeFromDataUrl.
  rewrite startsWith_app. cbn [falsy app lit list_ascii_of_string negb orb].
  rewrite (match_mime_here_first _ mime); [reflexivity|].
  unfold match_mime_here. cbn [startsWith lit list_ascii_of_string Ascii.eqb
                               Bool.eqb andb skipn].
  destruct (takeWhile_until (fun c => negb (Ascii.eqb c ";")) mime ";"%char rest
              Hsemi eq_refl) as [-> ->].
  destruct mime; [now contradiction Hne|reflexivity].
Qed.

(** X14. getMimeTypeFromDataUrl. For a data URL that begins with "data:", a
    non-empty media type without ";" and a ";", the result is that media
    type. The result is never the empty string: it is
    "application/octet-stream", or a non-empty text without ";" that stands
    in the input between a "data:" and a ";", possibly a later "data:" than
    the one the input begins with. It is "application/octet-stream" for a
    value that is not a string, for a string that does not begin with
    "data:", and for a string without ";". *)
Theorem getMimeTypeFromDataUrl_spec :
  (forall mime rest,
      mime <> [] -> includes (lit ";") mime = false ->
      getMimeTypeFromDataUrl (JsString (lit "data:" ++ mime ++ lit ";" ++ rest))
      = mime) /\
  (forall v,
      getMimeTypeFromDataUrl v = defaultMimeType \/
      exists s pre rest,
        v = JsString s /\
        s = pre ++ lit "data:" ++ getMimeTypeFromDataUrl v ++ lit ";" ++ rest /\
        includes (lit ";") (getMimeTypeFromDataUrl v) = false) /\
  (forall v, getMimeTypeFromDataUrl v <> []) /\
  (forall s, startsWith (lit "data:") s = false ->
             getMimeTypeFromDataUrl (JsString s) = defaultMimeType) /\
  (forall s, includes (lit ";") s = false ->
             getMimeTypeFromDataUrl (JsString s) = defaultMimeType) /\
  getMimeTypeFromDataUrl JsUndefined = defaultMimeType /\
  getMimeTypeFromDataUrl JsNull = defaultMimeType /\
  (forall z, getMimeTypeFromDataUrl (JsNumber z) = defaultMimeType).
Proof.
  assert (Hshape : forall v,
      getMimeTypeFromDataUrl v = defaultMimeType \/
      exists s pre rest,
        v = JsString s /\
        s = pre ++ lit "data:" ++ getMimeTypeFromDataUrl v ++ lit ";" ++ rest /\
        includes (lit ";") (getMimeTypeFromDataUrl v) = false /\
        getMimeTypeFromDataUrl v <> []).
  { intros [| |z|s]; try (now left).
    unfold getMimeTypeFromDataUrl.
    destruct (falsy s || negb (startsWith (lit "data:") s)); [now left|].
    destruct (match_mime s) as [m|] eqn:E; [|now left].
    right. destruct (match_mime_inv _ _ E) as (H1 & H2 & pre & rest & H3).
    exists s, pre, rest. repeat split; assumption. }
  split; [exact getMimeTypeFromDataUrl_head|].
  split; [|split; [|split; [|split; [|repeat split]]]].
  - intros v. destruct (Hshape v) as [H|(s & pre & rest & H1 & H2 & H3 & _)];
      [now left|right]. now exists s, pre, rest.
  - intros v. destruct (Hshape v) as [->|(s & pre & rest & _ & _ & _ & H)];
      [discriminate|exact H].
  - intros s Hs. unfold getMimeTypeFromDataUrl. rewrite Hs.
    now rewrite orb_true_r.
  - intros s Hs.
    destruct (Hshape (JsString s)) as [H|(s' & pre & rest & [= <-] & H2 & _)];
      [exact H|].
    exfalso. rewrite H2 in Hs.
    assert (Hin : includes (lit ";")
                    (pre ++ lit "data:" ++ getMimeTypeFromDataUrl (JsString s)
                         ++ lit ";" ++ rest) = true).
    { apply includes_app_r, includes_app_r, includes_app_r.
      reflexivity. }
    congruence.
Qed.

Lemma getMimeTypeFromDataUrl_spec_witness :
  lit "image/png" <> [] /\
  includes (lit ";") (lit "image/png") = false /\
  getMimeTypeFromDataUrl (JsString (lit "data:image/png;base64,aGVsbG8="))
  = lit "image/png".
Proof.
  split; [discriminate|]. split; [reflexivity|].
  refine (proj1 getMimeTypeFromDataUrl_spec (lit "image/png")
            (lit "base64,aGVsbG8=") _ eq_refl).
  discriminate.
Defined.
Section FileRuns.

Context {W : WebCrypto} {F : FileApi}.

Lemma encryptFile_run (file : File) (key : option jsstring) (w : world) :
  run (encryptFile file key) w =
  match readAsDataURL (blobOfFile file) with
  | None => (inl (Error "Failed to encrypt file: [object ProgressEvent]"), w)
  | Some url =>
    let K := match key with
             | Some (c :: k) => c :: k
             | _ => bufferToHexString (draw w 32)
             end in
    let w0 := match key with
              | Some (_ :: _) => w
              | _ => after_draw w 32
              end in
    match run (encryptData url (Some K)) w0 with
    | (inr blob, w1) => (inr (mkEncryptionResult blob K (file_type file)), w1)
    | (inl e, w1) =>
      (inl (Error ("Failed to encrypt file: " ++ message_of e)%string), w1)
    end
  end.
Proof.
  unfold encryptFile, fileToDataUrl, run, try_catch, bind.
  destruct (readAsDataURL (blobOfFile file)) as [url|]; [|reflexivity].
  cbv zeta.
  destruct key as [[|c k]|]; cbn [falsy ret];
    try change (generateEncryptionKey w)
      with (inr (A := exn) (bufferToHexString (draw w 32)), after_draw w 32);
    cbv beta iota;
    match goal with
    | |- context [encryptData url ?k ?w0] =>
        destruct (encryptData url k w0) as [[e|blob] w1]; reflexivity
    end.
Qed.

Lemma decryptFile_run (encryptedBlob : Blob) (key : jsstring) (w : world) :
  run (decryptFile encryptedBlob key) w =
  match readAsDataURL
          (blobOfFile (newFile encryptedBlob (lit "encrypted")
                               (blob_type encryptedBlob))) with
  | None => (inl (Error "Failed to decrypt file: [object ProgressEvent]"), w)
  | Some url =>
    match run (decryptData url key) w with
    | (inr decryptedData, w1) =>
      (inr (mkDecryptionResult decryptedData
              (getMimeTypeFromDataUrl (JsString decryptedData))), w1)
    | (inl e, w1) =>
      (inl (Error ("Failed to decrypt file: " ++ message_of e)%string), w1)
    end
  end.
Proof.
  unfold decryptFile, fileToDataUrl, run, try_catch, bind.
  destruct (readAsDataURL _) as [url|]; [|reflexivity].
  unfold ret, throw. cbv beta iota.
  destruct (decryptData url key w) as [[e|d] w1]; reflexivity.
Qed.

Lemma encryptData_throws (data : jsstring) (key : option jsstring)
    (w w1 : world) (e : exn) :
  run (encryptData data key) w = (inl e, w1) ->
  exists m, e = encrypt_data_failure m.
Proof.
  unfold encryptData, run, try_catch.
  match goal with
  | |- context [match ?body w with _ => _ end] =>
      destruct (body w) as [[e0|r] w0]
  end.
  - intros [= <- _]. now eexists.
  - discriminate.
Qed.

Lemma decryptData_throws (data key : jsstring) (w w1 : world) (e : exn) :
  run (decryptData data key) w = (inl e, w1) ->
  exists m, e = decrypt_data_failure m.
Proof.
  unfold decryptData, run, try_catch.
  match goal with
  | |- context [match ?body w with _ => _ end] =>
      destruct (body w) as [[e0|r] w0]
  end.
  - intros [= <- _]. now eexists.
  - discriminate.
Qed.

End FileRuns.
Section FileKeys.

Context {W : WebCrypto} {L : AesGcmLaws W} {F : FileApi}.

Lemma encryptData_then_decryptData
    (head : option jsstring) (payload binaryString K : jsstring) (w w' : world) :
  headOk head -> atob payload = Some binaryString -> falsy K = false ->
  import_rejection (hexStringToBuffer K) = None ->
  exists blob w1,
    run (encryptData (dataUrl head payload) (Some K)) w = (inr blob, w1) /\
    returned (run (decryptData blob K) w') =
    Some (normalizedUrl head (btoa binaryString)).
Proof.
  intros Hhead Hatob HK Himp.
  rewrite (encryptData_payload head payload binaryString) by assumption.
  do 2 eexists. split; [reflexivity|].
  assert (Hiv : length (draw w 12) = 12) by apply draw_length.
  rewrite decryptData_framed; try assumption.
  - destruct (frame_split (hexStringToBuffer K) (draw w 12)
                (bytesOfBinaryString binaryString) Hiv) as [-> ->].
    rewrite decrypt_encrypt. cbn [returned fst].
    unfold arrayBufferToBase64. now rewrite binary_string_of_bytes.
  - now apply frame_length.
Qed.

(** X15. encryptFile hands back the key that opens its result. When the
    reader gives the file as a data URL whose payload decodes, encryptFile
    called without a key, or with the empty string for a key, returns: it
    reports the media type of the file and a key of its own making, the
    hexadecimal text of the next thirty-two bytes of entropy, and decryptData
    of the encrypted data under the reported key returns the data URL of the
    file. A key that is given and imports is reported unchanged. *)
Theorem encryptFile_reports_its_key
    (file : File) (head : option jsstring) (payload binaryString : jsstring)
    (key : option jsstring) (w w' : world) :
  readAsDataURL (blobOfFile file) = Some (dataUrl head payload) ->
  headOk head -> atob payload = Some binaryString ->
  (key = None \/ key = Some [] ->
   exists encryptedData,
     returned (run (encryptFile file key) w) =
     Some (mkEncryptionResult encryptedData (bufferToHexString (draw w 32))
                              (file_type file)) /\
     returned (run (decryptData encryptedData (bufferToHexString (draw w 32))) w')
     = Some (normalizedUrl head (btoa binaryString))) /\
  (forall K, key = Some K -> falsy K = false ->
     import_rejection (hexStringToBuffer K) = None ->
     exists encryptedData,
       returned (run (encryptFile file key) w) =
       Some (mkEncryptionResult encryptedData K (file_type file)) /\
       returned (run (decryptData encryptedData K) w')
       = Some (normalizedUrl head (btoa binaryString))).
Proof.
  intros Hread Hhead Hatob. split.
  - intros Hkey.
    set (K := bufferToHexString (draw w 32)).
    assert (Hret : returned (run generateEncryptionKey w) = Some K)
      by (rewrite generateEncryptionKey_run; reflexivity).
    destruct (generated_key _ _ Hret) as (Hf & Hhex & _).
    assert (Himp : import_rejection (hexStringToBuffer K) = None)
      by (rewrite Hhex; apply import_256, draw_length).
    destruct (encryptData_then_decryptData head payload binaryString K
                (after_draw w 32) w' Hhead Hatob Hf Himp)
      as (blob & w1 & Hrun & Hdec).
    exists blob. split; [|exact Hdec].
    rewrite encryptFile_run, Hread. cbv zeta.
    destruct Hkey as [-> | ->]; fold K; now rewrite Hrun.
  - intros K -> HK Himp.
    destruct (encryptData_then_decryptData head payload binaryString K
                w w' Hhead Hatob HK Himp)
      as (blob & w1 & Hrun & Hdec).
    exists blob. split; [|exact Hdec].
    rewrite encryptFile_run, Hread. cbv zeta.
    destruct K as [|c k]; [discriminate HK|]. now rewrite Hrun.
Qed.

End FileKeys.

Lemma encryptFile_reports_its_key_witness :
  let file := mkFile (lit "notes.txt") (lit "text/plain") [x68; x65; x6c; x6c; x6f] in
  @readAsDataURL demo_files (blobOfFile file)
  = Some (lit "data:text/plain;base64,aGVsbG8=") /\
  headOk (Some (lit "data:text/plain;")) /\
  atob (lit "aGVsbG8=") = Some (lit "hello") /\
  exists encryptedData,
    returned (run (@encryptFile demo_platform demo_files file None) demo_world)
    = Some (mkEncryptionResult encryptedData demo_key (lit "text/plain")) /\
    returned (run (@decryptData demo_platform encryptedData demo_key) demo_world)
    = Some (lit "data:text/plain;base64,aGVsbG8=").
Proof.
  split; [reflexivity|]. split; [reflexivity|]. split; [reflexivity|].
  exact (proj1
    (@encryptFile_reports_its_key demo_platform demo_platform_laws demo_files
       (mkFile (lit "notes.txt") (lit "text/plain") [x68; x65; x6c; x6c; x6f])
       (Some (lit "data:text/plain;")) (lit "aGVsbG8=") (lit "hello")
       None demo_world demo_world eq_refl eq_refl eq_refl)
    (or_introl eq_refl)).
Defined.
Section FileTypes.

Context {W : WebCrypto} {F : FileApi}.

(** X17. The media type decryptFile reports is read from the head of the
    data URL, which the frame does not cover. When the reader gives the
    encrypted Blob as a head and the base64 text of a frame that the
    primitive opens, decryptFile returns the plaintext behind that head, or
    behind the default head when there was none, and reports as media type:
    "application/octet-stream" when there was no head, and the type written
    in a head of the form "data:", type, ";" . The plaintext and the key have
    no part in it. *)
Theorem decryptFile_reports_the_type_of_the_head
    (encryptedBlob : Blob) (head : option jsstring) (frame plain : list byte)
    (key : jsstring) (w : world) :
  readAsDataURL (blobOfFile (newFile encryptedBlob (lit "encrypted")
                                     (blob_type encryptedBlob)))
  = Some (dataUrl head (arrayBufferToBase64 frame)) ->
  headOk head -> 12 < length frame ->
  import_rejection (hexStringToBuffer key) = None ->
  openFrame (hexStringToBuffer key) frame = Some plain ->
  exists mimeType,
    returned (run (decryptFile encryptedBlob key) w) =
    Some (mkDecryptionResult (normalizedUrl head (arrayBufferToBase64 plain))
                             mimeType) /\
    (head = None -> mimeType = defaultMimeType) /\
    (forall type,
        head = Some (lit "data:" ++ type ++ lit ";") ->
        type <> [] -> includes (lit ";") type = false ->
        mimeType = type).
Proof.
  intros Hread Hhead Hlen Himp Hopen.
  exists (getMimeTypeFromDataUrl
            (JsString (normalizedUrl head (arrayBufferToBase64 plain)))).
  split; [|split].
  - rewrite decryptFile_run, Hread.
    rewrite decryptData_framed by assumption.
    unfold openFrame in Hopen. now rewrite Hopen.
  - intros ->. cbn [normalizedUrl].
    change defaultPrefix
      with (lit "data:" ++ defaultMimeType ++ lit ";" ++ marker).
    rewrite <- !app_assoc.
    apply getMimeTypeFromDataUrl_head; [discriminate|reflexivity].
  - intros type -> Hne Hsemi. cbn [normalizedUrl].
    rewrite <- !app_assoc. now apply getMimeTypeFromDataUrl_head.
Qed.

End FileTypes.

Lemma decryptFile_reports_the_type_of_the_head_witness :
  let frame :=
    draw demo_world 12
    ++ demo_encrypt (hexStringToBuffer demo_key) (draw demo_world 12)
         [x68; x65; x6c; x6c; x6f] in
  let encryptedBlob := mkBlob (lit "image/png") frame in
  @readAsDataURL demo_files
    (blobOfFile (newFile encryptedBlob (lit "encrypted") (blob_type encryptedBlob)))
  = Some (dataUrl (Some (lit "data:image/png;")) (arrayBufferToBase64 frame)) /\
  headOk (Some (lit "data:image/png;")) /\
  12 < length frame /\
  @import_rejection demo_platform (hexStringToBuffer demo_key) = None /\
  @openFrame demo_platform (hexStringToBuffer demo_key) frame
  = Some [x68; x65; x6c; x6c; x6f] /\
  exists mimeType,
    returned (run (@decryptFile demo_platform demo_files encryptedBlob demo_key)
                  demo_world)
    = Some (mkDecryptionResult (lit "data:image/png;base64,aGVsbG8=") mimeType) /\
    (forall type,
        Some (lit "data:image/png;") = Some (lit "data:" ++ type ++ lit ";") ->
        type <> [] -> includes (lit ";") type = false ->
        mimeType = type).
Proof.
  cbv zeta.
  split; [reflexivity|]. split; [reflexivity|]. split; [vm_compute; lia|].
  split; [reflexivity|]. split; [reflexivity|].
  destruct (@decryptFile_reports_the_type_of_the_head demo_platform demo_files
              (mkBlob (lit "image/png")
                 (draw demo_world 12
                  ++ demo_encrypt (hexStringToBuffer demo_key) (draw demo_world 12)
                       [x68; x65; x6c; x6c; x6f]))
              (Some (lit "data:image/png;"))
              (draw demo_world 12
               ++ demo_encrypt (hexStringToBuffer demo_key) (draw demo_world 12)
                    [x68; x65; x6c; x6c; x6f])
              [x68; x65; x6c; x6c; x6f] demo_key demo_world
              eq_refl eq_refl ltac:(vm_compute; lia) eq_refl eq_refl)
    as (mimeType & H1 & _ & H3).
  exists mimeType. split; [exact H1|exact H3].
Defined.
Lemma replace_at_start (searchValue replaceValue s : jsstring) :
  replace searchValue replaceValue (searchValue ++ s) = replaceValue ++ s.
Proof.
  assert (Hskip : skipn (length searchValue) (searchValue ++ s) = s).
  { induction searchValue as [|c p IH]; [reflexivity|exact IH]. }
  assert (Hunfold : forall t,
            replace searchValue replaceValue t =
            if startsWith searchValue t
            then replaceValue ++ skipn (length searchValue) t
            else match t with
                 | [] => []
                 | c :: t' => c :: replace searchValue replaceValue t'
                 end)
    by (intros [|c t]; reflexivity).
  now rewrite Hunfold, startsWith_app, Hskip.
Qed.

Lemma replace_absent (searchValue replaceValue s : jsstring) :
  includes searchValue s = false -> replace searchValue replaceValue s = s.
Proof.
  induction s as [|c s IH]; intros H.
  - cbn [includes] in H. apply orb_false_elim in H as [H _].
    cbn [replace]. now rewrite H.
  - cbn [includes] in H. apply orb_false_elim in H as [H1 H2].
    cbn [replace]. now rewrite H1, (IH H2).
Qed.

Section FileNames.

Context {W : WebCrypto} {F : FileApi}.

Lemma encryptFileWithKey_run (file : File) (w : world) :
  run (encryptFileWithKey file) w =
  match run (encryptFile file None) w with
  | (inl e, w1) => (inl e, w1)
  | (inr r, w1) =>
    match fetch_blob (result_encryptedData r) with
    | inl message => (inl (Error message), w1)
    | inr blob =>
      (inr (newFile blob (lit "encrypted-" ++ file_name file) (result_mimeType r),
            result_key r), w1)
    end
  end.
Proof.
  unfold encryptFileWithKey, dataUrlToBlob, run, bind.
  destruct (encryptFile file None w) as [[e|[d k m]] w1]; [reflexivity|].
  cbn [result_encryptedData result_key result_mimeType].
  destruct (fetch_blob d); reflexivity.
Qed.

Lemma decryptFileWithKey_run (encryptedFile : File) (key : jsstring)
    (fileName : option jsstring) (w : world) :
  run (decryptFileWithKey encryptedFile key fileName) w =
  match run (decryptFile (blobOfFile encryptedFile) key) w with
  | (inl e, w1) => (inl e, w1)
  | (inr r, w1) =>
    match fetch_blob (result_decryptedData r) with
    | inl message => (inl (Error message), w1)
    | inr blob =>
      (inr (newFile blob
              match fileName with
              | Some (c :: n) => c :: n
              | _ => lit "decrypted-"
                     ++ replace (lit "encrypted-") [] (file_name encryptedFile)
              end
              (result_decryptedMimeType r)), w1)
    end
  end.
Proof.
  unfold decryptFileWithKey, dataUrlToBlob, run, bind.
  destruct (decryptFile (blobOfFile encryptedFile) key w) as [[e|[d m]] w1];
    [reflexivity|].
  cbn [result_decryptedData result_decryptedMimeType].
  destruct (fetch_blob d); [reflexivity|].
  destruct fileName as [[|c n]|]; reflexivity.
Qed.

(** X18. The names and types of the files made by encryptFileWithKey and
    decryptFileWithKey. The encrypted file is named "encrypted-" followed by
    the name of the file, has the type of the file as the File constructor
    stores it, and comes with a generated key, the hexadecimal text of the
    next thirty-two bytes of entropy. The decrypted file has the name that
    was asked for, when one was given and is not the empty string; otherwise
    its name is "decrypted-" followed by the name of the encrypted file with
    its first "encrypted-" removed: for a file named by encryptFileWithKey
    that is "decrypted-" and the original name, whatever that name is, and a
    name without "encrypted-" is kept whole. *)
Theorem names_of_encrypted_and_decrypted_files
    (file encryptedFile : File) (key : jsstring) (fileName : option jsstring)
    (w w' : world) :
  (forall made K,
      returned (run (encryptFileWithKey file) w) = Some (made, K) ->
      file_name made = lit "encrypted-" ++ file_name file /\
      file_type made = normalizeType (file_type file) /\
      K = bufferToHexString (draw w 32)) /\
  (forall out,
      returned (run (decryptFileWithKey encryptedFile key fileName) w') = Some out ->
      (forall n, fileName = Some n -> n <> [] -> file_name out = n) /\
      (fileName = None \/ fileName = Some [] ->
       file_name out
       = lit "decrypted-" ++ replace (lit "encrypted-") [] (file_name encryptedFile)) /\
      (fileName = None \/ fileName = Some [] ->
       file_name encryptedFile = lit "encrypted-" ++ file_name file ->
       file_name out = lit "decrypted-" ++ file_name file) /\
      (fileName = None \/ fileName = Some [] ->
       includes (lit "encrypted-") (file_name encryptedFile) = false ->
       file_name out = lit "decrypted-" ++ file_name encryptedFile)).
Proof.
  split.
  - intros made K. rewrite encryptFileWithKey_run, encryptFile_run.
    destruct (readAsDataURL (blobOfFile file)) as [url|]; [|discriminate].
    cbv zeta.
    destruct (run (encryptData url _) _) as [[e|blob] w1]; [discriminate|].
    cbn [result_encryptedData result_key result_mimeType].
    destruct (fetch_blob blob) as [msg|b]; [discriminate|].
    intros [= <- <-]. repeat split.
  - intros out. rewrite decryptFileWithKey_run.
    destruct (run (decryptFile _ key) w') as [[e|r] w1]; [discriminate|].
    destruct (fetch_blob _) as [msg|b]; [discriminate|].
    intros [= <-]. cbn [newFile file_name].
    split; [|split; [|split]].
    + intros n -> Hn. destruct n; [now contradiction Hn|reflexivity].
    + intros [-> | ->]; reflexivity.
    + intros Hf ->. rewrite replace_at_start.
      destruct Hf as [-> | ->]; reflexivity.
    + intros Hf Hno. rewrite (replace_absent _ _ _ Hno).
      destruct Hf as [-> | ->]; reflexivity.
Qed.

End FileNames.

Lemma names_of_encrypted_and_decrypted_files_witness :
  let file := mkFile (lit "notes.txt") (lit "text/plain") [x68; x65; x6c; x6c; x6f] in
  let iv := draw (after_draw demo_world 32) 12 in
  let made :=
    mkFile (lit "encrypted-notes.txt") (lit "text/plain")
           (iv ++ demo_encrypt (draw demo_world 32) iv (file_bytes file)) in
  returned (run (@encryptFileWithKey demo_platform demo_files file) demo_world)
  = Some (made, demo_key) /\
  file_name made = lit "encrypted-" ++ file_name file /\
  file_type made = normalizeType (file_type file) /\
  demo_key = bufferToHexString (draw demo_world 32).
Proof.
  cbv zeta. split; [vm_compute; reflexivity|].
  refine (proj1
    (@names_of_encrypted_and_decrypted_files demo_platform demo_files
       (mkFile (lit "notes.txt") (lit "text/plain") [x68; x65; x6c; x6c; x6f])
       (mkFile (lit "notes.txt") (lit "text/plain") [x68; x65; x6c; x6c; x6f])
       demo_key None demo_world demo_world) _ _ _).
  vm_compute; reflexivity.
Defined.
Section FileErrors.

Context {W : WebCrypto} {F : FileApi}.

(** X16. Failures of the file layer. encryptFile and decryptFile let no
    exception through as it is: every failure is an Error whose message
    begins with "Failed to encrypt file: " or "Failed to decrypt file: ".
    Behind that prefix stands the text of the reader's error event when the
    reader failed, in which case nothing else was done, and otherwise the
    complete message of encryptData or decryptData, prefix included, so that
    a failure of the cipher arrives with two prefixes. encryptFileWithKey
    and decryptFileWithKey pass these failures on as they are, and add one
    of their own, without any prefix: the failure of fetch on the data URL
    they got. *)
Theorem file_failures_are_wrapped_twice
    (file : File) (encryptedBlob : Blob) (optKey : option jsstring)
    (key : jsstring) (w : world) :
  (forall e,
      thrown (run (encryptFile file optKey) w) = Some e ->
      (readAsDataURL (blobOfFile file) = None /\
       e = Error "Failed to encrypt file: [object ProgressEvent]" /\
       snd (run (encryptFile file optKey) w) = w) \/
      (readAsDataURL (blobOfFile file) <> None /\
       exists m, e = Error ("Failed to encrypt file: Failed to encrypt data: " ++ m))) /\
  (forall e,
      thrown (run (decryptFile encryptedBlob key) w) = Some e ->
      let read :=
        readAsDataURL (blobOfFile (newFile encryptedBlob (lit "encrypted")
                                           (blob_type encryptedBlob))) in
      (read = None /\
       e = Error "Failed to decrypt file: [object ProgressEvent]" /\
       snd (run (decryptFile encryptedBlob key) w) = w) \/
      (read <> None /\
       exists m,
         e = Error ("Failed to decrypt file: "
                    ++ "Failed to decrypt data. The key may be incorrect: " ++ m))) /\
  (forall e,
      thrown (run (encryptFileWithKey file) w) = Some e ->
      (exists m, e = Error ("Failed to encrypt file: " ++ m)) \/
      (exists r message,
          returned (run (encryptFile file None) w) = Some r /\
          fetch_blob (result_encryptedData r) = inl message /\
          e = Error message)) /\
  (forall fileName e,
      thrown (run (decryptFileWithKey file key fileName) w) = Some e ->
      (exists m, e = Error ("Failed to decrypt file: " ++ m)) \/
      (exists r message,
          returned (run (decryptFile (blobOfFile file) key) w) = Some r /\
          fetch_blob (result_decryptedData r) = inl message /\
          e = Error message)).
Proof.
  assert (Henc : forall e,
      thrown (run (encryptFile file optKey) w) = Some e ->
      (readAsDataURL (blobOfFile file) = None /\
       e = Error "Failed to encrypt file: [object ProgressEvent]" /\
       snd (run (encryptFile file optKey) w) = w) \/
      (readAsDataURL (blobOfFile file) <> None /\
       exists m, e = Error ("Failed to encrypt file: Failed to encrypt data: " ++ m))).
  2: assert (Hdec : forall blob e,
      thrown (run (decryptFile blob key) w) = Some e ->
      let read :=
        readAsDataURL (blobOfFile (newFile blob (lit "encrypted")
                                           (blob_type blob))) in
      (read = None /\
       e = Error "Failed to decrypt file: [object ProgressEvent]" /\
       snd (run (decryptFile blob key) w) = w) \/
      (read <> None /\
       exists m,
         e = Error ("Failed to decrypt file: "
                    ++ "Failed to decrypt data. The key may be incorrect: " ++ m))).
  3: split; [exact Henc|split; [exact (Hdec encryptedBlob)|split]].
  - intros e. rewrite encryptFile_run.
    destruct (readAsDataURL (blobOfFile file)) as [url|].
    + cbv zeta. intros H. right. split; [discriminate|].
      match type of H with
      | context [run (encryptData url ?k) ?w0] =>
          destruct (run (encryptData url k) w0) as [[e0|blob] w1] eqn:E
      end; [|discriminate H].
      destruct (encryptData_throws _ _ _ _ _ E) as [m ->].
      injection H as <-. now exists m.
    + intros [= <-]. left. repeat split.
  - clear Henc. intros blob e. rewrite decryptFile_run. cbv zeta.
    destruct (readAsDataURL _) as [url|].
    + intros H. right. split; [discriminate|].
      destruct (run (decryptData url key) w) as [[e0|d] w1] eqn:E;
        [|discriminate H].
      destruct (decryptData_throws _ _ _ _ _ E) as [m ->].
      injection H as <-. now exists m.
    + intros [= <-]. left. repeat split.
  - intros e. rewrite encryptFileWithKey_run.
    destruct (run (encryptFile file None) w) as [[e0|r] w1] eqn:E.
    + intros [= <-]. left.
      assert (Hthrown : thrown (run (encryptFile file None) w) = Some e0)
        by now rewrite E.
      clear Henc Hdec. revert Hthrown. rewrite encryptFile_run.
      destruct (readAsDataURL (blobOfFile file)) as [url|].
      * cbv zeta.
        destruct (run (encryptData url _) _) as [[e1|b] w2]; [|discriminate].
        intros [= <-]. now eexists.
      * intros [= <-]. now eexists.
    + destruct (fetch_blob (result_encryptedData r)) as [message|b] eqn:Ef;
        [|discriminate].
      intros [= <-]. right. now exists r, message.
  - intros fileName e. rewrite decryptFileWithKey_run.
    destruct (run (decryptFile (blobOfFile file) key) w) as [[e0|r] w1] eqn:E.
    + intros [= <-]. left.
      assert (Hthrown : thrown (run (decryptFile (blobOfFile file) key) w) = Some e0)
        by now rewrite E.
      destruct (Hdec _ _ Hthrown) as [(_ & -> & _)|(_ & m & ->)]; now eexists.
    + destruct (fetch_blob (result_decryptedData r)) as [message|b] eqn:Ef;
        [|discriminate].
      intros [= <-]. right. now exists r, message.
Qed.

End FileErrors.
Lemma type_char_facts (c : ascii) :
  isTokenChar c || Ascii.eqb c "/" = true ->
  (let n := N_of_ascii c in ((32 <=? n) && (n <=? 126))%N) = true /\
  asciiLower c = c /\
  Ascii.eqb c ";" = false /\ c <> ","%char.
Proof.
  destruct c as [[] [] [] [] [] [] [] []]; intros H;
    first [ discriminate H
          | repeat split; first [reflexivity | discriminate] ].
Qed.

Lemma forallb_weaken {A} (p q : A -> bool) (l : list A) :
  (forall x, p x = true -> q x = true) ->
  forallb p l = true -> forallb q l = true.
Proof.
  intros Hpq H. apply forallb_forall. intros x Hx. apply Hpq.
  now apply (proj1 (forallb_forall p l) H).
Qed.

Lemma plainType_chars (t : jsstring) :
  plainType t = true ->
  t <> [] /\ forallb (fun c => isTokenChar c || Ascii.eqb c "/") t = true.
Proof.
  unfold plainType.
  destruct (takeWhile_dropWhile isTokenChar t) as [Happ Hall].
  destruct (takeWhile isTokenChar t) as [|a m]; [discriminate|].
  destruct (dropWhile isTokenChar t) as [|slash [|b sub]]; try discriminate.
  intros H. apply andb_prop in H as [Hslash Hsub].
  rewrite <- Happ. split; [discriminate|].
  rewrite forallb_app. apply andb_true_intro. split.
  - revert Hall. apply forallb_weaken. now intros x ->.
  - change (forallb (fun c => isTokenChar c || Ascii.eqb c "/") (slash :: b :: sub))
      with ((isTokenChar slash || Ascii.eqb slash "/")
            && forallb (fun c => isTokenChar c || Ascii.eqb c "/") (b :: sub)).
    rewrite Hslash, orb_true_r. cbn [andb].
    revert Hsub. apply forallb_weaken. now intros x ->.
Qed.

Lemma plainType_facts (t : jsstring) :
  plainType t = true ->
  t <> [] /\ normalizeType t = t /\ includes (lit ";") t = false /\
  includes marker (lit "data:" ++ t ++ lit ";") = false.
Proof.
  intros H. destruct (plainType_chars t H) as [Hne Hall].
  split; [exact Hne|]. split; [|split].
  - unfold normalizeType.
    match goal with
    | |- (if ?c then _ else _) = _ => replace c with true
    end.
    2:{ symmetry. revert Hall. apply forallb_weaken.
        intros x Hx. exact (proj1 (type_char_facts x Hx)). }
    clear - Hall. induction t as [|c t IH]; [reflexivity|].
    cbn [forallb map] in *. apply andb_prop in Hall as [Hc Ht].
    f_equal; [exact (proj1 (proj2 (type_char_facts c Hc)))|now apply IH].
  - apply no_semicolon. revert Hall. apply forallb_weaken.
    intros x Hx. destruct (type_char_facts x Hx) as (_ & _ & Hsemi & _).
    now rewrite Hsemi.
  - apply includes_marker_comma. intros Hin.
    apply in_app_or in Hin as [Hin|Hin].
    { cbv in Hin. intuition discriminate. }
    apply in_app_or in Hin as [Hin|Hin].
    + clear - Hall Hin. induction t as [|c t IH]; [contradiction|].
      cbn [forallb] in Hall. apply andb_prop in Hall as [Hc Ht].
      destruct Hin as [->|Hin]; [|now apply IH].
      now destruct (type_char_facts _ Hc) as (_ & _ & _ & Hcomma).
    + cbv in Hin. intuition discriminate.
Qed.

Lemma demo_files_laws : DataUrlLaws demo_files.
Proof.
  split.
  - intros [t bytes] Ht. cbn [blob_type blob_bytes] in *.
    destruct (plainType_facts t Ht) as (Hne & _).
    cbn [readAsDataURL demo_files]. unfold demo_readAsDataURL.
    cbn [blob_type blob_bytes]. destruct t; [now contradiction Hne|reflexivity].
  - intros t bytes Ht.
    destruct (plainType_facts t Ht) as (_ & _ & _ & Hhead).
    cbn [fetch_blob demo_files]. unfold demo_fetch_blob.
    rewrite startsWith_app.
    replace (lit "data:" ++ t ++ lit ";" ++ marker ++ arrayBufferToBase64 bytes)
      with ((lit "data:" ++ t ++ lit ";") ++ marker ++ arrayBufferToBase64 bytes)
      by now rewrite <- !app_assoc.
    rewrite includes_build, (split_build _ _ Hhead).
    rewrite (split_not_included _ _ (arrayBufferToBase64_no_marker bytes)).
    cbn [andb nth]. rewrite atob_of_arrayBufferToBase64, bytes_of_binary_string.
    change (skipn 5 (lit "data:" ++ t ++ lit ";")) with (t ++ [";"%char]).
    now rewrite removelast_last.
Qed.
Section FileRoundTrip.

Context {W : WebCrypto} {L : AesGcmLaws W} {F : FileApi} {D : DataUrlLaws F}.

Lemma typed_url (t : jsstring) (bytes : list byte) :
  lit "data:" ++ t ++ lit ";" ++ marker ++ arrayBufferToBase64 bytes
  = dataUrl (Some (lit "data:" ++ t ++ lit ";")) (arrayBufferToBase64 bytes).
Proof. cbn [dataUrl]. now rewrite <- !app_assoc. Qed.

Lemma encryptFileWithKey_typed (file : File) (w : world) :
  plainType (file_type file) = true ->
  let keyData := draw w 32 in
  let iv := draw (after_draw w 32) 12 in
  let frame := iv ++ aes_gcm_encrypt keyData iv (file_bytes file) in
  exists w1,
    run (encryptFileWithKey file) w =
    (inr (mkFile (lit "encrypted-" ++ file_name file) (file_type file) frame,
          bufferToHexString keyData), w1).
Proof.
  intros Ht. cbv zeta.
  destruct (plainType_facts _ Ht) as (Hne & Hnorm & Hsemi & Hhead).
  set (K := bufferToHexString (draw w 32)).
  assert (Hret : returned (run generateEncryptionKey w) = Some K)
    by (rewrite generateEncryptionKey_run; reflexivity).
  destruct (generated_key _ _ Hret) as (Hf & Hhex & _).
  assert (Himp : import_rejection (hexStringToBuffer K) = None)
    by (rewrite Hhex; apply import_256, draw_length).
  rewrite encryptFileWithKey_run, encryptFile_run.
  rewrite (read_data_url (blobOfFile file) Ht).
  cbn [blobOfFile blob_type blob_bytes]. cbv zeta. fold K.
  rewrite typed_url, encryptData_framed by assumption.
  cbn [result_encryptedData result_key result_mimeType].
  rewrite <- typed_url, Hhex, (fetch_data_url _ _ Ht).
  eexists. unfold newFile. cbn [blob_bytes]. now rewrite Hnorm.
Qed.

Lemma decryptFile_typed (t : jsstring) (frame plain : list byte)
    (K : jsstring) (w : world) :
  plainType t = true -> 12 < length frame ->
  import_rejection (hexStringToBuffer K) = None ->
  aes_gcm_decrypt (hexStringToBuffer K) (firstn 12 frame) (skipn 12 frame)
  = Some plain ->
  exists w1,
    run (decryptFile (mkBlob t frame) K) w =
    (inr (mkDecryptionResult
            (lit "data:" ++ t ++ lit ";" ++ marker ++ arrayBufferToBase64 plain) t),
     w1).
Proof.
  intros Ht Hlen Himp Hopen.
  destruct (plainType_facts _ Ht) as (Hne & Hnorm & Hsemi & Hhead).
  rewrite decryptFile_run. unfold newFile, blobOfFile.
  cbn [blob_type blob_bytes file_type file_bytes]. rewrite Hnorm.
  rewrite (read_data_url (mkBlob t frame) Ht). cbn [blob_type blob_bytes].
  rewrite typed_url, decryptData_framed, Hopen by assumption.
  cbn [normalizedUrl]. rewrite <- !app_assoc.
  rewrite (getMimeTypeFromDataUrl_head t _ Hne Hsemi).
  eexists. reflexivity.
Qed.

(** X19. A file through encryptFileWithKey and decryptFileWithKey. On a
    platform whose reader and fetch write and read data URLs of plain media
    types, for every file of such a type: encryptFileWithKey returns a file
    named "encrypted-" and the name, of the same type, whose bytes are the
    frame, 28 bytes more than the file has, together with the generated key;
    decryptFileWithKey of that file under that key returns a file with the
    bytes and the type of the original, named "decrypted-" and the original
    name, or as asked; and createFileFromDecryptedData makes the same file
    of what decryptFile returns. *)
Theorem file_round_trip (file : File) (w w' : world) :
  plainType (file_type file) = true ->
  exists encryptedFile K,
    returned (run (encryptFileWithKey file) w) = Some (encryptedFile, K) /\
    file_name encryptedFile = lit "encrypted-" ++ file_name file /\
    file_type encryptedFile = file_type file /\
    length (file_bytes encryptedFile) = length (file_bytes file) + 28 /\
    returned (run (decryptFileWithKey encryptedFile K None) w') =
    Some (mkFile (lit "decrypted-" ++ file_name file) (file_type file)
                 (file_bytes file)) /\
    (forall c n,
        returned (run (decryptFileWithKey encryptedFile K (Some (c :: n))) w') =
        Some (mkFile (c :: n) (file_type file) (file_bytes file))) /\
    (forall n,
        exists r,
          returned (run (decryptFile (blobOfFile encryptedFile) K) w') = Some r /\
          result_decryptedMimeType r = file_type file /\
          returned (run (createFileFromDecryptedData (result_decryptedData r) n) w')
          = Some (mkFile n (file_type file) (file_bytes file))).
Proof.
  intros Ht.
  destruct (plainType_facts _ Ht) as (Hne & Hnorm & Hsemi & Hhead).
  destruct (encryptFileWithKey_typed file w Ht) as (w1 & Henc).
  cbv zeta in Henc.
  set (K := bufferToHexString (draw w 32)) in *.
  set (iv := draw (after_draw w 32) 12) in *.
  set (frame := iv ++ aes_gcm_encrypt (draw w 32) iv (file_bytes file)) in *.
  assert (Hiv : length iv = 12) by apply draw_length.
  assert (HK : hexStringToBuffer K = draw w 32)
    by apply hexStringToBuffer_bufferToHexString.
  assert (Himp : import_rejection (hexStringToBuffer K) = None)
    by (rewrite HK; apply import_256, draw_length).
  assert (Hlen : 12 < length frame) by now apply frame_length.
  assert (Hopen : aes_gcm_decrypt (hexStringToBuffer K) (firstn 12 frame)
                    (skipn 12 frame) = Some (file_bytes file)).
  { rewrite HK. unfold frame.
    destruct (frame_split (draw w 32) iv (file_bytes file) Hiv) as [-> ->].
    apply decrypt_encrypt. }
  destruct (decryptFile_typed _ frame (file_bytes file) K w' Ht Hlen Himp Hopen)
    as (w2 & Hdec).
  exists (mkFile (lit "encrypted-" ++ file_name file) (file_type file) frame), K.
  assert (Hout : forall fileName,
    returned (run (decryptFileWithKey
                     (mkFile (lit "encrypted-" ++ file_name file)
                             (file_type file) frame) K fileName) w')
    = Some (mkFile match fileName with
                   | Some (c :: n) => c :: n
                   | _ => lit "decrypted-" ++ file_name file
                   end (file_type file) (file_bytes file))).
  { intros fileName. rewrite decryptFileWithKey_run.
    unfold blobOfFile. cbn [file_type file_bytes file_name]. rewrite Hdec.
    cbn [result_decryptedData result_decryptedMimeType].
    rewrite (fetch_data_url _ _ Ht), replace_at_start.
    unfold newFile. cbn [blob_bytes returned fst app]. now rewrite Hnorm. }
  split; [now rewrite Henc|]. split; [reflexivity|]. split; [reflexivity|].
  split.
  { cbn [file_bytes]. unfold frame.
    rewrite length_app, Hiv, encrypt_length. lia. }
  split; [exact (Hout None)|]. split; [intros c n; exact (Hout (Some (c :: n)))|].
  intros n. eexists. unfold blobOfFile. cbn [file_type file_bytes].
  rewrite Hdec. split; [reflexivity|]. split; [reflexivity|].
  cbn [result_decryptedData].
  unfold createFileFromDecryptedData, dataUrlToBlob, run, bind.
  rewrite (fetch_data_url _ _ Ht).
  unfold newFile. cbn [blob_bytes blob_type returned fst ret]. now rewrite Hnorm.
Qed.

End FileRoundTrip.

Lemma file_round_trip_witness :
  let file := mkFile (lit "notes.txt") (lit "text/plain") [x68; x65; x6c; x6c; x6f] in
  plainType (file_type file) = true /\
  exists encryptedFile K,
    returned (run (@encryptFileWithKey demo_platform demo_files file) demo_world)
    = Some (encryptedFile, K) /\
    file_name encryptedFile = lit "encrypted-notes.txt" /\
    file_type encryptedFile = lit "text/plain" /\
    length (file_bytes encryptedFile) = 5 + 28 /\
    returned (run (@decryptFileWithKey demo_platform demo_files encryptedFile K None)
                  demo_world)
    = Some (mkFile (lit "decrypted-notes.txt") (lit "text/plain")
                   [x68; x65; x6c; x6c; x6f]).
Proof.
  split; [reflexivity|].
  destruct (@file_round_trip demo_platform demo_platform_laws demo_files
              demo_files_laws
              (mkFile (lit "notes.txt") (lit "text/plain") [x68; x65; x6c; x6c; x6f])
              demo_world demo_world eq_refl)
    as (encryptedFile & K & H1 & H2 & H3 & H4 & H5 & _).
  exists encryptedFile, K.
  split; [exact H1|]. split; [exact H2|]. split; [exact H3|].
  split; [exact H4|exact H5].
Defined.
(** ** Upper and lower case in keys *)

Lemma asciiLower_facts (c : ascii) :
  hexValue (asciiLower c) = hexValue c /\
  isWhiteSpace (asciiLower c) = isWhiteSpace c /\
  isLineTerminator (asciiLower c) = isLineTerminator c /\
  Ascii.eqb (asciiLower c) "-" = Ascii.eqb c "-" /\
  Ascii.eqb (asciiLower c) "+" = Ascii.eqb c "+" /\
  Ascii.eqb (asciiLower c) "0" = Ascii.eqb c "0" /\
  (Ascii.eqb (asciiLower c) "x" || Ascii.eqb (asciiLower c) "X")
  = (Ascii.eqb c "x" || Ascii.eqb c "X").
Proof.
  destruct c as [[] [] [] [] [] [] [] []]; repeat split; reflexivity.
Qed.

Lemma isHexDigit_lower (c : ascii) : isHexDigit (asciiLower c) = isHexDigit c.
Proof.
  unfold isHexDigit. now rewrite (proj1 (asciiLower_facts c)).
Qed.

Lemma dropWhile_map_lower (p : ascii -> bool) (s : jsstring) :
  (forall c, p (asciiLower c) = p c) ->
  dropWhile p (map asciiLower s) = map asciiLower (dropWhile p s).
Proof.
  intros Hp. induction s as [|c s IH]; [reflexivity|].
  cbn [map dropWhile]. rewrite Hp. destruct (p c); [exact IH|reflexivity].
Qed.

Lemma takeWhile_map_lower (p : ascii -> bool) (s : jsstring) :
  (forall c, p (asciiLower c) = p c) ->
  takeWhile p (map asciiLower s) = map asciiLower (takeWhile p s).
Proof.
  intros Hp. induction s as [|c s IH]; [reflexivity|].
  cbn [map takeWhile]. rewrite Hp. destruct (p c); [|reflexivity].
  cbn [map]. now rewrite IH.
Qed.

Lemma digitsValue_lower (ds : jsstring) :
  digitsValue (map asciiLower ds) = digitsValue ds.
Proof.
  unfold digitsValue.
  set (f := fun (acc : Z) (c : ascii) =>
              (16 * acc + match hexValue c with
                          | Some v => Z.of_N v
                          | None => 0
                          end)%Z).
  assert (H : forall acc, fold_left f (map asciiLower ds) acc = fold_left f ds acc).
  { induction ds as [|c ds IH]; intros acc; [reflexivity|].
    cbn [map fold_left]. rewrite IH. f_equal.
    unfold f. now rewrite (proj1 (asciiLower_facts c)). }
  apply H.
Qed.

Lemma parseInt16_lower (s : jsstring) :
  parseInt16 (map asciiLower s) = parseInt16 s.
Proof.
  unfold parseInt16.
  rewrite (dropWhile_map_lower isWhiteSpace)
    by (intros c; apply (asciiLower_facts c)).
  set (s1 := dropWhile isWhiteSpace s).
  assert (Hsign :
    match map asciiLower s1 with
    | c :: t =>
      if Ascii.eqb c "-" then ((-1)%Z, t)
      else if Ascii.eqb c "+" then (1%Z, t)
      else (1%Z, map asciiLower s1)
    | [] => (1%Z, map asciiLower s1)
    end =
    (fst match s1 with
         | c :: t =>
           if Ascii.eqb c "-" then ((-1)%Z, t)
           else if Ascii.eqb c "+" then (1%Z, t)
           else (1%Z, s1)
         | [] => (1%Z, s1)
         end,
     map asciiLower
       (snd match s1 with
            | c :: t =>
              if Ascii.eqb c "-" then ((-1)%Z, t)
              else if Ascii.eqb c "+" then (1%Z, t)
              else (1%Z, s1)
            | [] => (1%Z, s1)
            end))).
  { destruct s1 as [|c t]; [reflexivity|]. cbn [map].
    destruct (asciiLower_facts c) as (_ & _ & _ & -> & -> & _).
    destruct (Ascii.eqb c "-"); [reflexivity|].
    destruct (Ascii.eqb c "+"); reflexivity. }
  rewrite Hsign. clear Hsign.
  destruct (match s1 with
            | c :: t =>
              if Ascii.eqb c "-" then ((-1)%Z, t)
              else if Ascii.eqb c "+" then (1%Z, t)
              else (1%Z, s1)
            | [] => (1%Z, s1)
            end) as [sign s2].
  cbn [fst snd].
  assert (Hprefix :
    match map asciiLower s2 with
    | z :: x :: t =>
      if Ascii.eqb z "0" && (Ascii.eqb x "x" || Ascii.eqb x "X") then t
      else map asciiLower s2
    | _ => map asciiLower s2
    end =
    map asciiLower
      match s2 with
      | z :: x :: t =>
        if Ascii.eqb z "0" && (Ascii.eqb x "x" || Ascii.eqb x "X") then t else s2
      | _ => s2
      end).
  { destruct s2 as [|z [|x t]]; try reflexivity. cbn [map].
    destruct (asciiLower_facts z) as (_ & _ & _ & _ & _ & -> & _).
    destruct (asciiLower_facts x) as (_ & _ & _ & _ & _ & _ & ->).
    destruct (Ascii.eqb z "0" && _); reflexivity. }
  rewrite Hprefix. clear Hprefix.
  rewrite (takeWhile_map_lower isHexDigit) by apply isHexDigit_lower.
  destruct (takeWhile isHexDigit _) as [|d ds] eqn:E; [reflexivity|].
  cbn [map]. change (asciiLower d :: map asciiLower ds)
    with (map asciiLower (d :: ds)).
  now rewrite digitsValue_lower.
Qed.

Lemma match_hex_pairs_lower (s : jsstring) :
  match_hex_pairs (map asciiLower s) = map (map asciiLower) (match_hex_pairs s).
Proof.
  assert (H : forall n s, length s <= n ->
            match_hex_pairs (map asciiLower s)
            = map (map asciiLower) (match_hex_pairs s)).
  { induction n as [|n IH]; intros [|a [|b rest]] Hn; try reflexivity;
      try (cbn in Hn; lia).
    - cbn [map]. rewrite !match_hex_pairs_step, !isHexDigit_lower.
      destruct (isHexDigit a && isHexDigit b).
      + cbn [map]. f_equal. apply IH. cbn [length] in Hn. lia.
      + change (asciiLower b :: map asciiLower rest)
          with (map asciiLower (b :: rest)).
        apply IH. cbn [length] in *. lia. }
  now apply (H (length s)).
Qed.

Lemma match_any_1_2_step (a b : ascii) (rest : jsstring) :
  match_any_1_2 (a :: b :: rest) =
  if isLineTerminator a then match_any_1_2 (b :: rest)
  else if isLineTerminator b then [a] :: match_any_1_2 (b :: rest)
       else [a; b] :: match_any_1_2 rest.
Proof. reflexivity. Qed.

Lemma match_any_1_2_lower (s : jsstring) :
  match_any_1_2 (map asciiLower s) = map (map asciiLower) (match_any_1_2 s).
Proof.
  assert (Hterm : forall c, isLineTerminator (asciiLower c) = isLineTerminator c)
    by (intros c; apply (asciiLower_facts c)).
  assert (H : forall n s, length s <= n ->
            match_any_1_2 (map asciiLower s)
            = map (map asciiLower) (match_any_1_2 s)).
  { induction n as [|n IH]; intros [|a [|b rest]] Hn; try reflexivity;
      try (cbn in Hn; lia).
    - cbn. rewrite Hterm. destruct (isLineTerminator a); reflexivity.
    - cbn [map]. rewrite !match_any_1_2_step, !Hterm.
      change (asciiLower b :: map asciiLower rest)
        with (map asciiLower (b :: rest)).
      cbn [length] in Hn.
      destruct (isLineTerminator a).
      { apply (IH (b :: rest)). cbn [length]. lia. }
      destruct (isLineTerminator b).
      + rewrite (IH (b :: rest)) by (cbn [length]; lia). reflexivity.
      + rewrite (IH rest) by lia. reflexivity. }
  now apply (H (length s)).
Qed.

Lemma hexStringToBuffer_lower (K : jsstring) :
  hexStringToBuffer (map asciiLower K) = hexStringToBuffer K.
Proof.
  unfold hexStringToBuffer. rewrite match_hex_pairs_lower, !map_map.
  apply map_ext. intros p. now rewrite parseInt16_lower.
Qed.

Lemma keyDataOfImageKey_lower (K : jsstring) :
  keyDataOfImageKey (map asciiLower K) = keyDataOfImageKey K.
Proof.
  unfold keyDataOfImageKey. rewrite match_any_1_2_lower, !map_map.
  apply map_ext. intros p. now rewrite parseInt16_lower.
Qed.

Section KeyCase.

Context {W : WebCrypto}.

(** X20. The case of the digits in a key is of no account. For every key
    text, both key conversions give the same key data for the text and for
    the text in lower case, so that all four entry points run on the two
    texts in exactly the same way: same calls, same result or failure. A
    key that bufferToHexString wrote is therefore one of many texts that
    open a blob: two texts that are equal up to case decrypt alike. *)
Theorem key_case_is_ignored (data K : jsstring) (w : world) :
  hexStringToBuffer (map asciiLower K) = hexStringToBuffer K /\
  keyDataOfImageKey (map asciiLower K) = keyDataOfImageKey K /\
  (forall K',
      map asciiLower K' = map asciiLower K ->
      run (decryptData data K') w = run (decryptData data K) w /\
      run (decryptImage data K') w = run (decryptImage data K) w) /\
  run (encryptData data (Some (map asciiLower K))) w
  = run (encryptData data (Some K)) w /\
  run (decryptData data (map asciiLower K)) w = run (decryptData data K) w /\
  run (encryptImage data (map asciiLower K)) w = run (encryptImage data K) w /\
  run (decryptImage data (map asciiLower K)) w = run (decryptImage data K) w.
Proof.
  split; [apply hexStringToBuffer_lower|].
  split; [apply keyDataOfImageKey_lower|].
  split.
  { intros K' HK. rewrite !decryptData_run, !decryptImage_run.
    rewrite <- (hexStringToBuffer_lower K'), <- (keyDataOfImageKey_lower K'), HK.
    now rewrite hexStringToBuffer_lower, keyDataOfImageKey_lower. }
  split; [|split; [|split]].
  - destruct K as [|c K].
    + reflexivity.
    + rewrite !encryptData_run by reflexivity.
      now rewrite hexStringToBuffer_lower.
  - rewrite !decryptData_run. now rewrite hexStringToBuffer_lower.
  - rewrite !encryptImage_run. now rewrite keyDataOfImageKey_lower.
  - rewrite !decryptImage_run. now rewrite keyDataOfImageKey_lower.
Qed.

End KeyCase.
(** ** White space in a payload *)

Lemma filter_twice {A} (f : A -> bool) (l : list A) :
  filter f (filter f l) = filter f l.
Proof.
  induction l as [|a l IH]; [reflexivity|].
  cbn [filter]. destruct (f a) eqn:E; [|exact IH].
  cbn [filter]. now rewrite E, IH.
Qed.

Lemma atob_ignores_white_space (s : jsstring) :
  atob (filter (fun c => negb (isAsciiWhitespace c)) s) = atob s.
Proof. unfold atob. now rewrite filter_twice. Qed.

Lemma dropWhile_keeps {A} (p : A -> bool) (c : A) (l : list A) :
  In c l -> p c = false -> In c (dropWhile p l).
Proof.
  induction l as [|a l IH]; [contradiction|].
  intros Hin Hc. cbn [dropWhile]. destruct (p a) eqn:E; [|exact Hin].
  destruct Hin as [->|Hin]; [congruence|now apply IH].
Qed.

Lemma trim_keeps (c : ascii) (s : jsstring) :
  In c s -> isWhiteSpace c = false -> In c (trim s).
Proof.
  intros Hin Hc. unfold trim.
  apply in_rev. rewrite rev_involutive.
  apply dropWhile_keeps; [|exact Hc].
  apply in_rev. rewrite rev_involutive.
  now apply dropWhile_keeps.
Qed.

Lemma wrapped_payload_not_blank (body : jsstring) (frame : list byte) :
  filter (fun c => negb (isAsciiWhitespace c)) body = arrayBufferToBase64 frame ->
  frame <> [] ->
  body <> [] /\ blank body = false.
Proof.
  intros Hfilter Hframe.
  assert (Hc : exists c, In c body /\ isWhiteSpace c = false).
  { assert (Hne : arrayBufferToBase64 frame <> []).
    { apply btoa_nonempty. destruct frame; [now contradiction Hframe|discriminate]. }
    destruct (arrayBufferToBase64 frame) as [|c u] eqn:E; [now contradiction Hne|].
    exists c. split.
    - apply (proj1 (filter_In (fun c => negb (isAsciiWhitespace c)) c body)).
      rewrite Hfilter. now left.
    - apply isWhiteSpace_unit.
      assert (Hu := btoa_units (binaryStringOfBytes frame)).
      fold (arrayBufferToBase64 frame) in Hu. rewrite E in Hu.
      now inversion Hu. }
  destruct Hc as (c & Hin & Hws).
  assert (Hbody : body <> []) by (intros ->; contradiction).
  split; [exact Hbody|].
  unfold blank. rewrite (falsy_false _ Hbody). cbn [orb].
  apply falsy_false. intros E. apply (trim_keeps c body) in Hin; [|exact Hws].
  now rewrite E in Hin.
Qed.

Section WhiteSpace.

Context {W : WebCrypto}.

(** X21. ASCII white space in a payload is ignored. When a payload without
    the marker is the base64 text of a non-empty buffer with tabs, line
    feeds, form feeds, carriage returns or spaces put anywhere into it, as
    in a text that was wrapped into lines, all four entry points run on it
    exactly as on the base64 text itself: same calls, same result or
    failure. *)
Theorem white_space_in_payload_is_ignored
    (head : option jsstring) (body K : jsstring) (frame : list byte) (w : world) :
  headOk head -> includes marker body = false ->
  filter (fun c => negb (isAsciiWhitespace c)) body = arrayBufferToBase64 frame ->
  frame <> [] ->
  let wrapped := dataUrl head body in
  let plain := dataUrl head (arrayBufferToBase64 frame) in
  atob body = Some (binaryStringOfBytes frame) /\
  run (decryptData wrapped K) w = run (decryptData plain K) w /\
  run (decryptImage wrapped K) w = run (decryptImage plain K) w /\
  (falsy K = false ->
   run (encryptData wrapped (Some K)) w = run (encryptData plain (Some K)) w) /\
  run (encryptImage wrapped K) w = run (encryptImage plain K) w.
Proof.
  intros Hhead Hbody Hfilter Hframe. cbv zeta.
  assert (Hno := arrayBufferToBase64_no_marker frame).
  assert (Hatob : atob body = Some (binaryStringOfBytes frame)).
  { rewrite <- atob_ignores_white_space, Hfilter.
    apply atob_of_arrayBufferToBase64. }
  destruct (wrapped_payload_not_blank body frame Hfilter Hframe) as [Hne Hblank].
  assert (Hne' : arrayBufferToBase64 frame <> []).
  { apply btoa_nonempty. destruct frame; [now contradiction Hframe|discriminate]. }
  assert (Hblank' : blank (arrayBufferToBase64 frame) = false).
  { apply arrayBufferToBase64_not_blank, Hframe. }
  assert (Hsplit : forall b, includes marker b = false ->
            fst (splitDataUrl (dataUrl head b)) =
            fst (splitDataUrl (dataUrl head body))).
  { intros b Hb. destruct head as [p|]; cbn [dataUrl headOk] in *.
    - now rewrite !splitDataUrl_build.
    - now rewrite !splitDataUrl_plain. }
  assert (Hprefix : dataPrefixOf (dataUrl head (arrayBufferToBase64 frame))
                    = dataPrefixOf (dataUrl head body)).
  { unfold dataPrefixOf. rewrite (Hsplit _ Hno).
    destruct head as [p|]; cbn [dataUrl].
    - now rewrite !includes_build.
    - now rewrite Hbody, Hno. }
  split; [exact Hatob|]. split; [|split; [|split]].
  - rewrite !decryptData_run. cbv zeta.
    rewrite !payloadOf_dataUrl, Hprefix by assumption.
    rewrite (falsy_false _ (dataUrl_nonempty head _ Hne)).
    rewrite (falsy_false _ (dataUrl_nonempty head _ Hne')).
    now rewrite Hblank, Hblank', Hatob, atob_of_arrayBufferToBase64.
  - rewrite !decryptImage_run. cbv zeta.
    rewrite !payloadOf_dataUrl, (Hsplit _ Hno) by assumption.
    rewrite (falsy_false _ (dataUrl_nonempty head _ Hne)).
    rewrite (falsy_false _ (dataUrl_nonempty head _ Hne')).
    now rewrite Hblank, Hblank', Hatob, atob_of_arrayBufferToBase64.
  - intros HK. rewrite !encryptData_run by assumption. cbv zeta.
    fold (payloadOf (dataUrl head body)).
    fold (payloadOf (dataUrl head (arrayBufferToBase64 frame))).
    rewrite !payloadOf_dataUrl, (Hsplit _ Hno) by assumption.
    now rewrite Hatob, atob_of_arrayBufferToBase64.
  - rewrite !encryptImage_run. cbv zeta.
    fold (payloadOf (dataUrl head body)).
    fold (payloadOf (dataUrl head (arrayBufferToBase64 frame))).
    rewrite !payloadOf_dataUrl, (Hsplit _ Hno) by assumption.
    now rewrite Hatob, atob_of_arrayBufferToBase64.
Qed.

End WhiteSpace.

Lemma white_space_in_payload_is_ignored_witness :
  let frame :=
    draw demo_world 12
    ++ demo_encrypt (hexStringToBuffer demo_key) (draw demo_world 12)
         [x68; x65; x6c; x6c; x6f] in
  let body :=
    lit "AAECAwQFBgcICQoL" ++ ["010"%char] ++ lit "b2xsZWhiYmJiYmJiYmJiYmJiYmJi" in
  headOk (Some (lit "data:text/plain;")) /\
  includes marker body = false /\
  filter (fun c => negb (isAsciiWhitespace c)) body = arrayBufferToBase64 frame /\
  frame <> [] /\
  returned (run (@decryptData demo_platform
                   (dataUrl (Some (lit "data:text/plain;")) (arrayBufferToBase64 frame))
                   demo_key) demo_world)
  = Some (lit "data:text/plain;base64,aGVsbG8=") /\
  run (@decryptData demo_platform (dataUrl (Some (lit "data:text/plain;")) body)
         demo_key) demo_world
  = run (@decryptData demo_platform
           (dataUrl (Some (lit "data:text/plain;")) (arrayBufferToBase64 frame))
           demo_key) demo_world.
Proof.
  cbv zeta.
  split; [reflexivity|]. split; [reflexivity|]. split; [reflexivity|].
  split; [discriminate|]. split; [reflexivity|].
  refine (proj1 (proj2
    (@white_space_in_payload_is_ignored demo_platform
       (Some (lit "data:text/plain;"))
       (lit "AAECAwQFBgcICQoL" ++ ["010"%char] ++ lit "b2xsZWhiYmJiYmJiYmJiYmJiYmJi")
       demo_key
       (draw demo_world 12
        ++ demo_encrypt (hexStringToBuffer demo_key) (draw demo_world 12)
             [x68; x65; x6c; x6c; x6f])
       demo_world eq_refl eq_refl eq_refl _))).
  discriminate.
Defined.
